(** * The data-management layer (lib/auth.ts, lib/data.ts): embedding and properties

    The two library files of the application are embedded function by
    function, under the names they have there.  Everything they keep lives
    in the browser's [localStorage]; every operation reads a whole
    collection, changes it in memory and writes it back.  The embedding
    follows that shape:

    - a JavaScript string is a [string], one [ascii] per code unit: the
      embedding has the strings whose code units are at most 0xFF.  On
      these [btoa] does not throw and [toLowerCase] maps each code unit by
      itself; what the program does with a string that has another code
      unit (a password or a title in another script) is not embedded, and
      a statement that depends on it says so;
    - a [Date] is its time value, an integer count of milliseconds ([Z]);
      the invalid date is not represented;
    - a [number] is a binary64 float ([PrimFloat.float]); counts and array
      lengths are [nat];
    - [localStorage] is a record of the four keys the code uses, each absent
      or holding the value its JSON text denotes (a text that is not the
      JSON of such a value is not represented); the users and the records
      are lists, the password hashes a finite map from user id to hash.
      What is written is read back as it was written: that is how JSON
      treats strings, dates and finite numbers, but it writes the negative
      zero as [0] and NaN and the infinities as [null], so a statement that
      reads a new number back is about a number JSON keeps;
    - [typeof window === 'undefined'] is the environment [Server], in which
      nothing is stored;
    - the code reads the clock ([Date.now()], [new Date()]): the world
      carries the sequence of clock readings and the number of readings
      taken so far, and the operations live in a state monad over the
      world;
    - [btoa], [atob], [JSON.stringify], [JSON.parse] and
      [Array.prototype.sort] are the platform's; they are written out below
      as far as the code uses them.

    Of the zod schemas, [loginSchema] and [signupSchema] are embedded with
    zod's test of an email address as a parameter; [dataSchema] is the
    parameter of [validateImportData].  Of the React components the
    embedding has what they do to the store: [login], [signup] and [logout]
    of the authentication provider, and [loadData], the two delete handlers
    and the record filter of the administrator's dashboard.  Not embedded:
    [prepareExportData] (it rests on [Date.prototype.toISOString]), the
    export over [fetch], the redirects and the markup. *)

From Stdlib Require Import ZArith List Ascii String Bool Lia Permutation Sorted.
From Stdlib Require Import Floats.
From stdpp Require Import base tactics option list strings gmap pretty.

Local Open Scope Z_scope.

(** ** Platform: strings *)

Module JS.

(** A [Date] by its time value (milliseconds since the epoch). *)
Definition Date : Type := Z.

(** [String.prototype.toLowerCase] on code units up to 0xFF: the letters
    A-Z, and the accented capitals 0xC0-0xDE except the multiplication
    sign 0xD7, move up by 32; nothing else has a lower-case form in this
    range.  (Beyond this range the function is not a map of code units: a
    capital sigma is mapped according to its neighbours, and U+0130 becomes
    two code units.) *)
Definition lower_code (n : N) : N :=
  if (((65 <=? n) && (n <=? 90))
      || ((192 <=? n) && (n <=? 222) && negb (n =? 215)))%N
  then (n + 32)%N else n.

Definition lower_char (c : ascii) : ascii :=
  ascii_of_N (lower_code (N_of_ascii c)).

Fixpoint toLowerCase (s : string) : string :=
  match s with
  | EmptyString => EmptyString
  | String c s' => String (lower_char c) (toLowerCase s')
  end.

(** [s.startsWith(t)] and [s.includes(t)]. *)
Fixpoint startsWith (s t : string) : bool :=
  match t, s with
  | EmptyString, _ => true
  | String _ _, EmptyString => false
  | String b t', String a s' => Ascii.eqb a b && startsWith s' t'
  end.

Fixpoint includes (s t : string) : bool :=
  startsWith s t
  || match s with
     | EmptyString => false
     | String _ s' => includes s' t
     end.

(** The relational operator [<] on two strings: code unit by code unit,
    a proper prefix first. *)
Fixpoint string_lt (s t : string) : bool :=
  match s, t with
  | _, EmptyString => false
  | EmptyString, String _ _ => true
  | String a s', String b t' =>
      if (N_of_ascii a <? N_of_ascii b)%N then true
      else if (N_of_ascii b <? N_of_ascii a)%N then false
      else string_lt s' t'
  end.

(** Truthiness of a string: every string but the empty one. *)
Definition truthy (s : string) : bool :=
  match s with EmptyString => false | String _ _ => true end.

(** [Number.prototype.toString] of an integer time value. *)
Definition toString (n : Z) : string := pretty n.

(** A [number] holding an array length (below 2^32, so the conversion is
    exact). *)
Definition of_length (n : nat) : float :=
  PrimFloat.of_uint63 (Uint63.of_Z (Z.of_nat n)).

End JS.

(** ** types/index.ts *)

Inductive UserRole := admin | user.
Inductive RecordStatus := active | inactive.
Inductive SortOrder := asc | desc.

Definition UserRole_eqb (a b : UserRole) : bool :=
  match a, b with admin, admin | user, user => true | _, _ => false end.

Definition RecordStatus_eqb (a b : RecordStatus) : bool :=
  match a, b with active, active | inactive, inactive => true | _, _ => false end.

(** The string a role or a status is at run time. *)
Definition role_string (r : UserRole) : string :=
  match r with admin => "admin" | user => "user" end.

Definition status_string (s : RecordStatus) : string :=
  match s with active => "active" | inactive => "inactive" end.

Module User.
Record t := mk {
  id : string;
  email : string;
  name : string;
  role : UserRole;
  createdAt : JS.Date;
  updatedAt : JS.Date;
}.
End User.

Module AuthUser.
Record t := mk {
  id : string;
  email : string;
  name : string;
  role : UserRole;
  token : string;
}.
End AuthUser.

Module SignupForm.
Record t := mk {
  name : string;
  email : string;
  password : string;
  confirmPassword : string;
}.
End SignupForm.

Module DataForm.
Record t := mk {
  title : string;
  description : string;
  category : string;
  value : float;
  status : RecordStatus;
}.
End DataForm.

(** [Partial<DataForm>]: each field present with a value, or absent. *)
Module PartialDataForm.
Record t := mk {
  title : option string;
  description : option string;
  category : option string;
  value : option float;
  status : option RecordStatus;
}.
End PartialDataForm.

Module DataRecord.
Record t := mk {
  id : string;
  userId : string;
  title : string;
  description : string;
  category : string;
  value : float;
  status : RecordStatus;
  createdAt : JS.Date;
  updatedAt : JS.Date;
}.
End DataRecord.

(** [keyof DataRecord]. *)
Inductive RecordKey :=
| k_id | k_userId | k_title | k_description | k_category
| k_value | k_status | k_createdAt | k_updatedAt.

Module SortConfig.
Record t := mk { key : RecordKey; direction : SortOrder }.
End SortConfig.

Module DateRange.
Record t := mk { start : JS.Date; end_ : JS.Date }.
End DateRange.

Module FilterConfig.
Record t := mk {
  category : option string;
  status : option RecordStatus;
  dateRange : option DateRange.t;
  search : option string;
}.
End FilterConfig.

(** ** The store and the clock *)

(** The four keys of [localStorage] the code uses: ['saas_users'],
    ['saas_passwords'], ['saas_data_records'] and ['auth_token'].  [None] is
    a key that was never written ([getItem] gives [null]). *)
Record LocalStorage := mkLocalStorage {
  saas_users : option (list User.t);
  saas_passwords : option (gmap string string);
  saas_data_records : option (list DataRecord.t);
  auth_token : option string;
}.

(** Where the code runs: on the server [typeof window === 'undefined'] and
    there is no [localStorage]; in the browser there is one. *)
Inductive Env :=
| Server
| Browser (ls : LocalStorage).

(** The world: the store, the clock's readings in the order they are taken,
    and how many have been taken. *)
Record World := mkWorld {
  env : Env;
  timeline : nat -> Z;
  ticks : nat;
}.

Definition M (A : Type) : Type := World -> A * World.

#[export] Instance M_ret : MRet M := fun A (a : A) w => (a, w).
#[export] Instance M_bind : MBind M :=
  fun A B (f : A -> M B) (m : M A) w => let (a, w') := m w in f a w'.

(** [Date.now()] and [new Date()]: the next reading of the clock. *)
Definition Date_now : M Z :=
  fun w => (timeline w (ticks w), mkWorld (env w) (timeline w) (S (ticks w))).

Definition new_Date : M JS.Date := Date_now.

Definition set_env (e : Env) : M unit :=
  fun w => (tt, mkWorld e (timeline w) (ticks w)).

Definition get_env : M Env := fun w => (env w, w).


(** ** Platform: [btoa], [atob], [JSON.stringify], [JSON.parse] *)

Module Base64.

Definition digit (n : N) : ascii :=
  (if n <? 26 then ascii_of_N (65 + n)
   else if n <? 52 then ascii_of_N (97 + (n - 26))
   else if n <? 62 then ascii_of_N (48 + (n - 52))
   else if n =? 62 then "+"%char else "/"%char)%N.

Definition value (c : ascii) : option N :=
  (let n := N_of_ascii c in
   if (65 <=? n) && (n <=? 90) then Some (n - 65)
   else if (97 <=? n) && (n <=? 122) then Some (n - 97 + 26)
   else if (48 <=? n) && (n <=? 57) then Some (n - 48 + 52)
   else if n =? 43 then Some 62
   else if n =? 47 then Some 63
   else None)%N.

(** [btoa]: three code units become four digits; a last group of one or
    two is padded with [=].  It is defined on code units up to 0xFF, which
    is every string of the embedding; on a string with another code unit
    the program's [btoa] throws an [InvalidCharacterError]. *)
Fixpoint btoa (s : string) : string :=
  match s with
  | EmptyString => EmptyString
  | String a EmptyString =>
      let x := N_of_ascii a in
      String (digit (x / 4)) (String (digit ((x mod 4) * 16)) "==")
  | String a (String b EmptyString) =>
      let x := N_of_ascii a in
      let y := N_of_ascii b in
      String (digit (x / 4))
        (String (digit ((x mod 4) * 16 + y / 16))
           (String (digit ((y mod 16) * 4)) "="))
  | String a (String b (String c rest)) =>
      let x := N_of_ascii a in
      let y := N_of_ascii b in
      let z := N_of_ascii c in
      String (digit (x / 4))
        (String (digit ((x mod 4) * 16 + y / 16))
           (String (digit ((y mod 16) * 4 + z / 64))
              (String (digit (z mod 64)) (btoa rest))))
  end%N.

Definition is_whitespace (c : ascii) : bool :=
  (let n := N_of_ascii c in
   (n =? 9) || (n =? 10) || (n =? 12) || (n =? 13) || (n =? 32))%N.

Definition strip_padding (l : list ascii) : list ascii :=
  if (length l mod 4 =? 0)%nat then
    match rev l with
    | "="%char :: "="%char :: r => rev r
    | "="%char :: r => rev r
    | _ => l
    end
  else l.

Fixpoint values (l : list ascii) : option (list N) :=
  match l with
  | [] => Some []
  | c :: l' =>
      match value c, values l' with
      | Some v, Some vs => Some (v :: vs)
      | _, _ => None
      end
  end.

Fixpoint bytes (l : list N) : list ascii :=
  match l with
  | a :: b :: c :: d :: rest =>
      ascii_of_N (a * 4 + b / 16)
      :: ascii_of_N ((b mod 16) * 16 + c / 4)
      :: ascii_of_N ((c mod 4) * 64 + d)
      :: bytes rest
  | [a; b; c] =>
      [ascii_of_N (a * 4 + b / 16); ascii_of_N ((b mod 16) * 16 + c / 4)]
  | [a; b] => [ascii_of_N (a * 4 + b / 16)]
  | _ => []
  end%N.

(** [atob]: white space is dropped, the padding of a text whose length is
    a multiple of four is dropped, and what is left must be digits whose
    number is not 1 modulo 4.  [None] is the [InvalidCharacterError]. *)
Definition atob (s : string) : option string :=
  let data :=
    strip_padding
      (List.filter (fun c => negb (is_whitespace c)) (list_ascii_of_string s)) in
  if (length data mod 4 =? 1)%nat then None
  else
    match values data with
    | None => None
    | Some vs => Some (string_of_list_ascii (bytes vs))
    end.

End Base64.

Module JSON.

Definition dquote : ascii := "034"%char.
Definition backslash : ascii := "092"%char.

#[warnings="-register-all"]
Inductive json :=
| JNull
| JBool (b : bool)
| JNumber (n : Z)
| JString (s : string)
| JArray (items : list json)
| JObject (members : list (string * json)).

Definition hex_digit (n : N) : ascii :=
  (if n <? 10 then ascii_of_N (48 + n) else ascii_of_N (97 + (n - 10)))%N.

(** [QuoteJSONString]: the quote, the backslash and the control
    characters are escaped, every other code unit stands for itself. *)
Definition quote_char (c : ascii) : string :=
  (let n := N_of_ascii c in
   if n =? 8 then String backslash "b"
   else if n =? 9 then String backslash "t"
   else if n =? 10 then String backslash "n"
   else if n =? 12 then String backslash "f"
   else if n =? 13 then String backslash "r"
   else if n =? 34 then String backslash (String dquote "")
   else if n =? 92 then String backslash (String backslash "")
   else if n <? 32 then
     String backslash
       (String "u" (String "0" (String "0"
          (String (hex_digit (n / 16)) (String (hex_digit (n mod 16)) "")))))
   else String c "")%N.

Fixpoint quote_body (s : string) : string :=
  match s with
  | EmptyString => String dquote ""
  | String c s' => quote_char c +:+ quote_body s'
  end.

Definition quote (s : string) : string := String dquote (quote_body s).

(** [JSON.stringify] of a value built from objects, arrays, strings,
    integers, booleans and [null]. *)
Fixpoint stringify (j : json) : string :=
  match j with
  | JNull => "null"
  | JBool true => "true"
  | JBool false => "false"
  | JNumber n => pretty n
  | JString s => quote s
  | JArray items =>
      "[" +:+
      (fix elements (l : list json) : string :=
         match l with
         | [] => "]"
         | [x] => stringify x +:+ "]"
         | x :: l' => stringify x +:+ "," +:+ elements l'
         end) items
  | JObject members =>
      "{" +:+
      (fix fields (l : list (string * json)) : string :=
         match l with
         | [] => "}"
         | [(k, x)] => quote k +:+ ":" +:+ stringify x +:+ "}"
         | (k, x) :: l' => quote k +:+ ":" +:+ stringify x +:+ "," +:+ fields l'
         end) members
  end.

(** What [JSON.parse] makes of a text: a [SyntaxError]; a value; or a
    value that is valid JSON but has a string with a code unit above 0xFF
    or a number that is not written as an integer, which the embedding
    does not represent. *)
Inductive parsed :=
| SyntaxError
| Outside
| Value (j : json).

Definition is_ws (c : ascii) : bool :=
  (let n := N_of_ascii c in
   (n =? 32) || (n =? 9) || (n =? 10) || (n =? 13))%N.

Fixpoint skip_ws (s : string) : string :=
  match s with
  | String c s' => if is_ws c then skip_ws s' else s
  | EmptyString => s
  end.

Definition digit_value (c : ascii) : option Z :=
  let n := Z.of_N (N_of_ascii c) in
  if (48 <=? n) && (n <=? 57) then Some (n - 48) else None.

Definition hex_value (c : ascii) : option N :=
  (let n := N_of_ascii c in
   if (48 <=? n) && (n <=? 57) then Some (n - 48)
   else if (97 <=? n) && (n <=? 102) then Some (n - 87)
   else if (65 <=? n) && (n <=? 70) then Some (n - 55)
   else None)%N.

(** The digits at the head of [s], read onto [acc]; how many there were. *)
Fixpoint digits (acc : Z) (count : nat) (s : string) : Z * nat * string :=
  match s with
  | String c s' =>
      match digit_value c with
      | Some d => digits (10 * acc + d) (S count) s'
      | None => (acc, count, s)
      end
  | EmptyString => (acc, count, s)
  end.

(** The body of a string literal, after its opening quote.  The inner
    [None] is a string with a code unit above 0xFF. *)
Fixpoint parse_string (s : string) : option (option string * string) :=
  let cons (c : ascii) (r : option (option string * string)) :=
    match r with
    | Some (body, rest) => Some (String c <$> body, rest)
    | None => None
    end in
  match s with
  | EmptyString => None
  | String c s' =>
      if Ascii.eqb c dquote then Some (Some EmptyString, s')
      else if Ascii.eqb c backslash then
        match s' with
        | String "u" (String h1 (String h2 (String h3 (String h4 s'')))) =>
            match hex_value h1, hex_value h2, hex_value h3, hex_value h4 with
            | Some a, Some b, Some c', Some d =>
                let code := (((a * 16 + b) * 16 + c') * 16 + d)%N in
                match parse_string s'' with
                | Some (body, rest) =>
                    if (code <? 256)%N
                    then Some (String (ascii_of_N code) <$> body, rest)
                    else Some (None, rest)
                | None => None
                end
            | _, _, _, _ => None
            end
        | String e s'' =>
            if Ascii.eqb e dquote then cons dquote (parse_string s'')
            else if Ascii.eqb e backslash then cons backslash (parse_string s'')
            else if Ascii.eqb e "/" then cons "/"%char (parse_string s'')
            else if Ascii.eqb e "b" then cons "008"%char (parse_string s'')
            else if Ascii.eqb e "f" then cons "012"%char (parse_string s'')
            else if Ascii.eqb e "n" then cons "010"%char (parse_string s'')
            else if Ascii.eqb e "r" then cons "013"%char (parse_string s'')
            else if Ascii.eqb e "t" then cons "009"%char (parse_string s'')
            else None
        | EmptyString => None
        end
      else if (N_of_ascii c <? 32)%N then None
      else cons c (parse_string s')
  end.

(** A number literal: sign, integer part, fraction, exponent. *)
Definition sign (s : string) : bool * string :=
  match s with
  | String "-" s' => (true, s')
  | _ => (false, s)
  end.

(** The integer part is a single 0 or starts with another digit; with it,
    the number of its digits. *)
Definition integer (s : string) : Z * nat * string :=
  match s with
  | String "0" s' => (0, 1%nat, s')
  | _ => digits 0 0 s
  end.

(** Whether there is a fraction; [None] for a point without digits. *)
Definition fraction (s : string) : option (bool * string) :=
  match s with
  | String "." s' =>
      let '(_, count, rest) := digits 0 0 s' in
      if (count =? 0)%nat then None else Some (true, rest)
  | _ => Some (false, s)
  end.

(** Whether there is an exponent; [None] for one without digits. *)
Definition exponent (s : string) : option (bool * string) :=
  match s with
  | String e s' =>
      if Ascii.eqb e "e" || Ascii.eqb e "E" then
        let s'' :=
          match s' with
          | String "+" t => t
          | String "-" t => t
          | _ => s'
          end in
        let '(_, count, rest) := digits 0 0 s'' in
        if (count =? 0)%nat then None else Some (true, rest)
      else Some (false, s)
  | EmptyString => Some (false, s)
  end.

(** The inner [None] is a literal with a fraction or an exponent. *)
Definition parse_number (s : string) : option (option Z * string) :=
  let (negative, s1) := sign s in
  let '(n, count, s2) := integer s1 in
  if (count =? 0)%nat then None
  else
    match fraction s2 with
    | None => None
    | Some (hasFraction, s3) =>
        match exponent s3 with
        | None => None
        | Some (hasExponent, s4) =>
            Some (if hasFraction || hasExponent then None
                  else Some (if negative then - n else n), s4)
        end
    end.

Definition literal (word : string) (j : json) (s : string)
  : option (option json * string) :=
  if JS.startsWith s word
  then Some (Some j, String.substring (String.length word)
                       (String.length s - String.length word) s)
  else None.

(** A value, then the rest of the text.  The outer [None] is a syntax
    error, the inner one a value the embedding does not represent. *)
Fixpoint parse_value (fuel : nat) (s : string) : option (option json * string) :=
  match fuel with
  | O => None
  | S fuel' =>
      match skip_ws s with
      | EmptyString => None
      | String c s' =>
          if Ascii.eqb c "{" then
            match skip_ws s' with
            | String "}" rest => Some (Some (JObject []), rest)
            | _ =>
                match parse_members fuel' s' with
                | Some (ms, rest) => Some (JObject <$> ms, rest)
                | None => None
                end
            end
          else if Ascii.eqb c "[" then
            match skip_ws s' with
            | String "]" rest => Some (Some (JArray []), rest)
            | _ =>
                match parse_elements fuel' s' with
                | Some (xs, rest) => Some (JArray <$> xs, rest)
                | None => None
                end
            end
          else if Ascii.eqb c dquote then
            match parse_string s' with
            | Some (body, rest) => Some (JString <$> body, rest)
            | None => None
            end
          else if Ascii.eqb c "t" then literal "true" (JBool true) (String c s')
          else if Ascii.eqb c "f" then literal "false" (JBool false) (String c s')
          else if Ascii.eqb c "n" then literal "null" JNull (String c s')
          else
            match parse_number (String c s') with
            | Some (n, rest) => Some (JNumber <$> n, rest)
            | None => None
            end
      end
  end

with parse_elements (fuel : nat) (s : string)
  : option (option (list json) * string) :=
  match fuel with
  | O => None
  | S fuel' =>
      match parse_value fuel' s with
      | None => None
      | Some (x, rest) =>
          match skip_ws rest with
          | String "]" rest' => Some ((fun v => [v]) <$> x, rest')
          | String "," rest' =>
              match parse_elements fuel' rest' with
              | Some (xs, rest'') =>
                  Some (match x, xs with
                        | Some v, Some vs => Some (v :: vs)
                        | _, _ => None
                        end, rest'')
              | None => None
              end
          | _ => None
          end
      end
  end

with parse_members (fuel : nat) (s : string)
  : option (option (list (string * json)) * string) :=
  match fuel with
  | O => None
  | S fuel' =>
      match skip_ws s with
      | String q s1 =>
          if Ascii.eqb q dquote then
            match parse_string s1 with
            | None => None
            | Some (k, s2) =>
                match skip_ws s2 with
                | String ":" s3 =>
                    match parse_value fuel' s3 with
                    | None => None
                    | Some (x, rest) =>
                        let member :=
                          match k, x with
                          | Some key, Some v => Some (key, v)
                          | _, _ => None
                          end in
                        match skip_ws rest with
                        | String "}" rest' => Some ((fun m => [m]) <$> member, rest')
                        | String "," rest' =>
                            match parse_members fuel' rest' with
                            | Some (ms, rest'') =>
                                Some (match member, ms with
                                      | Some m, Some l => Some (m :: l)
                                      | _, _ => None
                                      end, rest'')
                            | None => None
                            end
                        | _ => None
                        end
                    end
                | _ => None
                end
            end
          else None
      | EmptyString => None
      end
  end.

(** [JSON.parse]: one value, with nothing but white space after it. *)
Definition parse (s : string) : parsed :=
  match parse_value (2 * String.length s + 2) s with
  | None => SyntaxError
  | Some (j, rest) =>
      match skip_ws rest with
      | EmptyString =>
          match j with
          | Some v => Value v
          | None => Outside
          end
      | String _ _ => SyntaxError
      end
  end.

(** [o[key]] on a parsed object: the last member of that name. *)
Definition member (key : string) (members : list (string * json)) : option json :=
  fold_left (fun found m => if String.eqb (fst m) key then Some (snd m) else found)
    members None.

End JSON.


(** ** Arrays *)

(** [Array.prototype.findIndex]; [None] is the index -1. *)
Fixpoint findIndex {A : Type} (p : A -> bool) (l : list A) : option nat :=
  match l with
  | [] => None
  | x :: l' => if p x then Some O else S <$> findIndex p l'
  end.

(** ** lib/auth.ts *)

(** The members of a payload that make the [AuthUser], as [validateToken]
    reads them back.  [name] is a member [generateToken] never writes:
    [payload.name || ''] is the name when it is a non-empty string, and the
    empty string when the member is absent or falsy. *)
Record Payload := mkPayload {
  payload_id : string;
  payload_email : string;
  payload_name : string;
  payload_role : UserRole;
}.

Definition role_of_string (s : string) : option UserRole :=
  if String.eqb s "admin" then Some admin
  else if String.eqb s "user" then Some user
  else None.

(** [payload.name || '']; [None] when it is a value of another type than
    [AuthUser] declares. *)
Definition name_or_empty (name : option JSON.json) : option string :=
  match name with
  | None => Some ""
  | Some (JSON.JString n) => Some (if JS.truthy n then n else "")
  | Some JSON.JNull => Some ""
  | Some (JSON.JBool false) => Some ""
  | Some (JSON.JNumber 0) => Some ""
  | Some _ => None
  end.

(** The members of a parsed object read with the types [AuthUser] declares;
    [None] when one of them is absent or has another type. *)
Definition as_payload (members : list (string * JSON.json)) : option Payload :=
  match JSON.member "id" members, JSON.member "email" members,
        JSON.member "role" members with
  | Some (JSON.JString i), Some (JSON.JString e), Some (JSON.JString r) =>
      match role_of_string r, name_or_empty (JSON.member "name" members) with
      | Some ro, Some n => Some (mkPayload i e n ro)
      | _, _ => None
      end
  | _, _, _ => None
  end.

Definition generateToken (user : User.t) : M string :=
  now ← Date_now;
  let payload :=
    JSON.JObject
      [ ("id", JSON.JString (User.id user));
        ("email", JSON.JString (User.email user));
        ("role", JSON.JString (role_string (User.role user)));
        ("exp", JSON.JNumber (now + 24 * 60 * 60 * 1000)) ] in
  mret (Base64.btoa (JSON.stringify payload)).

(** What [validateToken] returns: [null]; an [AuthUser]; or [Untyped], for
    a token that decodes to JSON of another shape than a payload's.  The
    code then returns [null] or an object whose members do not have the
    types [AuthUser] declares, and which of the two the embedding does not
    say. *)
Inductive Validation :=
| NoSession
| Session (u : AuthUser.t)
| Untyped.

(** The object [validateToken] returns when the token has not expired. *)
Definition session_of (members : list (string * JSON.json)) (token : string)
  : Validation :=
  match as_payload members with
  | None => Untyped
  | Some payload =>
      Session
        (AuthUser.mk (payload_id payload) (payload_email payload)
           (payload_name payload) (payload_role payload) token)
  end.

(** [atob] or [JSON.parse] may throw, and so does [payload.exp] when the
    payload is [null]: the [catch] returns [null].  Otherwise the clock is
    read for [payload.exp < Date.now()].  With no [exp] the comparison is
    [undefined < now], which is false: such a token does not expire.  An
    [exp] that is not a number is compared after a conversion that is not
    embedded. *)
Definition validateToken (token : string) : M Validation :=
  match Base64.atob token with
  | None => mret NoSession
  | Some text =>
      match JSON.parse text with
      | JSON.SyntaxError => mret NoSession
      | JSON.Outside => mret Untyped
      | JSON.Value JSON.JNull => mret NoSession
      | JSON.Value (JSON.JObject members) =>
          now ← Date_now;
          match JSON.member "exp" members with
          | Some (JSON.JNumber exp) =>
              if exp <? now then mret NoSession
              else mret (session_of members token)
          | None => mret (session_of members token)
          | Some _ => mret Untyped
          end
      | JSON.Value _ => _ ← Date_now; mret Untyped
      end
  end.

Definition hashPassword (password : string) : string :=
  Base64.btoa (password +:+ "salt_key_2024").

Definition verifyPassword (password hash : string) : bool :=
  String.eqb (hashPassword password) hash.

Definition set_saas_users (v : list User.t) (ls : LocalStorage) : LocalStorage :=
  mkLocalStorage (Some v) (saas_passwords ls) (saas_data_records ls) (auth_token ls).

Definition set_saas_passwords (v : gmap string string) (ls : LocalStorage)
  : LocalStorage :=
  mkLocalStorage (saas_users ls) (Some v) (saas_data_records ls) (auth_token ls).

Definition set_saas_data_records (v : list DataRecord.t) (ls : LocalStorage)
  : LocalStorage :=
  mkLocalStorage (saas_users ls) (saas_passwords ls) (Some v) (auth_token ls).

Definition set_auth_token (v : option string) (ls : LocalStorage) : LocalStorage :=
  mkLocalStorage (saas_users ls) (saas_passwords ls) (saas_data_records ls) v.

Module authStorage.

Definition getToken : M (option string) :=
  e ← get_env;
  match e with
  | Server => mret None
  | Browser ls => mret (auth_token ls)
  end.

Definition setToken (token : string) : M unit :=
  e ← get_env;
  match e with
  | Server => mret tt
  | Browser ls => set_env (Browser (set_auth_token (Some token) ls))
  end.

Definition removeToken : M unit :=
  e ← get_env;
  match e with
  | Server => mret tt
  | Browser ls => set_env (Browser (set_auth_token None ls))
  end.

Definition getUser : M Validation :=
  token ← getToken;
  match token with
  | Some t => if JS.truthy t then validateToken t else mret NoSession
  | None => mret NoSession
  end.

End authStorage.

(** [Partial<User>]. *)
Module PartialUser.
Record t := mk {
  id : option string;
  email : option string;
  name : option string;
  role : option UserRole;
  createdAt : option JS.Date;
  updatedAt : option JS.Date;
}.
End PartialUser.

Module UserManager.

Definition getUsers : M (list User.t) :=
  e ← get_env;
  match e with
  | Server => mret []
  | Browser ls => mret (default [] (saas_users ls))
  end.

Definition saveUsers (users : list User.t) : M unit :=
  e ← get_env;
  match e with
  | Server => mret tt
  | Browser ls => set_env (Browser (set_saas_users users ls))
  end.

Definition addUser (userData : SignupForm.t) : M User.t :=
  users ← getUsers;
  id ← Date_now;
  createdAt ← new_Date;
  updatedAt ← new_Date;
  let newUser :=
    User.mk (JS.toString id)
      (SignupForm.email userData)
      (SignupForm.name userData)
      (if (length users =? 0)%nat then admin else user)
      createdAt
      updatedAt in
  _ ← saveUsers (users ++ [newUser]);
  mret newUser.

Definition findByEmail (email : string) : M (option User.t) :=
  users ← getUsers;
  mret (List.find (fun u => String.eqb (User.email u) email) users).

Definition merge (updates : PartialUser.t) (updatedAt : JS.Date) (old : User.t)
  : User.t :=
  User.mk
    (default (User.id old) (PartialUser.id updates))
    (default (User.email old) (PartialUser.email updates))
    (default (User.name old) (PartialUser.name updates))
    (default (User.role old) (PartialUser.role updates))
    (default (User.createdAt old) (PartialUser.createdAt updates))
    updatedAt.

Definition updateUser (id : string) (updates : PartialUser.t) : M bool :=
  users ← getUsers;
  match findIndex (fun u => String.eqb (User.id u) id) users with
  | None => mret false
  | Some index =>
      updatedAt ← new_Date;
      _ ← saveUsers (alter (merge updates updatedAt) index users);
      mret true
  end.

Definition deleteUser (id : string) : M bool :=
  users ← getUsers;
  let filteredUsers :=
    List.filter (fun u => negb (String.eqb (User.id u) id)) users in
  if (length filteredUsers =? length users)%nat then mret false
  else
    _ ← saveUsers filteredUsers;
    mret true.

End UserManager.

Module PasswordManager.

Definition getPasswords : M (gmap string string) :=
  e ← get_env;
  match e with
  | Server => mret ∅
  | Browser ls => mret (default ∅ (saas_passwords ls))
  end.

(** [passwords[userId] = hash] on the object read from the store.  The map
    holds the object's own properties.  The key ['__proto__'], when the
    object has no property of its own under it, is the accessor the object
    inherits, and that ignores a string: the assignment sets nothing.  Every
    other key gets the hash. *)
Definition assign (userId hash : string) (passwords : gmap string string)
  : gmap string string :=
  if String.eqb userId "__proto__" then
    match passwords !! userId with
    | Some _ => <[userId := hash]> passwords
    | None => passwords
    end
  else <[userId := hash]> passwords.

Definition savePassword (userId password : string) : M unit :=
  e ← get_env;
  match e with
  | Server => mret tt
  | Browser ls =>
      passwords ← getPasswords;
      set_env (Browser (set_saas_passwords (assign userId (hashPassword password) passwords) ls))
  end.

Definition verifyUserPassword (userId password : string) : M bool :=
  passwords ← getPasswords;
  match passwords !! userId with
  | Some storedHash =>
      if JS.truthy storedHash then mret (verifyPassword password storedHash)
      else mret false
  | None => mret false
  end.

(** [deletePassword] does not test for the window: on the server its
    [localStorage.setItem] is a [ReferenceError], the result [None]. *)
Definition deletePassword (userId : string) : M (option unit) :=
  passwords ← getPasswords;
  e ← get_env;
  match e with
  | Server => mret None
  | Browser ls =>
      _ ← set_env (Browser (set_saas_passwords (delete userId passwords) ls));
      mret (Some tt)
  end.

End PasswordManager.

Definition hasAdminAccess (u : option AuthUser.t) : bool :=
  match u with
  | Some a => UserRole_eqb (AuthUser.role a) admin
  | None => false
  end.

Definition hasUserAccess (u : option AuthUser.t) (resourceUserId : option string)
  : bool :=
  match u with
  | None => false
  | Some a =>
      if UserRole_eqb (AuthUser.role a) admin then true
      else
        match resourceUserId with
        | Some r => if JS.truthy r then String.eqb (AuthUser.id a) r else true
        | None => true
        end
  end.

Definition requireAuth (u : option AuthUser.t) : bool :=
  match u with Some _ => true | None => false end.

Definition adminData : SignupForm.t :=
  SignupForm.mk "Admin User" "admin@example.com" "admin123" "admin123".

Definition initializeApp : M unit :=
  users ← UserManager.getUsers;
  if (length users =? 0)%nat then
    admin ← UserManager.addUser adminData;
    PasswordManager.savePassword (User.id admin) (SignupForm.password adminData)
  else mret tt.


(** ** The authentication provider: [login] *)

Section login.

(** [z.string().email()], the test of an email address that the schemas
    take from the zod library. *)
Variable isEmail : string -> bool.

Definition loginSchema (email password : string) : bool :=
  isEmail email && (6 <=? String.length password)%nat.

(** The steps of [login] on the store; a failed step throws, and the
    function returns [false].  (The component's own state, [user] and
    [loading], is left out.) *)
Definition login (email password : string) : M bool :=
  if loginSchema email password then
    foundUser ← UserManager.findByEmail email;
    match foundUser return M bool with
    | None => mret false
    | Some foundUser =>
        verified ← PasswordManager.verifyUserPassword (User.id foundUser) password;
        if (verified : bool) then
          token ← generateToken foundUser;
          _ ← authStorage.setToken token;
          mret true
        else mret false
    end
  else mret false.

End login.

(** ** The authentication provider: [signup], [logout] *)

Section signup.

Variable isEmail : string -> bool.

Definition signupSchema (data : SignupForm.t) : bool :=
  (2 <=? String.length (SignupForm.name data))%nat
  && isEmail (SignupForm.email data)
  && (6 <=? String.length (SignupForm.password data))%nat
  && String.eqb (SignupForm.password data) (SignupForm.confirmPassword data).

(** The steps of [signup] on the store; as in [login], a failed step throws
    and the function returns [false]. *)
Definition signup (data : SignupForm.t) : M bool :=
  if signupSchema data then
    existingUser ← UserManager.findByEmail (SignupForm.email data);
    match existingUser return M bool with
    | Some _ => mret false
    | None =>
        newUser ← UserManager.addUser data;
        _ ← PasswordManager.savePassword (User.id newUser) (SignupForm.password data);
        token ← generateToken newUser;
        _ ← authStorage.setToken token;
        mret true
    end
  else mret false.

End signup.

Definition logout : M unit := authStorage.removeToken.

(** ** lib/data.ts *)

Module DataManager.

Definition getRecords : M (list DataRecord.t) :=
  e ← get_env;
  match e with
  | Server => mret []
  | Browser ls => mret (default [] (saas_data_records ls))
  end.

(** The records go into the store as they are.  (The code writes
    [JSON.stringify(records)], and [getRecords] makes the dates again: a
    record comes back as it was, provided its value is a number JSON
    keeps.) *)
Definition saveRecords (records : list DataRecord.t) : M unit :=
  e ← get_env;
  match e with
  | Server => mret tt
  | Browser ls => set_env (Browser (set_saas_data_records records ls))
  end.

Definition addRecord (userId : string) (data : DataForm.t) : M DataRecord.t :=
  records ← getRecords;
  id ← Date_now;
  createdAt ← new_Date;
  updatedAt ← new_Date;
  let newRecord :=
    DataRecord.mk (JS.toString id) userId
      (DataForm.title data)
      (DataForm.description data)
      (DataForm.category data)
      (DataForm.value data)
      (DataForm.status data)
      createdAt
      updatedAt in
  _ ← saveRecords (records ++ [newRecord]);
  mret newRecord.

(** [{ ...record, ...updates, updatedAt }]. *)
Definition merge (updates : PartialDataForm.t) (updatedAt : JS.Date)
    (old : DataRecord.t) : DataRecord.t :=
  DataRecord.mk
    (DataRecord.id old)
    (DataRecord.userId old)
    (default (DataRecord.title old) (PartialDataForm.title updates))
    (default (DataRecord.description old) (PartialDataForm.description updates))
    (default (DataRecord.category old) (PartialDataForm.category updates))
    (default (DataRecord.value old) (PartialDataForm.value updates))
    (default (DataRecord.status old) (PartialDataForm.status updates))
    (DataRecord.createdAt old)
    updatedAt.

Definition updateRecord (id : string) (updates : PartialDataForm.t) : M bool :=
  records ← getRecords;
  match findIndex (fun r => String.eqb (DataRecord.id r) id) records with
  | None => mret false
  | Some index =>
      updatedAt ← new_Date;
      _ ← saveRecords (alter (merge updates updatedAt) index records);
      mret true
  end.

Definition deleteRecord (id : string) : M bool :=
  records ← getRecords;
  let filteredRecords :=
    List.filter (fun r => negb (String.eqb (DataRecord.id r) id)) records in
  if (length filteredRecords =? length records)%nat then mret false
  else
    _ ← saveRecords filteredRecords;
    mret true.

Definition getRecordsByUserId (userId : string) : M (list DataRecord.t) :=
  records ← getRecords;
  mret (List.filter (fun r => String.eqb (DataRecord.userId r) userId) records).

Definition getRecordById (id : string) : M (option DataRecord.t) :=
  records ← getRecords;
  mret (List.find (fun r => String.eqb (DataRecord.id r) id) records).

Definition getUserRecordCount (userId : string) : M nat :=
  records ← getRecordsByUserId userId;
  mret (length records).

End DataManager.

(** [Array.prototype.sort] with a comparison function.  The language fixes
    the result for a consistent comparison function: the sorted order, equal
    elements in their order in the array.  The embedding builds it by
    insertion from the right: an element goes before the first one it does
    not compare greater than. *)
Module Array.

Fixpoint insert {A : Type} (compareFn : A -> A -> Z) (x : A) (l : list A)
  : list A :=
  match l with
  | [] => [x]
  | y :: l' =>
      if compareFn x y <=? 0 then x :: y :: l' else y :: insert compareFn x l'
  end.

Definition sort {A : Type} (compareFn : A -> A -> Z) (l : list A) : list A :=
  fold_right (insert compareFn) [] l.

(** [sort()] without a comparison function, on strings: the order of the
    code units. *)
Definition defaultCompare (x y : string) : Z :=
  if JS.string_lt x y then -1 else if JS.string_lt y x then 1 else 0.

(** [[...new Set(l)]]: the set is filled value by value, a value that is
    already in it is not added again, and the spread gives the values in the
    order they were added. *)
Definition add (set : list string) (x : string) : list string :=
  if existsb (String.eqb x) set then set else set ++ [x].

Definition Set_of (l : list string) : list string := fold_left add l [].

End Array.

Module RecordStats.
Record t := mk {
  total : nat;
  active : nat;
  inactive : nat;
  totalValue : float;
  avgValue : float;
}.
End RecordStats.

Module DataUtils.

(** [a[key] < b[key]] for the two values of one field: strings by code
    units, numbers as floats, dates by their time values. *)
Definition less (key : RecordKey) (a b : DataRecord.t) : bool :=
  match key with
  | k_id => JS.string_lt (DataRecord.id a) (DataRecord.id b)
  | k_userId => JS.string_lt (DataRecord.userId a) (DataRecord.userId b)
  | k_title => JS.string_lt (DataRecord.title a) (DataRecord.title b)
  | k_description =>
      JS.string_lt (DataRecord.description a) (DataRecord.description b)
  | k_category => JS.string_lt (DataRecord.category a) (DataRecord.category b)
  | k_value => PrimFloat.ltb (DataRecord.value a) (DataRecord.value b)
  | k_status =>
      JS.string_lt (status_string (DataRecord.status a))
        (status_string (DataRecord.status b))
  | k_createdAt => DataRecord.createdAt a <? DataRecord.createdAt b
  | k_updatedAt => DataRecord.updatedAt a <? DataRecord.updatedAt b
  end.

Definition compareFn (config : SortConfig.t) (a b : DataRecord.t) : Z :=
  let comparison := 0 in
  let comparison :=
    if less (SortConfig.key config) a b then -1 else comparison in
  let comparison :=
    if less (SortConfig.key config) b a then 1 else comparison in
  match SortConfig.direction config with
  | desc => - comparison
  | asc => comparison
  end.


Definition searchableText (record : DataRecord.t) : string :=
  JS.toLowerCase
    (DataRecord.title record +:+ " " +:+ DataRecord.description record
     +:+ " " +:+ DataRecord.category record).

(** The callback of [filterRecords]. *)
Definition keeps (filter : FilterConfig.t) (record : DataRecord.t) : bool :=
  if match FilterConfig.category filter with
     | Some c => JS.truthy c && negb (String.eqb (DataRecord.category record) c)
     | None => false
     end
  then false
  else if match FilterConfig.status filter with
          | Some s => negb (RecordStatus_eqb (DataRecord.status record) s)
          | None => false
          end
  then false
  else if match FilterConfig.dateRange filter with
          | Some range =>
              let recordDate := DataRecord.createdAt record in
              (recordDate <? DateRange.start range)
              || (DateRange.end_ range <? recordDate)
          | None => false
          end
  then false
  else if match FilterConfig.search filter with
          | Some s =>
              JS.truthy s
              && negb (JS.includes (searchableText record) (JS.toLowerCase s))
          | None => false
          end
  then false
  else true.

Definition filterRecords (records : list DataRecord.t) (filter : FilterConfig.t)
  : list DataRecord.t :=
  List.filter (keeps filter) records.

Definition getUniqueCategories (records : list DataRecord.t) : list string :=
  let categories := map DataRecord.category records in
  Array.sort Array.defaultCompare (Array.Set_of categories).

Definition getRecordStats (records : list DataRecord.t) : RecordStats.t :=
  let total := length records in
  let active :=
    length (List.filter (fun r => RecordStatus_eqb (DataRecord.status r) active)
              records) in
  let inactive :=
    length (List.filter (fun r => RecordStatus_eqb (DataRecord.status r) inactive)
              records) in
  let totalValue :=
    fold_left (fun sum r => (sum + DataRecord.value r)%float) records 0%float in
  let avgValue :=
    if (0 <? total)%nat then (totalValue / JS.of_length total)%float
    else 0%float in
  RecordStats.mk total active inactive totalValue avgValue.

End DataUtils.

Definition sampleRecords : list DataForm.t :=
  [ DataForm.mk "Monthly Revenue Report" "Revenue analysis for Q4 2024"
      "Finance" 15000%float active;
    DataForm.mk "Customer Satisfaction Survey"
      "Survey results from customer feedback" "Marketing" 4.5%float active;
    DataForm.mk "Product Launch Campaign" "Campaign metrics and performance"
      "Marketing" 8750%float active;
    DataForm.mk "Staff Training Session" "Employee development program results"
      "HR" 2500%float inactive;
    DataForm.mk "Website Analytics" "Monthly website traffic and conversion"
      "Technology" 12300%float active ].

(** [array.forEach(f)] for an [f] with effects. *)
Fixpoint forEach {A : Type} (f : A -> M unit) (l : list A) : M unit :=
  match l with
  | [] => mret tt
  | x :: l' => _ ← f x; forEach f l'
  end.

Definition generateSampleData (userId : string) : M unit :=
  forEach (fun data => _ ← DataManager.addRecord userId data; mret tt)
    sampleRecords.

(** [validateImportData].  A row is of type [any]; the body of the [try]
    takes the cells from it and gives them to [dataSchema.parse], and either
    has the validated form or throws: that body is the parameter [parseRow],
    [None] when it throws. *)
Section validateImportData.

Variable Row : Type.
Variable parseRow : Row -> option DataForm.t.

(** The callback of [data.forEach], on the two arrays and the index. *)
Definition importRow (state : list DataForm.t * list string * nat) (row : Row)
  : list DataForm.t * list string * nat :=
  let '(valid, errors, index) := state in
  match parseRow row with
  | Some record => (valid ++ [record], errors, S index)
  | None =>
      (valid,
       errors ++ ["Row " +:+ JS.toString (Z.of_nat index + 1) +:+ ": Invalid data format"],
       S index)
  end.

Definition validateImportData (data : list Row) : list DataForm.t * list string :=
  (fold_left importRow data ([], [], O)).1.

End validateImportData.

(** ** The administrator's dashboard (app/dashboard/admin/page.tsx) *)

Module AdminStats.
Record t := mk {
  totalUsers : nat;
  totalRecords : nat;
  activeRecords : nat;
  inactiveRecords : nat;
}.
End AdminStats.

Module AdminDashboard.

(** What [loadData] sets of the component's state. *)
Record Loaded := mkLoaded {
  records : list DataRecord.t;
  users : list User.t;
  stats : AdminStats.t;
}.

Definition loadData : M Loaded :=
  allRecords ← DataManager.getRecords;
  allUsers ← UserManager.getUsers;
  let recordStats := DataUtils.getRecordStats allRecords in
  mret (mkLoaded allRecords allUsers
          (AdminStats.mk (length allUsers)
             (RecordStats.total recordStats)
             (RecordStats.active recordStats)
             (RecordStats.inactive recordStats))).

(** The two handlers; [confirmed] is the answer to [confirm(...)], and the
    result what [loadData] then sets, [None] when nothing is set. *)
Definition handleDeleteRecord (confirmed : bool) (recordId : string)
  : M (option Loaded) :=
  if confirmed then
    _ ← DataManager.deleteRecord recordId;
    loaded ← loadData;
    mret (Some loaded)
  else mret None.

Definition handleDeleteUser (confirmed : bool) (userId : string)
  : M (option Loaded) :=
  if confirmed then
    userRecords ← DataManager.getRecordsByUserId userId;
    _ ← forEach
          (fun record => _ ← DataManager.deleteRecord (DataRecord.id record); mret tt)
          userRecords;
    _ ← UserManager.deleteUser userId;
    loaded ← loadData;
    mret (Some loaded)
  else mret None.

(** ['all' | 'active' | 'inactive']. *)
Inductive StatusFilter :=
| all
| only (status : RecordStatus).

Definition filteredRecords (records : list DataRecord.t) (searchTerm : string)
    (statusFilter : StatusFilter) : list DataRecord.t :=
  List.filter
    (fun record =>
       let matchesSearch :=
         String.eqb searchTerm ""
         || JS.includes (JS.toLowerCase (DataRecord.title record))
              (JS.toLowerCase searchTerm)
         || JS.includes (JS.toLowerCase (DataRecord.description record))
              (JS.toLowerCase searchTerm)
         || JS.includes (JS.toLowerCase (DataRecord.category record))
              (JS.toLowerCase searchTerm) in
       let matchesStatus :=
         match statusFilter with
         | all => true
         | only status => RecordStatus_eqb (DataRecord.status record) status
         end in
       matchesSearch && matchesStatus)
    records.

End AdminDashboard.


(** * Properties *)

(** ** Reading the collections *)

(** The collections as the managers read them. *)
Definition users_of (w : World) : list User.t := (UserManager.getUsers w).1.
Definition records_of (w : World) : list DataRecord.t := (DataManager.getRecords w).1.
Definition passwords_of (w : World) : gmap string string :=
  (PasswordManager.getPasswords w).1.

(** What is stored under ['saas_passwords']. *)
Definition stored_passwords (e : Env) : option (gmap string string) :=
  match e with
  | Server => None
  | Browser ls => saas_passwords ls
  end.

(** ** Example data *)

(** Two forms, two records, two users, a clock that advances by one
    millisecond per reading and one that stays within one millisecond. *)
Definition formA : DataForm.t := DataForm.mk "A" "first" "Finance" 10%float active.
Definition formB : DataForm.t := DataForm.mk "B" "second" "Sales" 20%float inactive.
Definition recordA : DataRecord.t :=
  DataRecord.mk "1" "u1" "A" "first" "Finance" 10%float active 1 2.
Definition recordB : DataRecord.t :=
  DataRecord.mk "2" "u1" "B" "second" "Sales" 20%float inactive 3 4.
Definition alice : User.t := User.mk "7" "alice@example.com" "Alice" admin 5 6.
Definition bob : User.t := User.mk "8" "bob@example.com" "Bob" user 7 8.
Definition emptyStorage : LocalStorage := mkLocalStorage None None None None.
Definition exampleStorage : LocalStorage :=
  mkLocalStorage (Some [alice; bob]) None (Some [recordA; recordB]) None.
Definition advancing : nat -> Z := fun n => 1000 + Z.of_nat n.
Definition sameMillisecond : nat -> Z := fun _ => 1000.
Definition signupCarol : SignupForm.t :=
  SignupForm.mk "Carol" "carol@example.com" "secret1" "secret1".
Definition signupDave : SignupForm.t :=
  SignupForm.mk "Dave" "dave@example.com" "secret2" "secret2".

(** ** Sequences of operations *)

(** A sequence of signups, each through [addUser]; the users it made. *)
Fixpoint addUsers (inputs : list SignupForm.t) : M (list User.t) :=
  match inputs with
  | [] => mret []
  | userData :: rest =>
      newUser ← UserManager.addUser userData;
      others ← addUsers rest;
      mret (newUser :: others)
  end.







(** ** Statistics, by recursion on the list *)

(** How many records have the status [s]. *)
Fixpoint count_status (s : RecordStatus) (records : list DataRecord.t) : nat :=
  match records with
  | [] => 0
  | r :: rest =>
      ((if RecordStatus_eqb (DataRecord.status r) s then 1 else 0)
       + count_status s rest)%nat
  end.

(** The values added to [acc] one after the other, in the list's order. *)
Fixpoint sum_from (acc : float) (records : list DataRecord.t) : float :=
  match records with
  | [] => acc
  | r :: rest => sum_from (acc + DataRecord.value r)%float rest
  end.

(** ** What a filter asks of a record *)

(** Two strings that differ in case only. *)
Definition same_ignoring_case (a b : string) : Prop :=
  JS.toLowerCase a = JS.toLowerCase b.

(** [term] occurs in [text], case ignored: a part of [text] is [term] up
    to case. *)
Definition occurs_ignoring_case (term text : string) : Prop :=
  exists before found after,
    text = before +:+ found +:+ after /\ same_ignoring_case found term.



Definition recordABCD : DataRecord.t :=
  DataRecord.mk "3" "u1" "AB" "CD" "E" 1%float active 5 6.

(** ** Sorting *)






Definition before (a b : Z * Z * Z) : Prop :=
  a.1.1 < b.1.1
  \/ (a.1.1 = b.1.1
      /\ (a.1.2 < b.1.2 \/ (a.1.2 = b.1.2 /\ a.2 < b.2))).

(** What [<] and [===] are on the values of one field, NaN apart: [lt] is
    a strict order, being unordered by it is transitive through every value
    equal to itself, and two such values are [eq] when neither is below the
    other. *)
Definition strict_weak_on {A : Type} (lt eq : A -> A -> bool) : Prop :=
  (forall a, lt a a = false)
  /\ (forall a b c, lt a b = true -> lt b c = true -> lt a c = true)
  /\ (forall a b c, eq b b = true ->
                    lt a b = false -> lt b c = false -> lt a c = false)
  /\ (forall a b, eq a a = true -> eq b b = true ->
                  (eq a b = true <-> lt a b = false /\ lt b a = false)).

(** ** Base64 *)

(** The digits [btoa] writes for [s], as numbers, and the padding it puts
    after them. *)
Fixpoint sextets (s : string) : list N :=
  match s with
  | EmptyString => []
  | String a EmptyString =>
      let x := N_of_ascii a in
      [x / 4; (x mod 4) * 16]
  | String a (String b EmptyString) =>
      let x := N_of_ascii a in
      let y := N_of_ascii b in
      [x / 4; (x mod 4) * 16 + y / 16; (y mod 16) * 4]
  | String a (String b (String c rest)) =>
      let x := N_of_ascii a in
      let y := N_of_ascii b in
      let z := N_of_ascii c in
      x / 4 :: (x mod 4) * 16 + y / 16 :: (y mod 16) * 4 + z / 64 :: z mod 64
      :: sextets rest
  end%N.

Fixpoint padding (s : string) : list ascii :=
  match s with
  | EmptyString => []
  | String _ EmptyString => ["="; "="]%char
  | String _ (String _ EmptyString) => ["="%char]
  | String _ (String _ (String _ rest)) => padding rest
  end.

(** ** Records and the forms they were made from *)

(** The fields of a record that a form gives. *)
Definition form_of (r : DataRecord.t) : DataForm.t :=
  DataForm.mk (DataRecord.title r) (DataRecord.description r)
    (DataRecord.category r) (DataRecord.value r) (DataRecord.status r).

(** The record [addRecord] makes for [userId] from a form when the clock's
    readings are [tl n], [tl (n + 1)] and [tl (n + 2)]. *)
Definition record_at (tl : nat -> Z) (userId : string) (n : nat) (data : DataForm.t)
  : DataRecord.t :=
  DataRecord.mk (JS.toString (tl n)) userId
    (DataForm.title data) (DataForm.description data) (DataForm.category data)
    (DataForm.value data) (DataForm.status data)
    (tl (n + 1)%nat) (tl (n + 2)%nat).

(** ** The two record filters *)

(** The filter configuration that asks what the administrator's dashboard
    asks: the status, unless it is ['all'], and the search term. *)
Definition dashboard_filter (searchTerm : string)
    (statusFilter : AdminDashboard.StatusFilter) : FilterConfig.t :=
  FilterConfig.mk None
    match statusFilter with
    | AdminDashboard.all => None
    | AdminDashboard.only status => Some status
    end
    None (Some searchTerm).

(** ** Importing rows *)

(** The message [validateImportData] writes for the row at [index]
    (counted from 0): it names the row counted from 1. *)
Definition import_message (index : nat) : string :=
  "Row " +:+ JS.toString (Z.of_nat index + 1) +:+ ": Invalid data format".

(** ** What is stored under each key *)

Definition stored_users (e : Env) : option (list User.t) :=
  match e with
  | Server => None
  | Browser ls => saas_users ls
  end.

Definition stored_records (e : Env) : option (list DataRecord.t) :=
  match e with
  | Server => None
  | Browser ls => saas_data_records ls
  end.

Definition stored_token (e : Env) : option string :=
  match e with
  | Server => None
  | Browser ls => auth_token ls
  end.

(** ** Numbers in the store *)

(** A number that comes back from the store as it went in.  The records
    are stored as JSON text: a finite number is written with the digits
    that determine it and read back exactly, but the negative zero is
    written as [0], and NaN and the two infinities as [null]. *)
Definition JSON_keeps (v : float) : bool :=
  PrimFloat.is_finite v && negb (PrimFloat.is_zero v && PrimFloat.get_sign v).

(** ** Proofs *)

Ltac run_M :=
  unfold mbind, M_bind, mret, M_ret, get_env, set_env, new_Date, Date_now in *;
  cbn [fst snd env timeline ticks] in *.

(** ** Lists filtered by id *)

Section by_id.
Context {A : Type} (key : A -> string).

Lemma filter_absent (id : string) (l : list A) :
  (forall x, x ∈ l -> key x <> id) ->
  List.filter (fun x => negb (String.eqb (key x) id)) l = l.
Proof.
  induction l as [|a l IH]; intros Hall; [reflexivity|].
  cbn. destruct (String.eqb_spec (key a) id) as [E|E].
  - exfalso. apply (Hall a); [left|exact E].
  - cbn. f_equal. apply IH. intros x Hx. apply Hall. now right.
Qed.

Lemma filter_present (id : string) (l : list A) :
  (exists x, x ∈ l /\ key x = id) ->
  (length (List.filter (fun x => negb (String.eqb (key x) id)) l) < length l)%nat.
Proof.
  intros (x & Hx & E). induction Hx as [x l|x y l Hx IH].
  - cbn. rewrite E, String.eqb_refl. cbn.
    pose proof (filter_length_le (fun x => negb (String.eqb (key x) id)) l). lia.
  - specialize (IH E). cbn. destruct (negb _); cbn; lia.
Qed.

Lemma elem_of_filter_id (id : string) (l : list A) (x : A) :
  x ∈ List.filter (fun x => negb (String.eqb (key x) id)) l
  <-> x ∈ l /\ key x <> id.
Proof.
  rewrite !list_elem_of_In, filter_In.
  destruct (String.eqb_spec (key x) id); cbn; intuition congruence.
Qed.

Lemma filter_sublist (p : A -> bool) (l : list A) : sublist (List.filter p l) l.
Proof.
  induction l as [|a l IH]; cbn; [constructor|].
  destruct (p a); now constructor.
Qed.

Lemma filter_one (id : string) (l1 l2 : list A) (r : A) :
  key r = id ->
  (forall x, x ∈ l1 ++ l2 -> key x <> id) ->
  List.filter (fun x => negb (String.eqb (key x) id)) (l1 ++ r :: l2) = l1 ++ l2.
Proof.
  intros E Hall. rewrite List.filter_app. cbn.
  rewrite E, String.eqb_refl. cbn.
  rewrite <- List.filter_app. apply filter_absent, Hall.
Qed.

Lemma filter_id_twice (id : string) (l : list A) :
  let kept := List.filter (fun x => negb (String.eqb (key x) id)) l in
  List.filter (fun x => negb (String.eqb (key x) id)) kept = kept.
Proof.
  cbn. apply filter_absent. intros x Hx. now apply elem_of_filter_id in Hx.
Qed.

End by_id.

(** ** Deleting a user or a record *)

Lemma deleteRecord_run (id : string) (ls : LocalStorage) (tl : nat -> Z) (n : nat) :
  let records := default [] (saas_data_records ls) in
  let kept := List.filter (fun r => negb (String.eqb (DataRecord.id r) id)) records in
  DataManager.deleteRecord id (mkWorld (Browser ls) tl n)
  = if (length kept =? length records)%nat
    then (false, mkWorld (Browser ls) tl n)
    else (true, mkWorld (Browser (set_saas_data_records kept ls)) tl n).
Proof.
  cbn. unfold DataManager.deleteRecord, DataManager.getRecords. run_M.
  destruct (_ =? _)%nat; reflexivity.
Qed.

Lemma deleteUser_run (id : string) (ls : LocalStorage) (tl : nat -> Z) (n : nat) :
  let users := default [] (saas_users ls) in
  let kept := List.filter (fun u => negb (String.eqb (User.id u) id)) users in
  UserManager.deleteUser id (mkWorld (Browser ls) tl n)
  = if (length kept =? length users)%nat
    then (false, mkWorld (Browser ls) tl n)
    else (true, mkWorld (Browser (set_saas_users kept ls)) tl n).
Proof.
  cbn. unfold UserManager.deleteUser, UserManager.getUsers. run_M.
  destruct (_ =? _)%nat; reflexivity.
Qed.

(** C4 (as amended).  In the browser, [deleteRecord id] and [deleteUser id]
    return [false] and leave the store as it is when no entry has that id;
    otherwise they return [true] and store the collection without the
    entries of that id, the other entries in their order: every entry of
    that id goes, which is exactly one entry when the id occurs once.  A
    second delete of the same id returns [false]. *)
Theorem delete_by_id :
  forall (ls : LocalStorage) (tl : nat -> Z) (n : nat) (id : string),
    let w := mkWorld (Browser ls) tl n in
    let records := default [] (saas_data_records ls) in
    let users := default [] (saas_users ls) in
    let keptRecords :=
      List.filter (fun r => negb (String.eqb (DataRecord.id r) id)) records in
    let keptUsers :=
      List.filter (fun u => negb (String.eqb (User.id u) id)) users in
    let wr := mkWorld (Browser (set_saas_data_records keptRecords ls)) tl n in
    let wu := mkWorld (Browser (set_saas_users keptUsers ls)) tl n in
    ((forall r, r ∈ records -> DataRecord.id r <> id) ->
     DataManager.deleteRecord id w = (false, w))
    /\ ((exists r, r ∈ records /\ DataRecord.id r = id) ->
        DataManager.deleteRecord id w = (true, wr)
        /\ DataManager.deleteRecord id wr = (false, wr))
    /\ (forall l1 r l2,
          records = l1 ++ r :: l2 -> DataRecord.id r = id ->
          (forall x, x ∈ l1 ++ l2 -> DataRecord.id x <> id) ->
          keptRecords = l1 ++ l2)
    /\ ((forall u, u ∈ users -> User.id u <> id) ->
        UserManager.deleteUser id w = (false, w))
    /\ ((exists u, u ∈ users /\ User.id u = id) ->
        UserManager.deleteUser id w = (true, wu)
        /\ UserManager.deleteUser id wu = (false, wu))
    /\ (forall l1 u l2,
          users = l1 ++ u :: l2 -> User.id u = id ->
          (forall x, x ∈ l1 ++ l2 -> User.id x <> id) ->
          keptUsers = l1 ++ l2).
Proof.
  intros ls tl n id w records users keptRecords keptUsers wr wu.
  repeat split.
  - intros Habsent. unfold w. rewrite deleteRecord_run.
    fold records. rewrite (filter_absent DataRecord.id id records Habsent).
    now rewrite Nat.eqb_refl.
  - unfold w. rewrite deleteRecord_run. fold records keptRecords.
    pose proof (filter_present DataRecord.id id records H) as Hlt.
    fold keptRecords in Hlt.
    destruct (Nat.eqb_spec (length keptRecords) (length records)); [lia|reflexivity].
  - unfold wr. rewrite deleteRecord_run. cbn -[List.filter length Nat.eqb]. fold records. subst keptRecords.
    rewrite (filter_id_twice DataRecord.id id records).
    now rewrite Nat.eqb_refl.
  - intros l1 r l2 -> E Hall. now apply (filter_one DataRecord.id).
  - intros Habsent. unfold w. rewrite deleteUser_run.
    fold users. rewrite (filter_absent User.id id users Habsent).
    now rewrite Nat.eqb_refl.
  - unfold w. rewrite deleteUser_run. fold users keptUsers.
    pose proof (filter_present User.id id users H) as Hlt.
    fold keptUsers in Hlt.
    destruct (Nat.eqb_spec (length keptUsers) (length users)); [lia|reflexivity].
  - unfold wu. rewrite deleteUser_run. cbn -[List.filter length Nat.eqb]. fold users. subst keptUsers.
    rewrite (filter_id_twice User.id id users).
    now rewrite Nat.eqb_refl.
  - intros l1 u l2 -> E Hall. now apply (filter_one User.id).
Qed.

Lemma delete_by_id_witness :
  let w := mkWorld (Browser exampleStorage) advancing 0 in
  let wr := mkWorld (Browser (set_saas_data_records [recordA] exampleStorage)) advancing 0 in
  let wu := mkWorld (Browser (set_saas_users [bob] exampleStorage)) advancing 0 in
  (DataManager.deleteRecord "2" w = (true, wr)
   /\ DataManager.deleteRecord "2" wr = (false, wr))
  /\ UserManager.deleteUser "2" w = (false, w)
  /\ DataManager.deleteRecord "7" w = (false, w)
  /\ (UserManager.deleteUser "7" w = (true, wu)
      /\ UserManager.deleteUser "7" wu = (false, wu)).
Proof.
  cbv zeta.
  destruct (delete_by_id exampleStorage advancing 0 "2") as (_ & Hr & _ & Hu & _).
  destruct (delete_by_id exampleStorage advancing 0 "7") as (Hr' & _ & _ & _ & Hu' & _).
  split; [|split; [|split]].
  - apply Hr. exists recordB. split; [|reflexivity].
    apply list_elem_of_further, list_elem_of_here.
  - apply Hu. intros u Hin.
    apply elem_of_cons in Hin as [->|Hin]; [discriminate|].
    apply elem_of_cons in Hin as [->|Hin]; [discriminate|].
    now apply elem_of_nil in Hin.
  - apply Hr'. intros r Hin.
    apply elem_of_cons in Hin as [->|Hin]; [discriminate|].
    apply elem_of_cons in Hin as [->|Hin]; [discriminate|].
    now apply elem_of_nil in Hin.
  - apply Hu'. exists alice. split; [|reflexivity]. apply list_elem_of_here.
Defined.

(** C4, the claim as it was stated: two records added within one
    millisecond share their id, and one [deleteRecord] of that id removes
    both, not exactly one entry. *)
Lemma delete_removes_every_entry_of_the_id :
  let w0 := mkWorld (Browser emptyStorage) sameMillisecond 0 in
  let w1 := (DataManager.addRecord "u1" formA w0).2 in
  let w2 := (DataManager.addRecord "u1" formB w1).2 in
  map DataRecord.id (records_of w2) = ["1000"; "1000"]
  /\ (DataManager.deleteRecord "1000" w2).1 = true
  /\ length (records_of w2) = 2%nat
  /\ length (records_of (DataManager.deleteRecord "1000" w2).2) = 0%nat.
Proof. repeat split. Qed.

(** The sample data are five records added in one loop: when the loop runs
    within one millisecond they all get one id, and deleting it deletes the
    five. *)
Lemma generateSampleData_shares_one_id :
  let w0 := mkWorld (Browser emptyStorage) sameMillisecond 0 in
  let w := (generateSampleData "u1" w0).2 in
  map DataRecord.id (records_of w) = ["1000"; "1000"; "1000"; "1000"; "1000"]
  /\ (DataManager.deleteRecord "1000" w).1 = true
  /\ records_of (DataManager.deleteRecord "1000" w).2 = [].
Proof. cbv zeta. repeat split; vm_compute; reflexivity. Qed.

(** ** The password map when a user is deleted *)

Lemma deleteUser_env (id : string) (w : World) :
  stored_passwords (env (UserManager.deleteUser id w).2) = stored_passwords (env w).
Proof.
  destruct w as [[|ls] tl n]; [reflexivity|].
  rewrite deleteUser_run. destruct (_ =? _)%nat; reflexivity.
Qed.

Lemma passwords_of_stored (w : World) :
  passwords_of w = default ∅ (stored_passwords (env w)).
Proof. now destruct w as [[|ls] tl n]. Qed.

Lemma verifyUserPassword_passwords (userId password : string) (w : World) :
  (PasswordManager.verifyUserPassword userId password w).1
  = match passwords_of w !! userId with
    | Some storedHash => JS.truthy storedHash && verifyPassword password storedHash
    | None => false
    end.
Proof.
  destruct w as [[|ls] tl n]; cbn; [reflexivity|].
  unfold PasswordManager.verifyUserPassword, PasswordManager.getPasswords, passwords_of.
  run_M. cbn. destruct (_ !! userId) as [h|]; [|reflexivity].
  now destruct (JS.truthy h).
Qed.

(** C9.  [deleteUser] leaves what is stored under ['saas_passwords'] as it
    was, whatever the id and the world: the password map read afterwards is
    the one read before, the deleted user's entry is still there and still
    verifies; only [deletePassword] takes it out. *)
Theorem deleteUser_keeps_passwords :
  forall (id : string) (w : World),
    let w' := (UserManager.deleteUser id w).2 in
    stored_passwords (env w') = stored_passwords (env w)
    /\ passwords_of w' = passwords_of w
    /\ passwords_of w' !! id = passwords_of w !! id
    /\ (forall userId password,
          (PasswordManager.verifyUserPassword userId password w').1
          = (PasswordManager.verifyUserPassword userId password w).1)
    /\ passwords_of (PasswordManager.deletePassword id w').2 !! id = None.
Proof.
  intros id w w'.
  assert (Henv : stored_passwords (env w') = stored_passwords (env w))
    by apply deleteUser_env.
  assert (Hmap : passwords_of w' = passwords_of w)
    by (now rewrite !passwords_of_stored, Henv).
  repeat split; try assumption.
  - now rewrite Hmap.
  - intros userId password. now rewrite !verifyUserPassword_passwords, Hmap.
  - destruct w' as [[|ls] tl n]; [reflexivity|].
    unfold PasswordManager.deletePassword, PasswordManager.getPasswords, passwords_of.
    run_M. cbn. apply lookup_delete_eq.
Qed.

(** ** Updating a record *)

Lemma findIndex_Some {A : Type} (p : A -> bool) (l : list A) (i : nat) :
  findIndex p l = Some i ->
  exists x, l !! i = Some x /\ p x = true
            /\ forall j y, (j < i)%nat -> l !! j = Some y -> p y = false.
Proof.
  revert i. induction l as [|a l IH]; intros i; cbn; [discriminate|].
  destruct (p a) eqn:Ea.
  - intros [= <-]. exists a. repeat split; [assumption|]. intros j y Hj. lia.
  - destruct (findIndex p l) as [k|]; cbn; [|discriminate].
    intros [= <-]. destruct (IH k eq_refl) as (x & Hx & Hp & Hfirst).
    exists x. repeat split; [assumption..|].
    intros [|j] y Hj; cbn.
    + now intros [= <-].
    + apply Hfirst. lia.
Qed.

Lemma findIndex_present {A : Type} (p : A -> bool) (l : list A) :
  (exists x, x ∈ l /\ p x = true) -> is_Some (findIndex p l).
Proof.
  intros (x & Hx & Hp). induction Hx as [x l|x y l Hx IH]; cbn.
  - rewrite Hp. eauto.
  - destruct (p y); [eauto|]. destruct (IH Hp) as [k ->]. cbn. eauto.
Qed.

Lemma findIndex_absent {A : Type} (p : A -> bool) (l : list A) :
  (forall x, x ∈ l -> p x = false) -> findIndex p l = None.
Proof.
  induction l as [|a l IH]; intros Hall; cbn; [reflexivity|].
  rewrite (Hall a) by left. rewrite IH; [reflexivity|].
  intros x Hx. apply Hall. now right.
Qed.

Lemma updateRecord_run (id : string) (updates : PartialDataForm.t)
    (ls : LocalStorage) (tl : nat -> Z) (n : nat) :
  let records := default [] (saas_data_records ls) in
  DataManager.updateRecord id updates (mkWorld (Browser ls) tl n)
  = match findIndex (fun r => String.eqb (DataRecord.id r) id) records with
    | None => (false, mkWorld (Browser ls) tl n)
    | Some index =>
        (true,
         mkWorld
           (Browser
              (set_saas_data_records
                 (alter (DataManager.merge updates (tl n)) index records) ls))
           tl (S n))
    end.
Proof.
  cbn. unfold DataManager.updateRecord, DataManager.getRecords. run_M.
  destruct (findIndex _ _); reflexivity.
Qed.

(** C10.  In the browser, for an id some record of the collection has,
    [updateRecord id updates] returns [true] and rewrites one position of
    the stored list, the first one holding that id.  The record there keeps
    its [id], [userId] and [createdAt]; the list keeps its length and every
    other position its record, so the order is unchanged; the users, the
    passwords and the token are stored as before. *)
Theorem updateRecord_frame :
  forall (ls : LocalStorage) (tl : nat -> Z) (n : nat)
         (id : string) (updates : PartialDataForm.t),
    let w := mkWorld (Browser ls) tl n in
    let records := default [] (saas_data_records ls) in
    (exists r, r ∈ records /\ DataRecord.id r = id) ->
    exists (index : nat) (old new : DataRecord.t) (records' : list DataRecord.t),
      DataManager.updateRecord id updates w
      = (true, mkWorld (Browser (set_saas_data_records records' ls)) tl (S n))
      /\ records !! index = Some old
      /\ DataRecord.id old = id
      /\ (forall j r, (j < index)%nat -> records !! j = Some r -> DataRecord.id r <> id)
      /\ records' !! index = Some new
      /\ DataRecord.id new = DataRecord.id old
      /\ DataRecord.userId new = DataRecord.userId old
      /\ DataRecord.createdAt new = DataRecord.createdAt old
      /\ length records' = length records
      /\ (forall j, j <> index -> records' !! j = records !! j).
Proof.
  intros ls tl n id updates w records Hpresent.
  destruct (findIndex_present (fun r => String.eqb (DataRecord.id r) id) records)
    as [index Hindex].
  { destruct Hpresent as (r & Hr & E). exists r. split; [assumption|].
    now apply String.eqb_eq. }
  destruct (findIndex_Some _ _ _ Hindex) as (old & Hold & Hid & Hfirst).
  apply String.eqb_eq in Hid.
  exists index, old, (DataManager.merge updates (tl n) old),
    (alter (DataManager.merge updates (tl n)) index records).
  split; [|split; [|split; [|split; [|split]]]].
  - unfold w. rewrite updateRecord_run. fold records. now rewrite Hindex.
  - exact Hold.
  - exact Hid.
  - intros j r Hj Hr E. apply String.eqb_eq in E.
    rewrite (Hfirst j r Hj Hr) in E. discriminate.
  - rewrite list_lookup_alter, Hold. now case_decide.
  - repeat split.
    + apply length_alter.
    + intros j Hj. now apply list_lookup_alter_ne.
Qed.

Lemma updateRecord_frame_witness :
  let w := mkWorld (Browser exampleStorage) advancing 0 in
  exists (index : nat) (old new : DataRecord.t) (records' : list DataRecord.t),
    DataManager.updateRecord "2" (PartialDataForm.mk (Some "B2") None None None None) w
    = (true, mkWorld (Browser (set_saas_data_records records' exampleStorage))
               advancing 1)
    /\ [recordA; recordB] !! index = Some old
    /\ DataRecord.id old = "2"
    /\ (forall j r, (j < index)%nat -> [recordA; recordB] !! j = Some r ->
                    DataRecord.id r <> "2")
    /\ records' !! index = Some new
    /\ DataRecord.id new = DataRecord.id old
    /\ DataRecord.userId new = DataRecord.userId old
    /\ DataRecord.createdAt new = DataRecord.createdAt old
    /\ length records' = 2%nat
    /\ (forall j, j <> index -> records' !! j = [recordA; recordB] !! j).
Proof.
  apply (updateRecord_frame exampleStorage advancing 0 "2"
           (PartialDataForm.mk (Some "B2") None None None None)).
  exists recordB. split; [|reflexivity].
  apply list_elem_of_further, list_elem_of_here.
Defined.

(** ** Adding users *)

Lemma addUser_run (userData : SignupForm.t) (ls : LocalStorage)
    (tl : nat -> Z) (n : nat) :
  let users := default [] (saas_users ls) in
  let newUser :=
    User.mk (JS.toString (tl n)) (SignupForm.email userData)
      (SignupForm.name userData)
      (if (length users =? 0)%nat then admin else user)
      (tl (S n)) (tl (S (S n))) in
  UserManager.addUser userData (mkWorld (Browser ls) tl n)
  = (newUser,
     mkWorld (Browser (set_saas_users (users ++ [newUser]) ls)) tl (S (S (S n)))).
Proof. reflexivity. Qed.

Lemma find_app_skip {A : Type} (p : A -> bool) (l1 l2 : list A) :
  (forall x, x ∈ l1 -> p x = false) -> List.find p (l1 ++ l2) = List.find p l2.
Proof.
  induction l1 as [|a l1 IH]; intros Hall; cbn; [reflexivity|].
  rewrite (Hall a) by left. apply IH. intros x Hx. apply Hall. now right.
Qed.

Lemma find_only_match {A : Type} (p : A -> bool) (l : list A) (i : nat) (u : A) :
  l !! i = Some u -> p u = true ->
  (forall j y, l !! j = Some y -> p y = true -> j = i) ->
  List.find p l = Some u.
Proof.
  revert i. induction l as [|a l IH]; intros i Hu Hp Honly; [discriminate|].
  cbn. destruct (p a) eqn:Ea.
  - specialize (Honly O a eq_refl Ea). subst i. cbn in Hu. congruence.
  - destruct i as [|i]; cbn in Hu; [congruence|].
    apply (IH i Hu Hp). intros j y Hy Hpy.
    specialize (Honly (S j) y Hy Hpy). lia.
Qed.

Lemma findByEmail_users (email : string) (w : World) :
  (UserManager.findByEmail email w).1
  = List.find (fun u => String.eqb (User.email u) email) (users_of w).
Proof. now destruct w as [[|ls] tl n]. Qed.

(** The users a sequence of signups makes, and the world it leaves. *)
Lemma addUsers_run (tl : nat -> Z) (inputs : list SignupForm.t) :
  forall (ls : LocalStorage) (n : nat) (added : list User.t) (w' : World),
    addUsers inputs (mkWorld (Browser ls) tl n) = (added, w') ->
    let existing := default [] (saas_users ls) in
    length added = length inputs
    /\ users_of w' = existing ++ added
    /\ forall i userData newUser,
         inputs !! i = Some userData -> added !! i = Some newUser ->
         User.email newUser = SignupForm.email userData
         /\ User.name newUser = SignupForm.name userData
         /\ User.role newUser
            = if (length existing + i =? 0)%nat then admin else user.
Proof.
  induction inputs as [|d ds IH]; intros ls n added w' Hrun existing.
  - cbn in Hrun. injection Hrun as <- <-.
    split; [reflexivity|]. split; [cbn; now rewrite app_nil_r|]. intros i ? ? [=].
  - cbn [addUsers] in Hrun. unfold mbind, M_bind, mret, M_ret in Hrun.
    rewrite addUser_run in Hrun. fold existing in Hrun.
    set (u := User.mk _ _ _ _ _ _) in Hrun.
    destruct (addUsers ds _) as [us w2] eqn:Eds.
    injection Hrun as <- <-.
    destruct (IH _ _ _ _ Eds) as (Hlen & Husers & Hroles).
    cbn [set_saas_users saas_users from_option id] in Husers, Hroles.
    split; [cbn; lia|]. split.
    + rewrite Husers. now rewrite <- app_assoc.
    + intros [|i] userData newUser; cbn.
      * intros [= <-] [= <-]. repeat split.
        now rewrite Nat.add_0_r.
      * intros Hd Hu. destruct (Hroles i userData newUser Hd Hu) as (He & Hn & Hr).
        repeat split; [assumption..|].
        rewrite Hr, length_app. cbn.
        now replace (length existing + 1 + i)%nat with (length existing + S i)%nat by lia.
Qed.

(** C1.  In the browser, for signups whose emails differ from one another
    and from the stored users' emails, made one after the other through
    [addUser]: each signup makes one user, appended to the collection; the
    user has the signup's email and name; its role is [admin] when the
    collection was empty at that moment (no stored user and no earlier
    signup) and [user] otherwise; and [findByEmail] with that email, after
    the signups, returns that user.  Nothing is asked of the inputs' shape. *)
Theorem addUser_first_is_admin :
  forall (inputs : list SignupForm.t) (ls : LocalStorage) (tl : nat -> Z) (n : nat),
    let w := mkWorld (Browser ls) tl n in
    let existing := default [] (saas_users ls) in
    NoDup (SignupForm.email <$> inputs) ->
    (forall userData u, userData ∈ inputs -> u ∈ existing ->
                        User.email u <> SignupForm.email userData) ->
    let added := (addUsers inputs w).1 in
    let w' := (addUsers inputs w).2 in
    length added = length inputs
    /\ users_of w' = existing ++ added
    /\ forall i userData newUser,
         inputs !! i = Some userData -> added !! i = Some newUser ->
         User.email newUser = SignupForm.email userData
         /\ User.name newUser = SignupForm.name userData
         /\ User.role newUser
            = (if (length existing + i =? 0)%nat then admin else user)
         /\ (UserManager.findByEmail (SignupForm.email userData) w').1
            = Some newUser.
Proof.
  intros inputs ls tl n w existing Hdistinct Hfresh added w'.
  destruct (addUsers_run tl inputs ls n added w') as (Hlen & Husers & Hroles).
  { unfold added, w', w. apply surjective_pairing. }
  fold existing in Husers, Hroles.
  split; [assumption|]. split; [assumption|].
  intros i userData newUser Hd Hu.
  destruct (Hroles i userData newUser Hd Hu) as (He & Hn & Hr).
  repeat split; [assumption..|].
  rewrite findByEmail_users, Husers, find_app_skip.
  - apply (find_only_match _ _ i); [assumption|now apply String.eqb_eq|].
    intros j y Hy Hmatch. apply String.eqb_eq in Hmatch.
    assert (Hj : is_Some (inputs !! j)).
    { apply lookup_lt_is_Some. rewrite <- Hlen. now apply lookup_lt_Some in Hy. }
    destruct Hj as [dj Hdj].
    destruct (Hroles j dj y Hdj Hy) as (Hej & _).
    apply (NoDup_lookup _ j i (SignupForm.email userData) Hdistinct).
    + rewrite list_lookup_fmap, Hdj. cbn. congruence.
    + now rewrite list_lookup_fmap, Hd.
  - intros x Hx. apply String.eqb_neq. apply Hfresh; [|assumption].
    now apply list_elem_of_lookup_2 in Hd.
Qed.

Lemma addUser_first_is_admin_witness :
  let w := mkWorld (Browser emptyStorage) advancing 0 in
  let added := (addUsers [signupCarol; signupDave] w).1 in
  let w' := (addUsers [signupCarol; signupDave] w).2 in
  length added = 2%nat
  /\ users_of w' = [] ++ added
  /\ forall i userData newUser,
       [signupCarol; signupDave] !! i = Some userData ->
       added !! i = Some newUser ->
       User.email newUser = SignupForm.email userData
       /\ User.name newUser = SignupForm.name userData
       /\ User.role newUser = (if (0 + i =? 0)%nat then admin else user)
       /\ (UserManager.findByEmail (SignupForm.email userData) w').1
          = Some newUser.
Proof.
  apply (addUser_first_is_admin [signupCarol; signupDave] emptyStorage advancing 0).
  - apply NoDup_cons. split.
    + intros Hin. apply list_elem_of_singleton in Hin. discriminate.
    + apply NoDup_singleton.
  - intros userData u _ Hu. now apply elem_of_nil in Hu.
Defined.

(** ** Ids are written in digits *)

Lemma pretty_first (x : N) :
  forall s, (0 < x)%N ->
            exists d t, (0 < d < 10)%N /\ pretty_N_go x s = String (pretty_N_char d) t.
Proof.
  induction (N.lt_wf_0 x) as [x _ IH]. intros s Hx.
  rewrite pretty_N_go_step by assumption.
  destruct (N.eq_dec (x `div` 10)%N 0%N) as [E|E].
  - rewrite E, pretty_N_go_0. exists (x `mod` 10)%N, s. split; [|reflexivity].
    pose proof (N.div_mod x 10%N ltac:(lia)). pose proof (N.mod_lt x 10%N ltac:(lia)). lia.
  - apply IH; [apply N.div_lt; lia|]. apply N.neq_0_lt_0. exact E.
Qed.

(** The first character of a number: a digit or the minus sign. *)
Lemma pretty_Z_first (z : Z) :
  exists c t, pretty z = String c t
              /\ (c = "-"%char \/ exists d, (d < 10)%N /\ c = pretty_N_char d).
Proof.
  destruct z as [|p|p].
  - exists "0"%char, "". split; [reflexivity|]. right. now exists 0%N.
  - destruct (pretty_first (N.pos p) "" ltac:(lia)) as (d & t & Hd & E).
    exists (pretty_N_char d), t. split; [exact E|]. right. exists d. split; [lia|reflexivity].
  - exists "-"%char, (pretty_N_go (N.pos p) ""). split; [reflexivity|now left].
Qed.

(** The id of a user or a record is the clock's reading written with
    [toString]: it begins with a digit or a minus sign, and is not the key
    ['__proto__']. *)
Lemma toString_not_proto (z : Z) : JS.toString z <> "__proto__".
Proof.
  unfold JS.toString.
  destruct (pretty_Z_first z) as (c & t & -> & [->|(d & Hd & ->)]); intros [= Hc _].
  revert Hc. unfold pretty_N_char.
  repeat case_match; discriminate.
Qed.

(** ** The default administrator *)

Lemma assign_insert (userId hash : string) (passwords : gmap string string) :
  userId <> "__proto__" ->
  PasswordManager.assign userId hash passwords = <[userId := hash]> passwords.
Proof.
  intros Hkey. unfold PasswordManager.assign.
  now rewrite (proj2 (String.eqb_neq userId "__proto__") Hkey).
Qed.

Lemma savePassword_run (userId password : string) (ls : LocalStorage)
    (tl : nat -> Z) (n : nat) :
  userId <> "__proto__" ->
  PasswordManager.savePassword userId password (mkWorld (Browser ls) tl n)
  = (tt,
     mkWorld
       (Browser
          (set_saas_passwords
             (<[userId := hashPassword password]> (default ∅ (saas_passwords ls)))
             ls))
       tl n).
Proof.
  intros Hkey. rewrite <- (assign_insert _ _ _ Hkey). reflexivity.
Qed.

Lemma initializeApp_run (ls : LocalStorage) (tl : nat -> Z) (n : nat) :
  let users := default [] (saas_users ls) in
  let newUser :=
    User.mk (JS.toString (tl n)) "admin@example.com" "Admin User" admin
      (tl (S n)) (tl (S (S n))) in
  initializeApp (mkWorld (Browser ls) tl n)
  = match users with
    | [] =>
        (tt,
         mkWorld
           (Browser
              (set_saas_passwords
                 (<[User.id newUser := hashPassword "admin123"]>
                    (default ∅ (saas_passwords ls)))
                 (set_saas_users [newUser] ls)))
           tl (S (S (S n))))
    | _ :: _ => (tt, mkWorld (Browser ls) tl n)
    end.
Proof.
  cbn zeta. unfold initializeApp.
  unfold mbind at 1, M_bind. unfold UserManager.getUsers at 1. run_M.
  destruct (default [] (saas_users ls)) as [|u us] eqn:E; [|reflexivity].
  cbn [length Nat.eqb]. rewrite addUser_run, E. cbn [User.id].
  rewrite savePassword_run by apply toString_not_proto. reflexivity.
Qed.

(** C5.  In the browser, with no user stored (the key absent or holding
    the empty list), [initializeApp] leaves exactly one user, with email
    ['admin@example.com'] and role [admin]; [findByEmail] finds that user,
    [verifyUserPassword] accepts ['admin123'] for the user's id, and so
    [login] with that email and password returns [true], for any email test
    that accepts the address.  With a user stored, [initializeApp] returns
    the world as it found it. *)
Theorem initializeApp_seeds_admin :
  forall (ls : LocalStorage) (tl : nat -> Z) (n : nat),
    let w := mkWorld (Browser ls) tl n in
    let w' := (initializeApp w).2 in
    (default [] (saas_users ls) = [] ->
     exists u,
       users_of w' = [u]
       /\ User.email u = "admin@example.com"
       /\ User.role u = admin
       /\ (UserManager.findByEmail "admin@example.com" w').1 = Some u
       /\ (PasswordManager.verifyUserPassword (User.id u) "admin123" w').1 = true
       /\ (forall isEmail,
             isEmail "admin@example.com" = true ->
             (login isEmail "admin@example.com" "admin123" w').1 = true))
    /\ (default [] (saas_users ls) <> [] -> initializeApp w = (tt, w)).
Proof.
  intros ls tl n w w'. unfold w', w. rewrite initializeApp_run. split.
  - intros ->. cbn [snd].
    set (u := User.mk (JS.toString (tl n)) "admin@example.com" "Admin User" admin
                (tl (S n)) (tl (S (S n)))).
    set (w1 := mkWorld _ _ _).
    assert (Hverify :
              (PasswordManager.verifyUserPassword (User.id u) "admin123" w1).1 = true).
    { rewrite verifyUserPassword_passwords.
      unfold passwords_of, PasswordManager.getPasswords, w1. run_M.
      cbn [set_saas_passwords saas_passwords from_option User.id u].
      unfold Datatypes.id. now rewrite lookup_insert_eq. }
    exists u. split; [reflexivity|]. split; [reflexivity|]. split; [reflexivity|].
    split; [reflexivity|]. split; [exact Hverify|].
    intros isEmail Hemail. unfold login, loginSchema. rewrite Hemail.
    cbn [String.length Nat.leb andb]. unfold mbind at 1, M_bind.
    change (UserManager.findByEmail "admin@example.com" w1) with (Some u, w1).
    cbv iota. unfold mbind at 1, M_bind.
    destruct (PasswordManager.verifyUserPassword (User.id u) "admin123" w1)
      as [verified w2] eqn:E.
    cbn [fst] in Hverify. subst verified.
    unfold mbind, M_bind, mret, M_ret.
    destruct (generateToken u w2) as [token w3].
    now destruct (authStorage.setToken token w3).
  - destruct (default [] (saas_users ls)); [congruence|reflexivity].
Qed.

Lemma initializeApp_seeds_admin_witness :
  let w := mkWorld (Browser emptyStorage) advancing 0 in
  let w' := (initializeApp w).2 in
  (exists u,
     users_of w' = [u]
     /\ User.email u = "admin@example.com"
     /\ User.role u = admin
     /\ (UserManager.findByEmail "admin@example.com" w').1 = Some u
     /\ (PasswordManager.verifyUserPassword (User.id u) "admin123" w').1 = true
     /\ (forall isEmail,
           isEmail "admin@example.com" = true ->
           (login isEmail "admin@example.com" "admin123" w').1 = true))
  /\ initializeApp (mkWorld (Browser exampleStorage) advancing 0)
     = (tt, mkWorld (Browser exampleStorage) advancing 0).
Proof.
  split.
  - apply (initializeApp_seeds_admin emptyStorage advancing 0). reflexivity.
  - apply (initializeApp_seeds_admin exampleStorage advancing 0). discriminate.
Defined.

(** ** Time stamps of records *)


Lemma addRecord_run (userId : string) (data : DataForm.t) (ls : LocalStorage)
    (tl : nat -> Z) (n : nat) :
  let records := default [] (saas_data_records ls) in
  let newRecord :=
    DataRecord.mk (JS.toString (tl n)) userId
      (DataForm.title data) (DataForm.description data) (DataForm.category data)
      (DataForm.value data) (DataForm.status data)
      (tl (S n)) (tl (S (S n))) in
  DataManager.addRecord userId data (mkWorld (Browser ls) tl n)
  = (newRecord,
     mkWorld (Browser (set_saas_data_records (records ++ [newRecord]) ls))
       tl (S (S (S n)))).
Proof. reflexivity. Qed.




Lemma records_of_browser (ls : LocalStorage) (tl : nat -> Z) (n : nat) :
  records_of (mkWorld (Browser ls) tl n) = default [] (saas_data_records ls).
Proof. reflexivity. Qed.





(** ** Statistics *)

Lemma length_filter_status (s : RecordStatus) (records : list DataRecord.t) :
  length (List.filter (fun r => RecordStatus_eqb (DataRecord.status r) s) records)
  = count_status s records.
Proof.
  induction records as [|r rest IH]; [reflexivity|].
  cbn. destruct (RecordStatus_eqb _ _); cbn; now rewrite IH.
Qed.

Lemma fold_left_sum (records : list DataRecord.t) (acc : float) :
  fold_left (fun sum r => (sum + DataRecord.value r)%float) records acc
  = sum_from acc records.
Proof.
  revert acc. induction records as [|r rest IH]; intros acc; [reflexivity|].
  cbn. apply IH.
Qed.

Lemma count_status_total (records : list DataRecord.t) :
  (count_status active records + count_status inactive records)%nat
  = length records.
Proof.
  induction records as [|r rest IH]; [reflexivity|].
  cbn. destruct (DataRecord.status r); cbn; lia.
Qed.

Lemma getRecordsByUserId_records (userId : string) (w : World) :
  (DataManager.getRecordsByUserId userId w).1
  = List.filter (fun r => String.eqb (DataRecord.userId r) userId) (records_of w).
Proof. now destruct w as [[|ls] tl n]. Qed.

(** C8.  [getRecordStats] returns, for every list: [total] its length;
    [active] and [inactive] the numbers of records of each status (they add
    up to [total]); [totalValue] the values added in the list's order,
    starting from 0; [avgValue] that sum divided by [total], and 0 for the
    empty list.  In the browser, on a collection with no records yet, adding
    A (value 10, active) and B (value 20, inactive) for one user and taking
    that user's records gives total 2, active 1, inactive 1, totalValue 30,
    avgValue 15. *)
Theorem getRecordStats_aggregates :
  forall (records : list DataRecord.t),
    let stats := DataUtils.getRecordStats records in
    RecordStats.total stats = length records
    /\ RecordStats.active stats = count_status active records
    /\ RecordStats.inactive stats = count_status inactive records
    /\ (RecordStats.active stats + RecordStats.inactive stats)%nat
       = RecordStats.total stats
    /\ RecordStats.totalValue stats = sum_from 0%float records
    /\ RecordStats.avgValue stats
       = (match records with
          | [] => 0
          | _ :: _ => RecordStats.totalValue stats / JS.of_length (length records)
          end)%float
    /\ (forall (ls : LocalStorage) (tl : nat -> Z) (n : nat)
               (userId descriptionA categoryA descriptionB categoryB : string),
          default [] (saas_data_records ls) = [] ->
          let w := mkWorld (Browser ls) tl n in
          let a := DataForm.mk "A" descriptionA categoryA 10%float active in
          let b := DataForm.mk "B" descriptionB categoryB 20%float inactive in
          let w1 := (DataManager.addRecord userId a w).2 in
          let w2 := (DataManager.addRecord userId b w1).2 in
          DataUtils.getRecordStats (DataManager.getRecordsByUserId userId w2).1
          = RecordStats.mk 2 1 1 30%float 15%float).
Proof.
  intros records stats. unfold stats, DataUtils.getRecordStats.
  cbn [RecordStats.total RecordStats.active RecordStats.inactive
         RecordStats.totalValue RecordStats.avgValue].
  rewrite !length_filter_status, fold_left_sum.
  split; [reflexivity|]. split; [reflexivity|]. split; [reflexivity|].
  split; [apply count_status_total|]. split; [reflexivity|]. split.
  - now destruct records.
  - intros ls tl n userId dA cA dB cB Hempty.
    rewrite getRecordsByUserId_records.
    rewrite addRecord_run. cbn [snd]. rewrite addRecord_run. cbn [snd].
    rewrite records_of_browser.
    cbn [set_saas_data_records saas_data_records from_option].
    rewrite Hempty. cbn -[JS.toString]. rewrite !String.eqb_refl. reflexivity.
Qed.

Lemma getRecordStats_aggregates_witness :
  let w := mkWorld (Browser emptyStorage) advancing 0 in
  let a := DataForm.mk "A" "first" "Finance" 10%float active in
  let b := DataForm.mk "B" "second" "Sales" 20%float inactive in
  let w1 := (DataManager.addRecord "u1" a w).2 in
  let w2 := (DataManager.addRecord "u1" b w1).2 in
  DataUtils.getRecordStats (DataManager.getRecordsByUserId "u1" w2).1
  = RecordStats.mk 2 1 1 30%float 15%float.
Proof.
  destruct (getRecordStats_aggregates []) as (_ & _ & _ & _ & _ & _ & Hscenario).
  apply (Hscenario emptyStorage advancing 0%nat "u1" "first" "Finance" "second" "Sales").
  reflexivity.
Defined.

(** ** Strings: prefixes, occurrences, lower case *)

Lemma startsWith_iff (s t : string) :
  JS.startsWith s t = true <-> exists after, s = t +:+ after.
Proof.
  revert s. induction t as [|b t IH]; intros s; cbn -[Ascii.eqb].
  - split; [intros _; now exists s|now destruct s].
  - destruct s as [|a s].
    + split; [discriminate|]. intros [after [=]].
    + cbn -[Ascii.eqb]. rewrite andb_true_iff, IH. split.
      * intros [Hab [after ->]]. apply Ascii.eqb_eq in Hab as ->. now exists after.
      * intros [after [= -> ->]]. split; [apply Ascii.eqb_refl|now exists after].
Qed.

Lemma includes_iff (s t : string) :
  JS.includes s t = true <-> exists before after, s = before +:+ t +:+ after.
Proof.
  induction s as [|a s IH]; cbn -[JS.startsWith].
  - rewrite orb_false_r, startsWith_iff. split.
    + intros [after E]. now exists "", after.
    + intros ([|x before] & after & E); [now exists after|discriminate].
  - rewrite orb_true_iff, startsWith_iff, IH. split.
    + intros [[after E]|(before & after & ->)].
      * now exists "", after.
      * now exists (String a before), after.
    + intros ([|x before] & after & E).
      * left. now exists after.
      * right. injection E as -> ->. now exists before, after.
Qed.

Lemma toLowerCase_append (a b : string) :
  JS.toLowerCase (a +:+ b) = JS.toLowerCase a +:+ JS.toLowerCase b.
Proof. induction a as [|x a IH]; simpl; [reflexivity|]. now rewrite IH. Qed.

Lemma toLowerCase_split (s a b : string) :
  JS.toLowerCase s = a +:+ b ->
  exists a' b', s = a' +:+ b' /\ JS.toLowerCase a' = a /\ JS.toLowerCase b' = b.
Proof.
  revert s. induction a as [|x a IH]; intros s E.
  - now exists "", s.
  - destruct s as [|y s]; [discriminate|]. cbn in E. injection E as Hx Hs.
    destruct (IH s Hs) as (a' & b' & -> & Ha & Hb).
    exists (String y a'), b'. cbn. now rewrite Hx, Ha.
Qed.

(** On the strings of the embedding, whose code units are at most 0xFF,
    [toLowerCase] maps each code unit by itself, and the comparison of the
    lower-cased texts is an occurrence of the term with the case ignored.
    (Beyond that range it is not: [toLowerCase] looks at the neighbours of a
    capital sigma and may change the length of a text.) *)
Lemma includes_ignoring_case (text term : string) :
  JS.includes (JS.toLowerCase text) (JS.toLowerCase term) = true
  <-> occurs_ignoring_case term text.
Proof.
  rewrite includes_iff. unfold occurs_ignoring_case, same_ignoring_case. split.
  - intros (before & after & E).
    apply toLowerCase_split in E as (before' & rest & -> & Hb & E).
    apply toLowerCase_split in E as (found & after' & -> & Hf & Ha).
    now exists before', found, after'.
  - intros (before & found & after & -> & E).
    exists (JS.toLowerCase before), (JS.toLowerCase after).
    now rewrite !toLowerCase_append, E.
Qed.

Lemma truthy_iff (s : string) : JS.truthy s = true <-> s <> "".
Proof. destruct s; cbn; split; congruence. Qed.


(** ** Filtering *)





(** ** The order of floats *)






(** ** The order of strings, dates and statuses *)

Lemma string_lt_irrefl (s : string) : JS.string_lt s s = false.
Proof.
  induction s as [|a s IH]; cbn; [reflexivity|].
  now rewrite N.ltb_irrefl.
Qed.

Lemma string_lt_trans (a b c : string) :
  JS.string_lt a b = true -> JS.string_lt b c = true -> JS.string_lt a c = true.
Proof.
  revert b c. induction a as [|x a IH]; intros [|y b] [|z c]; cbn;
    try discriminate; try reflexivity.
  destruct (N.ltb_spec (N_of_ascii x) (N_of_ascii y)),
    (N.ltb_spec (N_of_ascii y) (N_of_ascii x)),
    (N.ltb_spec (N_of_ascii y) (N_of_ascii z)),
    (N.ltb_spec (N_of_ascii z) (N_of_ascii y)),
    (N.ltb_spec (N_of_ascii x) (N_of_ascii z)),
    (N.ltb_spec (N_of_ascii z) (N_of_ascii x));
    try discriminate; try reflexivity; try lia.
  apply IH.
Qed.

Lemma string_lt_trichotomy (a b : string) :
  JS.string_lt a b = false -> JS.string_lt b a = false -> a = b.
Proof.
  revert b. induction a as [|x a IH]; intros [|y b]; cbn;
    try discriminate; try reflexivity.
  destruct (N.ltb_spec (N_of_ascii x) (N_of_ascii y)),
    (N.ltb_spec (N_of_ascii y) (N_of_ascii x));
    try discriminate; try lia.
  intros Hab Hba. f_equal; [|now apply IH].
  rewrite <- (ascii_N_embedding x), <- (ascii_N_embedding y). f_equal. lia.
Qed.

(** A strict order that is total up to equality is a strict weak order
    with equality as [===]. *)
Lemma strict_total_order {A : Type} (lt eq : A -> A -> bool) :
  (forall a b, eq a b = true <-> a = b) ->
  (forall a, lt a a = false) ->
  (forall a b c, lt a b = true -> lt b c = true -> lt a c = true) ->
  (forall a b, lt a b = false -> lt b a = false -> a = b) ->
  strict_weak_on lt eq.
Proof.
  intros Heq Hirrefl Htrans Htri. split; [|split; [|split]].
  - exact Hirrefl.
  - exact Htrans.
  - intros a b c _ Hab Hbc. destruct (lt a c) eqn:Hac; [|reflexivity].
    destruct (lt b a) eqn:Hba.
    + now rewrite (Htrans b a c Hba Hac) in Hbc.
    + rewrite (Htri a b Hab Hba) in Hac. congruence.
  - intros a b _ _. split.
    + intros ->%Heq. now rewrite Hirrefl.
    + intros [Hab Hba]. apply Heq. now apply Htri.
Qed.

Lemma string_order : strict_weak_on JS.string_lt String.eqb.
Proof.
  apply strict_total_order.
  - apply String.eqb_eq.
  - apply string_lt_irrefl.
  - apply string_lt_trans.
  - apply string_lt_trichotomy.
Qed.






(** ** Sorting with a consistent comparison function *)

Section sorting.
Context {A : Type} (lt eq : A -> A -> bool) (cmp : A -> A -> Z).
Hypothesis order : strict_weak_on lt eq.
Hypothesis cmp_le : forall x y, cmp x y <= 0 <-> lt y x = false.

(** [x] is not above [y]. *)
Let le (x y : A) : Prop := lt y x = false.
Let P (x : A) : Prop := eq x x = true.

Lemma lt_asym (x y : A) : lt x y = true -> lt y x = false.
Proof.
  destruct order as (Hirrefl & Htrans & _).
  intros Hxy. destruct (lt y x) eqn:Hyx; [|reflexivity].
  now rewrite <- (Hirrefl x), (Htrans x y x Hxy Hyx).
Qed.

Lemma le_total (x y : A) : ~ le x y -> le y x.
Proof. unfold le. intros H. apply lt_asym. now destruct (lt y x). Qed.

Lemma le_trans (x y z : A) : P y -> le x y -> le y z -> le x z.
Proof.
  destruct order as (_ & _ & Hneg & _). unfold le, P.
  intros Hy Hxy Hyz. now apply (Hneg z y x).
Qed.


Lemma insert_perm (x : A) (l : list A) :
  Permutation (x :: l) (Array.insert cmp x l).
Proof.
  induction l as [|y l IH]; cbn; [reflexivity|].
  destruct (cmp x y <=? 0); [reflexivity|].
  rewrite perm_swap. now apply perm_skip.
Qed.

Lemma sort_cons (x : A) (l : list A) :
  Array.sort cmp (x :: l) = Array.insert cmp x (Array.sort cmp l).
Proof. reflexivity. Qed.

Lemma sort_perm (l : list A) : Permutation l (Array.sort cmp l).
Proof.
  induction l as [|x l IH]; [reflexivity|].
  rewrite sort_cons, <- insert_perm. now apply perm_skip.
Qed.

Lemma insert_sorted (x : A) (l : list A) :
  Forall P l -> StronglySorted le l -> StronglySorted le (Array.insert cmp x l).
Proof.
  induction l as [|y l IH]; intros HP Hsorted; cbn.
  - repeat constructor.
  - apply Forall_cons in HP as [Hy HP].
    apply StronglySorted_inv in Hsorted as [Hsorted Hbelow].
    destruct (Z.leb_spec (cmp x y) 0) as [Hxy|Hxy].
    + apply cmp_le in Hxy. constructor; [now constructor|].
      constructor; [exact Hxy|].
      eapply Forall_impl; [exact Hbelow|].
      intros z Hyz. now apply (le_trans x y z).
    + constructor; [now apply IH|].
      rewrite <- insert_perm. constructor; [|exact Hbelow].
      apply le_total. unfold le. rewrite <- cmp_le. lia.
Qed.

Lemma sort_sorted (l : list A) :
  Forall P l -> StronglySorted le (Array.sort cmp l).
Proof.
  induction l as [|x l IH]; intros HP; [constructor|].
  apply Forall_cons in HP as [Hx HP]. rewrite sort_cons.
  apply insert_sorted; [|now apply IH].
  now rewrite <- sort_perm.
Qed.




End sorting.





(** ** Sorting records *)














(** ** Tokens *)

(** A token that is not base64, or whose text is not JSON, or is the JSON
    [null], gives no session: the exception is caught. *)
Lemma validateToken_malformed (token : string) (w : World) :
  Base64.atob token = None
  \/ (exists text, Base64.atob token = Some text
                   /\ (JSON.parse text = JSON.SyntaxError
                       \/ JSON.parse text = JSON.Value JSON.JNull)) ->
  validateToken token w = (NoSession, w).
Proof.
  unfold validateToken. intros [->|(text & -> & [->| ->])]; reflexivity.
Qed.

(** A token that decodes to a payload with an expiry is accepted until the
    clock passes [exp]: at [exp] itself it still is.  The name of the
    session is the payload's, or the empty string when the payload has
    none. *)
Lemma validateToken_payload (token text : string)
    (members : list (string * JSON.json)) (exp : Z) (payload : Payload) (w : World) :
  Base64.atob token = Some text ->
  JSON.parse text = JSON.Value (JSON.JObject members) ->
  JSON.member "exp" members = Some (JSON.JNumber exp) ->
  as_payload members = Some payload ->
  let now := timeline w (ticks w) in
  (validateToken token w).1
  = if exp <? now then NoSession
    else Session
           (AuthUser.mk (payload_id payload) (payload_email payload)
              (payload_name payload) (payload_role payload) token).
Proof.
  intros Hatob Hparse Hexp Hpayload. unfold validateToken, session_of.
  rewrite Hatob, Hparse. run_M. rewrite Hexp, Hpayload.
  now destruct (exp <? timeline w (ticks w)).
Qed.

(** C2 at a failing input.  The token issued for Alice at time 1000 is
    validated at time 1001, long before it expires: the session has her id,
    email and role, and the empty string for her name.  [generateToken]
    writes no [name] into the payload, and [validateToken] reads
    [payload.name] back. *)
Theorem validateToken_forgets_name :
  let w0 := mkWorld (Browser emptyStorage) advancing 0 in
  let token := (generateToken alice w0).1 in
  let w1 := (generateToken alice w0).2 in
  token
  = "eyJpZCI6IjciLCJlbWFpbCI6ImFsaWNlQGV4YW1wbGUuY29tIiwicm9sZSI6ImFkbWluIiwiZXhwIjo4NjQwMTAwMH0="
  /\ Base64.atob token
     = Some (JSON.stringify
               (JSON.JObject
                  [("id", JSON.JString "7");
                   ("email", JSON.JString "alice@example.com");
                   ("role", JSON.JString "admin");
                   ("exp", JSON.JNumber 86401000)]))
  /\ (validateToken token w1).1
     = Session (AuthUser.mk "7" "alice@example.com" "" admin token)
  /\ User.name alice = "Alice".
Proof. cbv zeta. repeat split; vm_compute; reflexivity. Qed.

(** The same token after its expiry, and a token that is not base64. *)
Lemma validateToken_examples :
  let w0 := mkWorld (Browser emptyStorage) advancing 0 in
  let token := (generateToken alice w0).1 in
  (validateToken token (mkWorld (Browser emptyStorage) (fun _ => 86401000) 0)).1
  = Session (AuthUser.mk "7" "alice@example.com" "" admin token)
  /\ (validateToken token (mkWorld (Browser emptyStorage) (fun _ => 86401001) 0)).1
     = NoSession
  /\ (validateToken "not a token!" w0).1 = NoSession
  /\ (validateToken "bm90IGpzb24=" w0).1 = NoSession.
Proof. cbv zeta. repeat split; vm_compute; reflexivity. Qed.

(** A token whose payload has no [exp] does not expire: [undefined < now]
    is false whatever the clock says. *)
Lemma validateToken_without_exp :
  let token :=
    Base64.btoa
      (JSON.stringify
         (JSON.JObject
            [("id", JSON.JString "7");
             ("email", JSON.JString "alice@example.com");
             ("role", JSON.JString "admin")])) in
  validateToken token (mkWorld (Browser emptyStorage) (fun _ => 4102444800000) 0)
  = (Session (AuthUser.mk "7" "alice@example.com" "" admin token),
     mkWorld (Browser emptyStorage) (fun _ => 4102444800000) 1).
Proof. cbv zeta. vm_compute. reflexivity. Qed.

(** ** [atob] undoes [btoa] *)

Lemma string_ind3 (Q : string -> Prop) :
  Q "" ->
  (forall a, Q (String a "")) ->
  (forall a b, Q (String a (String b ""))) ->
  (forall a b c rest, Q rest -> Q (String a (String b (String c rest)))) ->
  forall s, Q s.
Proof.
  intros H0 H1 H2 H3.
  fix IH 1. intros [|a [|b [|c rest]]]; [apply H0|apply H1|apply H2|].
  apply H3, IH.
Qed.

Ltac euclid := zify; Z.to_euclidean_division_equations; lia.

Lemma btoa_sextets (s : string) :
  list_ascii_of_string (Base64.btoa s)
  = map Base64.digit (sextets s) ++ padding s.
Proof.
  induction s as [|a|a b|a b c rest IH] using string_ind3; try reflexivity.
  cbn [Base64.btoa sextets padding list_ascii_of_string map app].
  now rewrite IH.
Qed.

Lemma sextets_lt (s : string) : Forall (fun n => (n < 64)%N) (sextets s).
Proof.
  induction s as [|a|a b|a b c rest IH] using string_ind3; cbn [sextets].
  - constructor.
  - pose proof (N_ascii_bounded a). repeat constructor; euclid.
  - pose proof (N_ascii_bounded a). pose proof (N_ascii_bounded b).
    repeat constructor; euclid.
  - pose proof (N_ascii_bounded a). pose proof (N_ascii_bounded b).
    pose proof (N_ascii_bounded c).
    repeat (constructor; [euclid|]). exact IH.
Qed.

Lemma sextet_arithmetic (x y z : N) :
  (x < 256 -> y < 256 -> z < 256 ->
   x / 4 * 4 + ((x mod 4) * 16 + y / 16) / 16 = x
   /\ (((x mod 4) * 16 + y / 16) mod 16) * 16 + ((y mod 16) * 4 + z / 64) / 4 = y
   /\ (((y mod 16) * 4 + z / 64) mod 4) * 64 + z mod 64 = z
   /\ x / 4 * 4 + ((x mod 4) * 16) / 16 = x
   /\ (((x mod 4) * 16 + y / 16) mod 16) * 16 + ((y mod 16) * 4) / 4 = y)%N.
Proof. intros Hx Hy Hz. repeat split; euclid. Qed.

Lemma bytes_sextets (s : string) :
  string_of_list_ascii (Base64.bytes (sextets s)) = s.
Proof.
  induction s as [|a|a b|a b c rest IH] using string_ind3;
    cbn [sextets Base64.bytes string_of_list_ascii].
  - reflexivity.
  - destruct (sextet_arithmetic (N_of_ascii a) 0 0) as (_ & _ & _ & E & _);
      [apply N_ascii_bounded|reflexivity..|].
    now rewrite E, ascii_N_embedding.
  - destruct (sextet_arithmetic (N_of_ascii a) (N_of_ascii b) 0)
      as (E1 & _ & _ & _ & E2); [apply N_ascii_bounded..|reflexivity|].
    now rewrite E1, E2, !ascii_N_embedding.
  - destruct (sextet_arithmetic (N_of_ascii a) (N_of_ascii b) (N_of_ascii c))
      as (E1 & E2 & E3 & _); [apply N_ascii_bounded..|].
    now rewrite E1, E2, E3, !ascii_N_embedding, IH.
Qed.

Lemma digit_facts (n : N) :
  (n < 64)%N ->
  Base64.value (Base64.digit n) = Some n
  /\ Base64.is_whitespace (Base64.digit n) = false
  /\ Ascii.eqb (Base64.digit n) "=" = false.
Proof.
  intros Hn. rewrite <- (N2Nat.id n).
  assert (Hk : (N.to_nat n < 64)%nat) by lia.
  revert Hk. generalize (N.to_nat n) as k. clear n Hn.
  do 64 (intros [|k]; [intros _; vm_compute; repeat split|]; revert k).
  intros k Hk. lia.
Qed.

Lemma values_digits (l : list N) :
  Forall (fun n => (n < 64)%N) l -> Base64.values (map Base64.digit l) = Some l.
Proof.
  induction 1 as [|n l Hn _ IH]; cbn [map Base64.values]; [reflexivity|].
  destruct (digit_facts n Hn) as (-> & _). now rewrite IH.
Qed.

Lemma padding_cases (s : string) :
  padding s = [] \/ padding s = ["="%char] \/ padding s = ["="; "="]%char.
Proof.
  induction s as [|a|a b|a b c rest IH] using string_ind3; cbn; auto.
Qed.

Lemma no_whitespace (s : string) :
  List.filter (fun c => negb (Base64.is_whitespace c))
    (map Base64.digit (sextets s) ++ padding s)
  = map Base64.digit (sextets s) ++ padding s.
Proof.
  rewrite List.filter_app. f_equal.
  - pose proof (sextets_lt s) as Hlt.
    induction Hlt as [|n l Hn _ IH]; cbn [map List.filter]; [reflexivity|].
    destruct (digit_facts n Hn) as (_ & -> & _). cbn. now rewrite IH.
  - destruct (padding_cases s) as [->|[->| ->]]; reflexivity.
Qed.

(** The numbers of digits and of padding characters, group by group. *)
Lemma sextets_length (s : string) :
  exists k,
    (padding s = [] /\ length (sextets s) = 4 * k)%nat
    \/ (padding s = ["="%char] /\ length (sextets s) = 4 * k + 3)%nat
    \/ (padding s = ["="; "="]%char /\ length (sextets s) = 4 * k + 2)%nat.
Proof.
  induction s as [|a|a b|a b c rest IH] using string_ind3.
  - exists 0%nat. now left.
  - exists 0%nat. right. now right.
  - exists 0%nat. right. now left.
  - destruct IH as [k IH]. exists (S k). cbn [padding sextets length].
    destruct IH as [[-> ->]|[[-> ->]|[-> ->]]]; [left|right; left|right; right];
      (split; [reflexivity|lia]).
Qed.

Lemma mod4 (k r : nat) : (r < 4)%nat -> ((4 * k + r) mod 4 = r)%nat.
Proof.
  intros Hr. rewrite Nat.add_comm, Nat.mul_comm, Nat.Div0.mod_add.
  now apply Nat.mod_small.
Qed.

Lemma not_padding (c : ascii) (r l : list ascii) :
  Ascii.eqb c "=" = false ->
  match c :: r with
  | "="%char :: "="%char :: r' => rev r'
  | "="%char :: r' => rev r'
  | _ => l
  end = l.
Proof.
  destruct c as [[] [] [] [] [] [] [] []]; try reflexivity. discriminate.
Qed.

Lemma one_padding (c : ascii) (r : list ascii) :
  Ascii.eqb c "=" = false ->
  match "="%char :: c :: r with
  | "="%char :: "="%char :: r' => rev r'
  | "="%char :: r' => rev r'
  | _ => []
  end = rev (c :: r).
Proof.
  destruct c as [[] [] [] [] [] [] [] []]; try reflexivity. discriminate.
Qed.

Lemma strip_padding_btoa (s : string) :
  Base64.strip_padding (map Base64.digit (sextets s) ++ padding s)
  = map Base64.digit (sextets s).
Proof.
  unfold Base64.strip_padding.
  pose proof (sextets_lt s) as Hlt.
  assert (Hlast : forall c r, rev (map Base64.digit (sextets s)) = c :: r ->
                              Ascii.eqb c "=" = false).
  { intros c r E.
    assert (Hc : c ∈ map Base64.digit (sextets s)).
    { rewrite (Permutation_rev (map _ _)), E. left. }
    apply list_elem_of_In, in_map_iff in Hc as (n & <- & Hn).
    rewrite Forall_forall in Hlt. apply list_elem_of_In in Hn.
    now destruct (digit_facts n (Hlt n Hn)) as (_ & _ & ?). }
  destruct (sextets_length s) as [k [[Hp Hl]|[[Hp Hl]|[Hp Hl]]]];
    rewrite Hp, length_app, length_map, Hl; cbn [length].
  - rewrite app_nil_r.
    rewrite (mod4 k 0) by lia. cbn [Nat.eqb].
    destruct (rev _) as [|c r] eqn:E; [reflexivity|].
    apply not_padding. now apply (Hlast c r).
  - replace (4 * k + 3 + 1)%nat with (4 * (S k) + 0)%nat by lia.
    rewrite (mod4 (S k) 0) by lia. cbn [Nat.eqb].
    rewrite rev_app_distr. cbn [rev app].
    destruct (rev _) as [|c r] eqn:E.
    + apply (f_equal (@rev ascii)) in E. rewrite rev_involutive in E.
      now rewrite E.
    + rewrite (one_padding c r (Hlast c r eq_refl)).
      now rewrite <- E, rev_involutive.
  - replace (4 * k + 2 + 2)%nat with (4 * (S k) + 0)%nat by lia.
    rewrite (mod4 (S k) 0) by lia. cbn [Nat.eqb].
    rewrite rev_app_distr. cbn [rev app]. apply rev_involutive.
Qed.

Lemma atob_btoa (s : string) : Base64.atob (Base64.btoa s) = Some s.
Proof.
  unfold Base64.atob.
  rewrite btoa_sextets, no_whitespace, strip_padding_btoa, length_map.
  assert (Hlen : (length (sextets s) mod 4 =? 1)%nat = false).
  { destruct (sextets_length s) as [k [[_ ->]|[[_ ->]|[_ ->]]]].
    - replace (4 * k)%nat with (4 * k + 0)%nat by lia. now rewrite mod4 by lia.
    - now rewrite mod4 by lia.
    - now rewrite mod4 by lia. }
  rewrite Hlen, (values_digits _ (sextets_lt s)). now rewrite bytes_sextets.
Qed.

(** ** [JSON.parse] undoes [JSON.stringify] on a payload *)

Lemma append_cons (x : ascii) (a b : string) :
  String x a +:+ b = String x (a +:+ b).
Proof. reflexivity. Qed.

Lemma append_nil (b : string) : "" +:+ b = b.
Proof. reflexivity. Qed.

Lemma append_assoc (a b c : string) : (a +:+ b) +:+ c = a +:+ (b +:+ c).
Proof.
  induction a as [|x a IH]; [reflexivity|].
  now rewrite !append_cons, IH.
Qed.

Lemma parse_string_char (c : ascii) (text : string) :
  JSON.parse_string (JSON.quote_char c +:+ text)
  = match JSON.parse_string text with
    | Some (body, rest) => Some (String c <$> body, rest)
    | None => None
    end.
Proof. destruct c as [[] [] [] [] [] [] [] []]; reflexivity. Qed.

Lemma parse_string_quote (s rest : string) :
  JSON.parse_string (JSON.quote_body s +:+ rest) = Some (Some s, rest).
Proof.
  induction s as [|c s IH]; [reflexivity|].
  cbn [JSON.quote_body]. now rewrite append_assoc, parse_string_char, IH.
Qed.

Lemma digit_value_char (d : N) :
  (d < 10)%N -> JSON.digit_value (pretty_N_char d) = Some (Z.of_N d).
Proof.
  intros Hd. rewrite <- (N2Nat.id d).
  assert (Hk : (N.to_nat d < 10)%nat) by lia.
  revert Hk. generalize (N.to_nat d) as k. clear d Hd.
  do 10 (intros [|k]; [intros _; reflexivity|]; revert k).
  intros k Hk. lia.
Qed.

Lemma digits_step (acc : Z) (count : nat) (d : N) (s : string) :
  (d < 10)%N ->
  JSON.digits acc count (String (pretty_N_char d) s)
  = JSON.digits (10 * acc + Z.of_N d) (S count) s.
Proof. intros Hd. cbn [JSON.digits]. now rewrite digit_value_char. Qed.

(** Reading back the digits [pretty_N_go] wrote. *)
Lemma digits_pretty_go (x : N) :
  forall (s rest : string) (acc : Z) (count : nat),
  exists (p : Z) (len : nat),
    JSON.digits acc count (pretty_N_go x s +:+ rest)
    = JSON.digits (acc * p + Z.of_N x) (count + len) (s +:+ rest)
    /\ ((0 < x)%N -> (0 < len)%nat).
Proof.
  induction (N.lt_wf_0 x) as [x _ IH]. intros s rest acc count.
  destruct (N.eq_dec x 0%N) as [->|Hx].
  - exists 1, 0%nat. rewrite pretty_N_go_0, Z.mul_1_r, Z.add_0_r, Nat.add_0_r.
    split; [reflexivity|lia].
  - rewrite pretty_N_go_step by lia.
    destruct (IH (x `div` 10)%N) with
      (s := String (pretty_N_char (x `mod` 10)%N) s) (rest := rest)
      (acc := acc) (count := count) as (p & len & E & _).
    { apply N.div_lt; lia. }
    exists (10 * p), (S len). split; [|lia].
    rewrite E, append_cons, digits_step by (apply N.mod_lt; lia).
    f_equal; [|lia].
    pose proof (N.div_mod x 10%N ltac:(lia)) as Hdiv.
    rewrite Hdiv at 3. lia.
Qed.


Lemma sign_digit (d : N) (t : string) :
  (d < 10)%N ->
  JSON.sign (String (pretty_N_char d) t) = (false, String (pretty_N_char d) t).
Proof.
  intros Hd. rewrite <- (N2Nat.id d).
  assert (Hk : (N.to_nat d < 10)%nat) by lia.
  revert Hk. generalize (N.to_nat d) as k. clear d Hd.
  do 10 (intros [|k]; [intros _; reflexivity|]; revert k).
  intros k Hk. lia.
Qed.

Lemma integer_digit (d : N) (t : string) :
  (0 < d < 10)%N ->
  JSON.integer (String (pretty_N_char d) t)
  = JSON.digits 0 0 (String (pretty_N_char d) t).
Proof.
  intros Hd. rewrite <- (N2Nat.id d).
  assert (Hk : (0 < N.to_nat d < 10)%nat) by lia.
  revert Hk. generalize (N.to_nat d) as k. clear d Hd.
  intros [|k]; [lia|]. revert k.
  do 9 (intros [|k]; [intros _; reflexivity|]; revert k).
  intros k Hk. lia.
Qed.

(** The number [JSON.stringify] writes for an integer, before a closing
    brace, reads back as that integer. *)
Lemma parse_number_pretty (z : Z) (tail : string) :
  JSON.parse_number (pretty z +:+ String "}" tail)
  = Some (Some z, String "}" tail).
Proof.
  assert (Hpos : forall p : positive,
            exists len,
              JSON.integer (pretty_N_go (N.pos p) "" +:+ String "}" tail)
              = (Z.pos p, S len, String "}" tail)
              /\ JSON.sign (pretty_N_go (N.pos p) "" +:+ String "}" tail)
                 = (false, pretty_N_go (N.pos p) "" +:+ String "}" tail)).
  { intros p.
    destruct (pretty_first (N.pos p) "" ltac:(lia)) as (d & t & Hd & E).
    destruct (digits_pretty_go (N.pos p) "" (String "}" tail) 0 0%nat)
      as (q & len & Hdigits & Hlen).
    destruct len as [|len]; [lia|]. exists len.
    rewrite E, append_cons, sign_digit, integer_digit by lia.
    rewrite <- append_cons, <- E, Hdigits. now split. }
  destruct z as [|p|p].
  - reflexivity.
  - change (pretty (Z.pos p)) with (pretty_N_go (N.pos p) "").
    destruct (Hpos p) as (len & Hint & Hsign).
    unfold JSON.parse_number. now rewrite Hsign, Hint.
  - change (pretty (Z.neg p)) with ("-" +:+ pretty_N_go (N.pos p) "").
    destruct (Hpos p) as (len & Hint & _).
    unfold JSON.parse_number. rewrite append_assoc.
    change (JSON.sign ("-" +:+ pretty_N_go (N.pos p) "" +:+ String "}" tail))
      with (true, pretty_N_go (N.pos p) "" +:+ String "}" tail).
    cbn [fst snd]. now rewrite Hint.
Qed.

Lemma parse_value_string (fuel : nat) (s rest : string) :
  JSON.parse_value (S fuel) (String JSON.dquote (JSON.quote_body s +:+ rest))
  = Some (Some (JSON.JString s), rest).
Proof.
  change (JSON.parse_value (S fuel) (String JSON.dquote (JSON.quote_body s +:+ rest)))
    with (match JSON.parse_string (JSON.quote_body s +:+ rest) with
          | Some (body, rest') => Some (JSON.JString <$> body, rest')
          | None => None
          end).
  now rewrite parse_string_quote.
Qed.


Lemma parse_value_number_start (fuel : nat) (c : ascii) (t : string) :
  (c = "-"%char \/ exists d, (d < 10)%N /\ c = pretty_N_char d) ->
  JSON.parse_value (S fuel) (String c t)
  = match JSON.parse_number (String c t) with
    | Some (n, rest) => Some (JSON.JNumber <$> n, rest)
    | None => None
    end.
Proof.
  intros [->|(d & Hd & ->)]; [reflexivity|].
  rewrite <- (N2Nat.id d).
  assert (Hk : (N.to_nat d < 10)%nat) by lia.
  revert Hk. generalize (N.to_nat d) as k. clear d Hd.
  do 10 (intros [|k]; [intros _; reflexivity|]; revert k).
  intros k Hk. lia.
Qed.

Lemma parse_value_number (fuel : nat) (z : Z) (tail : string) :
  JSON.parse_value (S fuel) (pretty z +:+ String "}" tail)
  = Some (Some (JSON.JNumber z), String "}" tail).
Proof.
  destruct (pretty_Z_first z) as (c & t & E & Hc).
  pose proof (parse_number_pretty z tail) as Hnumber.
  rewrite E, append_cons in *.
  now rewrite (parse_value_number_start fuel c _ Hc), Hnumber.
Qed.

(** One member of an object, followed by a comma and more members, or by
    the closing brace. *)
Lemma parse_members_more (fuel : nat) (key text more rest : string)
    (v : JSON.json) (ms : list (string * JSON.json)) :
  JSON.parse_value fuel text = Some (Some v, String "," more) ->
  JSON.parse_members fuel more = Some (Some ms, rest) ->
  JSON.parse_members (S fuel)
    (String JSON.dquote (JSON.quote_body key +:+ String ":" text))
  = Some (Some ((key, v) :: ms), rest).
Proof.
  intros Hvalue Hmore.
  change (JSON.parse_members (S fuel)
            (String JSON.dquote (JSON.quote_body key +:+ String ":" text)))
    with (match JSON.parse_string (JSON.quote_body key +:+ String ":" text) with
          | None => None
          | Some (k, s2) =>
              match JSON.skip_ws s2 with
              | String ":" s3 =>
                  match JSON.parse_value fuel s3 with
                  | None => None
                  | Some (x, rest0) =>
                      let member :=
                        match k, x with
                        | Some key0, Some v0 => Some (key0, v0)
                        | _, _ => None
                        end in
                      match JSON.skip_ws rest0 with
                      | String "}" rest' => Some ((fun m => [m]) <$> member, rest')
                      | String "," rest' =>
                          match JSON.parse_members fuel rest' with
                          | Some (ms0, rest'') =>
                              Some (match member, ms0 with
                                    | Some m, Some l => Some (m :: l)
                                    | _, _ => None
                                    end, rest'')
                          | None => None
                          end
                      | _ => None
                      end
                  end
              | _ => None
              end
          end).
  rewrite parse_string_quote.
  change (JSON.skip_ws (String ":" text)) with (String ":" text). cbv iota.
  rewrite Hvalue.
  change (JSON.skip_ws (String "," more)) with (String "," more). cbv iota zeta.
  now rewrite Hmore.
Qed.

Lemma parse_members_last (fuel : nat) (key text rest : string) (v : JSON.json) :
  JSON.parse_value fuel text = Some (Some v, String "}" rest) ->
  JSON.parse_members (S fuel)
    (String JSON.dquote (JSON.quote_body key +:+ String ":" text))
  = Some (Some [(key, v)], rest).
Proof.
  intros Hvalue.
  change (JSON.parse_members (S fuel)
            (String JSON.dquote (JSON.quote_body key +:+ String ":" text)))
    with (match JSON.parse_string (JSON.quote_body key +:+ String ":" text) with
          | None => None
          | Some (k, s2) =>
              match JSON.skip_ws s2 with
              | String ":" s3 =>
                  match JSON.parse_value fuel s3 with
                  | None => None
                  | Some (x, rest0) =>
                      let member :=
                        match k, x with
                        | Some key0, Some v0 => Some (key0, v0)
                        | _, _ => None
                        end in
                      match JSON.skip_ws rest0 with
                      | String "}" rest' => Some ((fun m => [m]) <$> member, rest')
                      | String "," rest' =>
                          match JSON.parse_members fuel rest' with
                          | Some (ms0, rest'') =>
                              Some (match member, ms0 with
                                    | Some m, Some l => Some (m :: l)
                                    | _, _ => None
                                    end, rest'')
                          | None => None
                          end
                      | _ => None
                      end
                  end
              | _ => None
              end
          end).
  rewrite parse_string_quote.
  change (JSON.skip_ws (String ":" text)) with (String ":" text). cbv iota.
  now rewrite Hvalue.
Qed.

(** The payload [generateToken] writes, as JSON. *)
Lemma parse_payload (i e : string) (r : UserRole) (x : Z) :
  let payload :=
    JSON.JObject
      [("id", JSON.JString i); ("email", JSON.JString e);
       ("role", JSON.JString (role_string r)); ("exp", JSON.JNumber x)] in
  JSON.parse (JSON.stringify payload) = JSON.Value payload.
Proof.
  cbv zeta.
  set (t4 := pretty x +:+ String "}" "").
  set (m4 := String JSON.dquote (JSON.quote_body "exp" +:+ String ":" t4)).
  set (t3 := String JSON.dquote (JSON.quote_body (role_string r) +:+ String "," m4)).
  set (m3 := String JSON.dquote (JSON.quote_body "role" +:+ String ":" t3)).
  set (t2 := String JSON.dquote (JSON.quote_body e +:+ String "," m3)).
  set (m2 := String JSON.dquote (JSON.quote_body "email" +:+ String ":" t2)).
  set (t1 := String JSON.dquote (JSON.quote_body i +:+ String "," m2)).
  set (m1 := String JSON.dquote (JSON.quote_body "id" +:+ String ":" t1)).
  assert (Htext :
            JSON.stringify
              (JSON.JObject
                 [("id", JSON.JString i); ("email", JSON.JString e);
                  ("role", JSON.JString (role_string r)); ("exp", JSON.JNumber x)])
            = String "{" m1).
  { unfold m1, t1, m2, t2, m3, t3, m4, t4. reflexivity. }
  rewrite Htext.
  assert (Hmembers : forall fuel,
            JSON.parse_members (S (S (S (S (S fuel))))) m1
            = Some (Some [("id", JSON.JString i); ("email", JSON.JString e);
                          ("role", JSON.JString (role_string r));
                          ("exp", JSON.JNumber x)], "")).
  { intros fuel.
    apply parse_members_more with (more := m2); [apply parse_value_string|].
    apply parse_members_more with (more := m3); [apply parse_value_string|].
    apply parse_members_more with (more := m4); [apply parse_value_string|].
    apply parse_members_last. apply parse_value_number. }
  unfold JSON.parse.
  assert (Hfuel : exists fuel,
            (2 * String.length (String "{" m1) + 2 = S (S (S (S (S (S fuel))))))%nat).
  { exists (2 * String.length (JSON.quote_body "id" +:+ String ":" t1))%nat.
    unfold m1. cbn [String.length]. lia. }
  destruct Hfuel as [fuel ->].
  change (JSON.parse_value (S (S (S (S (S (S fuel))))))  (String "{" m1))
    with (match JSON.parse_members (S (S (S (S (S fuel))))) m1 with
          | Some (ms, rest) => Some (JSON.JObject <$> ms, rest)
          | None => None
          end).
  now rewrite Hmembers.
Qed.

Lemma role_of_role_string (r : UserRole) : role_of_string (role_string r) = Some r.
Proof. now destruct r. Qed.

(** What [validateToken] makes of a token of [generateToken], whenever it
    is asked: no session once the clock has passed the expiry, 24 hours
    after the issue; until then (the expiry included) a session with the
    user's id, email and role, and the empty string for the name. *)
Lemma token_round_trip (user : User.t) (w w' : World) :
  let token := (generateToken user w).1 in
  let exp := timeline w (ticks w) + 24 * 60 * 60 * 1000 in
  let now := timeline w' (ticks w') in
  (validateToken token w').1
  = if exp <? now then NoSession
    else Session
           (AuthUser.mk (User.id user) (User.email user) "" (User.role user) token).
Proof.
  cbv zeta.
  set (payload :=
         [("id", JSON.JString (User.id user));
          ("email", JSON.JString (User.email user));
          ("role", JSON.JString (role_string (User.role user)));
          ("exp", JSON.JNumber (timeline w (ticks w) + 24 * 60 * 60 * 1000))]).
  change ((generateToken user w).1)
    with (Base64.btoa (JSON.stringify (JSON.JObject payload))).
  rewrite (validateToken_payload _ (JSON.stringify (JSON.JObject payload)) payload
             (timeline w (ticks w) + 24 * 60 * 60 * 1000)
             (mkPayload (User.id user) (User.email user) "" (User.role user))).
  - reflexivity.
  - apply atob_btoa.
  - apply parse_payload.
  - reflexivity.
  - unfold payload.
    change (as_payload _)
      with (match role_of_string (role_string (User.role user)) with
            | Some ro => Some (mkPayload (User.id user) (User.email user) "" ro)
            | None => None
            end).
    now rewrite role_of_role_string.
Qed.


(** * Further properties of the two libraries and their callers *)

(** ** Passwords *)

Lemma btoa_injective (a b : string) : Base64.btoa a = Base64.btoa b -> a = b.
Proof.
  intros E. apply (f_equal Base64.atob) in E. rewrite !atob_btoa in E. congruence.
Qed.

Lemma btoa_empty (s : string) : Base64.btoa s = "" -> s = "".
Proof. now destruct s as [|a [|b [|c s]]]. Qed.

Lemma append_length (a b : string) :
  String.length (a +:+ b) = (String.length a + String.length b)%nat.
Proof. induction a as [|x a IH]; [reflexivity|]. rewrite append_cons. cbn. now rewrite IH. Qed.

Lemma append_cancel_r (a b salt : string) : a +:+ salt = b +:+ salt -> a = b.
Proof.
  revert b. induction a as [|x a IH]; intros [|y b] E.
  - reflexivity.
  - apply (f_equal String.length) in E. rewrite append_nil, append_cons in E.
    cbn in E. rewrite append_length in E. lia.
  - apply (f_equal String.length) in E. rewrite append_nil, append_cons in E.
    cbn in E. rewrite append_length in E. lia.
  - rewrite !append_cons in E. injection E as -> E. f_equal. now apply IH.
Qed.

Lemma hashPassword_injective (a b : string) : hashPassword a = hashPassword b -> a = b.
Proof. intros E. apply btoa_injective in E. now apply append_cancel_r in E. Qed.

Lemma hashPassword_truthy (password : string) : JS.truthy (hashPassword password) = true.
Proof.
  apply truthy_iff. intros E. apply btoa_empty in E.
  apply (f_equal String.length) in E. rewrite append_length in E. cbn in E. lia.
Qed.

Lemma verifyPassword_iff (password candidate : string) :
  verifyPassword candidate (hashPassword password) = true <-> candidate = password.
Proof.
  unfold verifyPassword. rewrite String.eqb_eq. split.
  - apply hashPassword_injective.
  - now intros ->.
Qed.

(** X1.  For passwords and candidates of code units up to 0xFF, which are
    the strings [btoa] takes (on any other [btoa] throws, and so does
    [hashPassword]):  [verifyPassword] accepts a candidate against the hash
    of a password exactly when the candidate is that password.  The hash is
    the base64 text of the password followed by the salt: it is never empty,
    two passwords never have the same hash, and [atob] gives the password
    and the salt back from it. *)
Theorem verifyPassword_exact :
  forall (password candidate : string),
    (verifyPassword candidate (hashPassword password) = true
     <-> candidate = password)
    /\ (hashPassword candidate = hashPassword password -> candidate = password)
    /\ hashPassword password <> ""
    /\ Base64.atob (hashPassword password) = Some (password +:+ "salt_key_2024").
Proof.
  intros password candidate.
  split; [apply verifyPassword_iff|].
  split; [apply hashPassword_injective|].
  split; [apply truthy_iff, hashPassword_truthy|apply atob_btoa].
Qed.

Ltac stored :=
  cbn [saas_users saas_passwords saas_data_records auth_token
       set_saas_users set_saas_passwords set_saas_data_records set_auth_token
       default from_option] in *;
  unfold Datatypes.id in *.

Lemma passwords_of_browser (ls : LocalStorage) (tl : nat -> Z) (n : nat) :
  passwords_of (mkWorld (Browser ls) tl n) = default ∅ (saas_passwords ls).
Proof. reflexivity. Qed.

Lemma deletePassword_run (userId : string) (ls : LocalStorage)
    (tl : nat -> Z) (n : nat) :
  PasswordManager.deletePassword userId (mkWorld (Browser ls) tl n)
  = (Some tt,
     mkWorld
       (Browser
          (set_saas_passwords (delete userId (default ∅ (saas_passwords ls))) ls))
       tl n).
Proof. reflexivity. Qed.

(** X2.  In the browser, for a user id other than ['__proto__'] (an
    assignment to that key of the object sets no property of it; the ids the
    program makes are digits) and for passwords and candidates of code units
    up to 0xFF (those [btoa] takes): after [savePassword userId password]
    the candidates [verifyUserPassword] accepts for [userId] are [password]
    and nothing else, whatever was stored for [userId] before; what it
    answers for any other user is what it answered before; the users, the
    records and the token are stored as they were.  After [deletePassword
    userId] no candidate is accepted for [userId], and the other users are
    again untouched. *)
Theorem savePassword_then_verify :
  forall (ls : LocalStorage) (tl : nat -> Z) (n : nat) (userId password : string),
    let w := mkWorld (Browser ls) tl n in
    let saved := (PasswordManager.savePassword userId password w).2 in
    let deleted := (PasswordManager.deletePassword userId saved).2 in
    userId <> "__proto__" ->
    (forall candidate,
        (PasswordManager.verifyUserPassword userId candidate saved).1 = true
        <-> candidate = password)
    /\ (forall other candidate, other <> userId ->
          (PasswordManager.verifyUserPassword other candidate saved).1
          = (PasswordManager.verifyUserPassword other candidate w).1)
    /\ users_of saved = users_of w
    /\ records_of saved = records_of w
    /\ (authStorage.getToken saved).1 = (authStorage.getToken w).1
    /\ (PasswordManager.deletePassword userId saved).1 = Some tt
    /\ (forall candidate,
          (PasswordManager.verifyUserPassword userId candidate deleted).1 = false)
    /\ (forall other candidate, other <> userId ->
          (PasswordManager.verifyUserPassword other candidate deleted).1
          = (PasswordManager.verifyUserPassword other candidate w).1).
Proof.
  intros ls tl n userId password w saved deleted Hkey.
  unfold deleted, saved, w. rewrite savePassword_run by exact Hkey. cbn [snd].
  rewrite deletePassword_run. cbn [fst snd].
  split; [|split; [|split; [|split; [|split; [|split; [|split]]]]]];
    try reflexivity.
  - intros candidate. rewrite verifyUserPassword_passwords, passwords_of_browser.
    stored.
    rewrite lookup_insert_eq, hashPassword_truthy. cbn [andb].
    apply verifyPassword_iff.
  - intros other candidate Hother.
    rewrite !verifyUserPassword_passwords, !passwords_of_browser.
    stored.
    now rewrite lookup_insert_ne by congruence.
  - intros candidate. rewrite verifyUserPassword_passwords, passwords_of_browser.
    stored.
    now rewrite lookup_delete_eq.
  - intros other candidate Hother.
    rewrite !verifyUserPassword_passwords, !passwords_of_browser.
    stored.
    rewrite lookup_delete_ne by congruence.
    now rewrite lookup_insert_ne by congruence.
Qed.

Lemma savePassword_then_verify_witness :
  let w := mkWorld (Browser exampleStorage) advancing 0 in
  let saved := (PasswordManager.savePassword "7" "wonderland" w).2 in
  let deleted := (PasswordManager.deletePassword "7" saved).2 in
  (forall candidate,
      (PasswordManager.verifyUserPassword "7" candidate saved).1 = true
      <-> candidate = "wonderland")
  /\ (forall other candidate, other <> "7" ->
        (PasswordManager.verifyUserPassword other candidate saved).1
        = (PasswordManager.verifyUserPassword other candidate w).1)
  /\ users_of saved = users_of w
  /\ records_of saved = records_of w
  /\ (authStorage.getToken saved).1 = (authStorage.getToken w).1
  /\ (PasswordManager.deletePassword "7" saved).1 = Some tt
  /\ (forall candidate,
        (PasswordManager.verifyUserPassword "7" candidate deleted).1 = false)
  /\ (forall other candidate, other <> "7" ->
        (PasswordManager.verifyUserPassword other candidate deleted).1
        = (PasswordManager.verifyUserPassword other candidate w).1).
Proof.
  cbv zeta.
  apply (savePassword_then_verify exampleStorage advancing 0 "7" "wonderland").
  discriminate.
Defined.

(** The key ['__proto__']: the assignment sets nothing, the empty map is
    stored, and the password that was saved is not accepted. *)
Lemma savePassword_of_proto :
  let w := mkWorld (Browser emptyStorage) advancing 0 in
  let saved := (PasswordManager.savePassword "__proto__" "wonderland" w).2 in
  stored_passwords (env saved) = Some ∅
  /\ (PasswordManager.verifyUserPassword "__proto__" "wonderland" saved).1 = false.
Proof. cbv zeta. split; reflexivity. Qed.

(** ** Sessions *)

Lemma generateToken_world (user : User.t) (w : World) :
  (generateToken user w).2 = mkWorld (env w) (timeline w) (S (ticks w)).
Proof. reflexivity. Qed.

Lemma generateToken_truthy (user : User.t) (w : World) :
  JS.truthy (generateToken user w).1 = true.
Proof.
  pose proof (token_round_trip user w
                (mkWorld Server (fun _ => timeline w (ticks w)) 0)) as H.
  cbv zeta in H. cbn [timeline ticks] in H.
  replace (_ <? _) with false in H by (symmetry; apply Z.ltb_ge; lia).
  destruct ((generateToken user w).1); [discriminate H|reflexivity].
Qed.

Lemma getUser_stored (ls : LocalStorage) (tl : nat -> Z) (m : nat) (token : string) :
  auth_token ls = Some token ->
  JS.truthy token = true ->
  authStorage.getUser (mkWorld (Browser ls) tl m)
  = validateToken token (mkWorld (Browser ls) tl m).
Proof.
  intros Htoken Htruthy. unfold authStorage.getUser, authStorage.getToken. run_M.
  now rewrite Htoken, Htruthy.
Qed.

(** X3.  The session a stored token gives.  In the browser, [generateToken]
    for any user followed by [setToken] stores the token and changes nothing
    else.  Whenever [getUser] is called afterwards, after any number of
    other readings of the clock, it gives no session if the clock is then
    past the expiry, 24 hours after the token was made, and otherwise (the
    expiry included) the session of that user: the user's id, email and
    role, the token, and the empty string as name.  After [removeToken]
    there is no session. *)
Theorem session_lasts_a_day :
  forall (ls : LocalStorage) (tl : nat -> Z) (n k : nat) (user : User.t),
    let w := mkWorld (Browser ls) tl n in
    let token := (generateToken user w).1 in
    let stored := (authStorage.setToken token (generateToken user w).2).2 in
    let later := mkWorld (env stored) tl (S n + k) in
    let exp := tl n + 24 * 60 * 60 * 1000 in
    stored = mkWorld (Browser (set_auth_token (Some token) ls)) tl (S n)
    /\ (authStorage.getToken later).1 = Some token
    /\ (authStorage.getUser later).1
       = (if exp <? tl (S n + k)%nat then NoSession
          else Session
                 (AuthUser.mk (User.id user) (User.email user) ""
                    (User.role user) token))
    /\ (authStorage.getToken (authStorage.removeToken later).2).1 = None
    /\ (authStorage.getUser (authStorage.removeToken later).2).1 = NoSession.
Proof.
  intros ls tl n k user w token stored later exp.
  assert (Hstored :
            stored = mkWorld (Browser (set_auth_token (Some token) ls)) tl (S n)).
  { unfold stored. rewrite generateToken_world. reflexivity. }
  split; [exact Hstored|].
  unfold later. rewrite Hstored. cbn [env].
  split; [reflexivity|]. split; [|split; reflexivity].
  rewrite (getUser_stored (set_auth_token (Some token) ls) tl (S n + k) token
             eq_refl (generateToken_truthy user w)).
  unfold token at 1. rewrite token_round_trip. reflexivity.
Qed.

(** ** Logging in and signing up *)

Lemma verifyUserPassword_world (userId password : string) (w : World) :
  (PasswordManager.verifyUserPassword userId password w).2 = w.
Proof.
  destruct w as [[|ls] tl n];
    unfold PasswordManager.verifyUserPassword, PasswordManager.getPasswords; run_M.
  - reflexivity.
  - destruct (_ !! userId) as [h|]; [|reflexivity]. now destruct (JS.truthy h).
Qed.

Lemma login_run (isEmail : string -> bool) (email password : string)
    (ls : LocalStorage) (tl : nat -> Z) (n : nat) :
  let w := mkWorld (Browser ls) tl n in
  login isEmail email password w
  = if loginSchema isEmail email password then
      match List.find (fun u => String.eqb (User.email u) email)
              (default [] (saas_users ls)) with
      | None => (false, w)
      | Some foundUser =>
          if (PasswordManager.verifyUserPassword (User.id foundUser) password w).1
          then (true,
                mkWorld
                  (Browser (set_auth_token (Some (generateToken foundUser w).1) ls))
                  tl (S n))
          else (false, w)
      end
    else (false, w).
Proof.
  cbv zeta. unfold login. destruct (loginSchema isEmail email password); [|reflexivity].
  unfold UserManager.findByEmail, UserManager.getUsers. run_M.
  destruct (List.find _ _) as [foundUser|]; [|reflexivity].
  rewrite (surjective_pairing
             (PasswordManager.verifyUserPassword (User.id foundUser) password _)).
  rewrite verifyUserPassword_world.
  destruct (_.1); [|reflexivity].
  rewrite (surjective_pairing (generateToken foundUser _)), generateToken_world.
  reflexivity.
Qed.

(** X4.  [login] returns [true] exactly when the schema accepts the input
    (the email passes zod's test, the password has six code units or more),
    some stored user has the email, and the hash stored for the id of the
    first such user is the hash of the password.  A failed login leaves the
    store and the clock as they were; a successful one reads the clock once
    and stores the token of that user, and nothing else. *)
Theorem login_accepts_iff :
  forall (isEmail : string -> bool) (ls : LocalStorage) (tl : nat -> Z) (n : nat)
         (email password : string),
    let w := mkWorld (Browser ls) tl n in
    let found :=
      List.find (fun u => String.eqb (User.email u) email)
        (default [] (saas_users ls)) in
    let result := login isEmail email password w in
    (result.1 = true
     <-> isEmail email = true
         /\ (6 <= String.length password)%nat
         /\ exists u, found = Some u
                      /\ default ∅ (saas_passwords ls) !! User.id u
                         = Some (hashPassword password))
    /\ (result.1 = false -> result.2 = w)
    /\ (result.1 = true ->
        exists u, found = Some u
                  /\ result.2
                     = mkWorld
                         (Browser
                            (set_auth_token (Some (generateToken u w).1) ls))
                         tl (S n)).
Proof.
  intros isEmail ls tl n email password w found result.
  unfold result, w. rewrite login_run. fold w. fold found.
  unfold loginSchema.
  destruct (isEmail email); cbn [andb].
  2: { split; [|split]; cbn; try discriminate; try reflexivity.
       split; [discriminate|]. intros [[=] _]. }
  destruct (6 <=? String.length password)%nat eqn:Hlen.
  2: { apply Nat.leb_gt in Hlen.
       split; [|split]; cbn; try discriminate; try reflexivity.
       split; [discriminate|]. intros (_ & Hle & _). lia. }
  apply Nat.leb_le in Hlen.
  destruct found as [u|].
  2: { split; [|split]; cbn; try discriminate; try reflexivity.
       split; [discriminate|]. intros (_ & _ & u & [=] & _). }
  rewrite verifyUserPassword_passwords.
  replace (passwords_of w) with (default ∅ (saas_passwords ls)) by reflexivity.
  destruct (default ∅ (saas_passwords ls) !! User.id u) as [h|] eqn:Hh.
  2: { split; [|split]; cbn; try discriminate; try reflexivity.
       split; [discriminate|]. intros (_ & _ & u' & [= <-] & Hsome). congruence. }
  destruct (JS.truthy h && verifyPassword password h) eqn:Hv.
  - apply andb_true_iff in Hv as [_ Hv]. unfold verifyPassword in Hv.
    apply String.eqb_eq in Hv. subst h.
    split; [|split]; cbn [fst snd]; try discriminate.
    + split; [|reflexivity]. intros _. split; [reflexivity|]. split; [exact Hlen|].
      now exists u.
    + intros _. now exists u.
  - split; [|split]; cbn [fst snd]; try discriminate; try reflexivity.
    split; [discriminate|]. intros (_ & _ & u' & [= <-] & Hsome).
    rewrite Hh in Hsome. injection Hsome as ->.
    rewrite hashPassword_truthy in Hv. unfold verifyPassword in Hv.
    now rewrite String.eqb_refl in Hv.
Qed.

Lemma getUser_generated (user : User.t) (w : World) (ls : LocalStorage)
    (tl : nat -> Z) (m : nat) :
  let token := (generateToken user w).1 in
  (authStorage.getUser (mkWorld (Browser (set_auth_token (Some token) ls)) tl m)).1
  = if timeline w (ticks w) + 24 * 60 * 60 * 1000 <? tl m then NoSession
    else Session
           (AuthUser.mk (User.id user) (User.email user) "" (User.role user) token).
Proof.
  cbv zeta.
  rewrite (getUser_stored (set_auth_token (Some (generateToken user w).1) ls) tl m
             (generateToken user w).1 eq_refl (generateToken_truthy user w)).
  now rewrite token_round_trip.
Qed.

Lemma login_success (isEmail : string -> bool) (email password : string)
    (ls : LocalStorage) (tl : nat -> Z) (n : nat) :
  let w := mkWorld (Browser ls) tl n in
  (login isEmail email password w).1 = true ->
  exists u,
    List.find (fun u => String.eqb (User.email u) email) (default [] (saas_users ls))
    = Some u
    /\ (login isEmail email password w).2
       = mkWorld (Browser (set_auth_token (Some (generateToken u w).1) ls)) tl (S n).
Proof.
  cbv zeta. rewrite login_run.
  destruct (loginSchema isEmail email password); [|discriminate].
  destruct (List.find _ _) as [u|]; [|discriminate].
  destruct (PasswordManager.verifyUserPassword (User.id u) password _).1;
    [|discriminate].
  intros _. now exists u.
Qed.

(** X5.  A successful [login] starts a session.  In the browser, when
    [login] has returned [true], [getUser], called after any number of
    further readings of the clock, gives the session of the first stored
    user with that email (the user's id, email and role, the token, and the
    empty string as name) as long as the clock is not past the expiry, 24
    hours after the login, and no session once it is; after [logout] it
    gives no session. *)
Theorem login_starts_session :
  forall (isEmail : string -> bool) (ls : LocalStorage) (tl : nat -> Z) (n k : nat)
         (email password : string),
    let w := mkWorld (Browser ls) tl n in
    let result := login isEmail email password w in
    let later := mkWorld (env result.2) tl (S n + k) in
    result.1 = true ->
    exists u,
      List.find (fun u => String.eqb (User.email u) email)
        (default [] (saas_users ls)) = Some u
      /\ (authStorage.getUser later).1
         = (if tl n + 24 * 60 * 60 * 1000 <? tl (S n + k)%nat then NoSession
            else Session
                   (AuthUser.mk (User.id u) (User.email u) "" (User.role u)
                      (generateToken u w).1))
      /\ (authStorage.getUser (logout later).2).1 = NoSession.
Proof.
  intros isEmail ls tl n k email password w result later Htrue.
  destruct (login_success isEmail email password ls tl n Htrue) as (u & Hfound & Hworld).
  exists u. split; [exact Hfound|].
  unfold later, result. fold w in Hworld. rewrite Hworld. cbn [env].
  split; [|reflexivity].
  now rewrite getUser_generated.
Qed.

Lemma login_starts_session_witness :
  let ls :=
    mkLocalStorage (Some [alice; bob])
      (Some (<["7" := hashPassword "wonderland"]> ∅)) None None in
  let w := mkWorld (Browser ls) advancing 0 in
  exists u,
    List.find (fun u => String.eqb (User.email u) "alice@example.com") [alice; bob]
    = Some u
    /\ (authStorage.getUser
          (mkWorld (env (login (fun _ => true) "alice@example.com" "wonderland" w).2)
             advancing (1 + 5))).1
       = (if advancing 0 + 24 * 60 * 60 * 1000 <? advancing (1 + 5)%nat then NoSession
          else Session
                 (AuthUser.mk (User.id u) (User.email u) "" (User.role u)
                    (generateToken u w).1))
    /\ (authStorage.getUser
          (logout
             (mkWorld
                (env (login (fun _ => true) "alice@example.com" "wonderland" w).2)
                advancing (1 + 5))).2).1
       = NoSession.
Proof.
  cbv zeta.
  apply (login_starts_session (fun _ => true)
           (mkLocalStorage (Some [alice; bob])
              (Some (<["7" := hashPassword "wonderland"]> ∅)) None None)
           advancing 0 5 "alice@example.com" "wonderland").
  vm_compute. reflexivity.
Defined.

Lemma findByEmail_world (email : string) (w : World) :
  (UserManager.findByEmail email w).2 = w.
Proof. now destruct w as [[|ls] tl n]. Qed.

Lemma users_of_browser (ls : LocalStorage) (tl : nat -> Z) (n : nat) :
  users_of (mkWorld (Browser ls) tl n) = default [] (saas_users ls).
Proof. reflexivity. Qed.

Lemma signup_run (isEmail : string -> bool) (data : SignupForm.t)
    (ls : LocalStorage) (tl : nat -> Z) (n : nat) :
  let w := mkWorld (Browser ls) tl n in
  let users := default [] (saas_users ls) in
  let newUser :=
    User.mk (JS.toString (tl n)) (SignupForm.email data) (SignupForm.name data)
      (if (length users =? 0)%nat then admin else user)
      (tl (S n)) (tl (S (S n))) in
  let saved :=
    set_saas_passwords
      (<[User.id newUser := hashPassword (SignupForm.password data)]>
         (default ∅ (saas_passwords ls)))
      (set_saas_users (users ++ [newUser]) ls) in
  let token :=
    (generateToken newUser (mkWorld (Browser saved) tl (S (S (S n))))).1 in
  signup isEmail data w
  = if signupSchema isEmail data then
      match List.find (fun u => String.eqb (User.email u) (SignupForm.email data))
              users with
      | Some _ => (false, w)
      | None =>
          (true,
           mkWorld (Browser (set_auth_token (Some token) saved)) tl
             (S (S (S (S n)))))
      end
    else (false, w).
Proof.
  cbv zeta. unfold signup. destruct (signupSchema isEmail data); [|reflexivity].
  unfold UserManager.findByEmail, UserManager.getUsers. run_M.
  destruct (List.find _ _); [reflexivity|].
  rewrite addUser_run. cbn [User.id].
  rewrite savePassword_run by apply toString_not_proto.
  rewrite (surjective_pairing (generateToken _ _)), generateToken_world.
  reflexivity.
Qed.

Lemma find_app_new {A : Type} (p : A -> bool) (l : list A) (x : A) :
  List.find p l = None -> p x = true -> List.find p (l ++ [x]) = Some x.
Proof.
  intros Hnone Hx. rewrite find_app_skip.
  - cbn. now rewrite Hx.
  - intros y Hy. apply (List.find_none _ _ Hnone). now apply list_elem_of_In.
Qed.

Lemma login_after_signup (isEmail : string -> bool) (email password candidate : string)
    (ls : LocalStorage) (tl : nat -> Z) (m : nat) (u : User.t) :
  isEmail email = true ->
  (6 <= String.length password)%nat ->
  List.find (fun u => String.eqb (User.email u) email) (default [] (saas_users ls))
  = Some u ->
  default ∅ (saas_passwords ls) !! User.id u = Some (hashPassword password) ->
  (login isEmail email candidate (mkWorld (Browser ls) tl m)).1 = true
  <-> candidate = password.
Proof.
  intros Hemail Hlen Hfound Hhash. rewrite login_run, Hfound.
  rewrite verifyUserPassword_passwords, passwords_of_browser, Hhash.
  rewrite hashPassword_truthy. cbn [andb]. unfold loginSchema. rewrite Hemail.
  cbn [andb]. split.
  - destruct (6 <=? String.length candidate)%nat; [|discriminate].
    destruct (verifyPassword candidate (hashPassword password)) eqn:Hv; [|discriminate].
    intros _. now apply verifyPassword_iff.
  - intros ->. apply Nat.leb_le in Hlen. rewrite Hlen.
    now rewrite (proj2 (verifyPassword_iff password password) eq_refl).
Qed.

(** X6.  [signup] with a form the schema accepts (a name of two code units
    or more, an email that passes zod's test, a password of six or more, the
    confirmation equal to it) and an email no stored user has, the email and
    the password being of code units up to 0xFF, which are the strings
    [btoa] takes.  (On a password with another code unit [hashPassword]
    throws after the user is stored, and [signup] returns [false].) In the
    browser it returns [true] and puts one user at the end of the stored
    users: the id is the clock's reading, name and email are the form's, the
    role is [admin] when no user was stored and [user] otherwise.
    Afterwards [findByEmail] finds that user; [verifyUserPassword] accepts
    for the user's id the form's password and nothing else; [login] with the
    email returns [true] for that password and for no other; [getUser] gives
    the new user's session until the token expires; and the records are
    stored as before. *)
Theorem signup_creates_account :
  forall (isEmail : string -> bool) (ls : LocalStorage) (tl : nat -> Z) (n k : nat)
         (data : SignupForm.t),
    let w := mkWorld (Browser ls) tl n in
    let users := default [] (saas_users ls) in
    let after := (signup isEmail data w).2 in
    let later := mkWorld (env after) tl (n + 4 + k) in
    signupSchema isEmail data = true ->
    List.find (fun u => String.eqb (User.email u) (SignupForm.email data)) users
    = None ->
    exists newUser,
      (signup isEmail data w).1 = true
      /\ users_of after = users ++ [newUser]
      /\ User.id newUser = JS.toString (tl n)
      /\ User.name newUser = SignupForm.name data
      /\ User.email newUser = SignupForm.email data
      /\ User.role newUser = match users with [] => admin | _ :: _ => user end
      /\ (UserManager.findByEmail (SignupForm.email data) later).1 = Some newUser
      /\ (forall candidate,
            (PasswordManager.verifyUserPassword (User.id newUser) candidate later).1
            = true
            <-> candidate = SignupForm.password data)
      /\ (forall candidate,
            (login isEmail (SignupForm.email data) candidate later).1 = true
            <-> candidate = SignupForm.password data)
      /\ (exists token,
            (authStorage.getToken later).1 = Some token
            /\ (authStorage.getUser later).1
               = if tl (n + 3)%nat + 24 * 60 * 60 * 1000 <? tl (n + 4 + k)%nat
                 then NoSession
                 else Session
                        (AuthUser.mk (User.id newUser) (User.email newUser) ""
                           (User.role newUser) token))
      /\ records_of after = records_of w.
Proof.
  intros isEmail ls tl n k data w users after later Hschema Hnew.
  unfold later, after, w. rewrite signup_run, Hschema. fold users. rewrite Hnew.
  cbn [fst snd env].
  set (newUser :=
         User.mk (JS.toString (tl n)) (SignupForm.email data) (SignupForm.name data)
           (if (length users =? 0)%nat then admin else user)
           (tl (S n)) (tl (S (S n)))).
  set (saved := set_saas_passwords _ _).
  set (token := (generateToken newUser _).1).
  assert (Hfind :
            List.find (fun u => String.eqb (User.email u) (SignupForm.email data))
              (users ++ [newUser]) = Some newUser).
  { apply find_app_new; [exact Hnew|]. apply String.eqb_refl. }
  unfold signupSchema in Hschema.
  apply andb_true_iff in Hschema as [Hschema Hconfirm].
  apply andb_true_iff in Hschema as [Hschema Hlen].
  apply andb_true_iff in Hschema as [_ Hemail].
  apply Nat.leb_le in Hlen.
  exists newUser.
  split; [reflexivity|]. split; [reflexivity|]. split; [reflexivity|].
  split; [reflexivity|]. split; [reflexivity|].
  split; [now destruct users|].
  split; [rewrite findByEmail_users; exact Hfind|].
  split; [|split; [|split; [|reflexivity]]].
  - intros candidate. rewrite verifyUserPassword_passwords, passwords_of_browser.
    unfold saved. stored. rewrite lookup_insert_eq, hashPassword_truthy.
    apply verifyPassword_iff.
  - intros candidate. apply (login_after_signup _ _ _ _ _ _ _ newUser).
    + exact Hemail.
    + exact Hlen.
    + exact Hfind.
    + unfold saved. stored. apply lookup_insert_eq.
  - exists token. split; [reflexivity|].
    unfold token. rewrite getUser_generated. cbn [timeline ticks].
    replace (S (S (S n))) with (n + 3)%nat by lia. reflexivity.
Qed.

Lemma signup_creates_account_witness :
  let w := mkWorld (Browser exampleStorage) advancing 0 in
  let after := (signup (fun _ => true) signupCarol w).2 in
  let later := mkWorld (env after) advancing (0 + 4 + 2) in
  exists newUser,
    (signup (fun _ => true) signupCarol w).1 = true
    /\ users_of after = [alice; bob] ++ [newUser]
    /\ User.id newUser = "1000"
    /\ User.name newUser = "Carol"
    /\ User.email newUser = "carol@example.com"
    /\ User.role newUser = user
    /\ (UserManager.findByEmail "carol@example.com" later).1 = Some newUser
    /\ (forall candidate,
          (PasswordManager.verifyUserPassword (User.id newUser) candidate later).1
          = true
          <-> candidate = "secret1")
    /\ (forall candidate,
          (login (fun _ => true) "carol@example.com" candidate later).1 = true
          <-> candidate = "secret1")
    /\ (exists token,
          (authStorage.getToken later).1 = Some token
          /\ (authStorage.getUser later).1
             = if advancing (0 + 3)%nat + 24 * 60 * 60 * 1000
                  <? advancing (0 + 4 + 2)%nat
               then NoSession
               else Session
                      (AuthUser.mk (User.id newUser) (User.email newUser) ""
                         (User.role newUser) token))
    /\ records_of after = [recordA; recordB].
Proof.
  cbv zeta.
  apply (signup_creates_account (fun _ => true) exampleStorage advancing 0 2
           signupCarol); reflexivity.
Defined.

(** X7.  [signup] refuses, returning [false] and leaving the store and the
    clock untouched, whenever the name has fewer than two code units, the
    email does not pass zod's test, the password has fewer than six code
    units, the confirmation differs from the password, or [findByEmail]
    finds a user with the email. *)
Theorem signup_refuses :
  forall (isEmail : string -> bool) (data : SignupForm.t) (w : World),
    (String.length (SignupForm.name data) < 2)%nat
    \/ isEmail (SignupForm.email data) = false
    \/ (String.length (SignupForm.password data) < 6)%nat
    \/ SignupForm.password data <> SignupForm.confirmPassword data
    \/ (exists u, (UserManager.findByEmail (SignupForm.email data) w).1 = Some u) ->
    signup isEmail data w = (false, w).
Proof.
  intros isEmail data w Hwhy. unfold signup.
  destruct (signupSchema isEmail data) eqn:Hschema; [|reflexivity].
  unfold signupSchema in Hschema.
  apply andb_true_iff in Hschema as [Hschema Hconfirm].
  apply andb_true_iff in Hschema as [Hschema Hlen].
  apply andb_true_iff in Hschema as [Hname Hemail].
  apply Nat.leb_le in Hlen, Hname. apply String.eqb_eq in Hconfirm.
  destruct Hwhy as [H|[H|[H|[H|[u Hu]]]]]; try lia; try congruence.
  unfold mbind, M_bind.
  rewrite (surjective_pairing (UserManager.findByEmail _ w)), Hu, findByEmail_world.
  reflexivity.
Qed.

Lemma signup_refuses_witness :
  let w := mkWorld (Browser exampleStorage) advancing 0 in
  signup (fun _ => true)
    (SignupForm.mk "Alice Again" "alice@example.com" "secret3" "secret3") w
  = (false, w).
Proof.
  cbv zeta. apply signup_refuses. do 4 right. exists alice. reflexivity.
Defined.

(** ** Updating a user; updating what is not there *)

Lemma updateUser_run (id : string) (updates : PartialUser.t)
    (ls : LocalStorage) (tl : nat -> Z) (n : nat) :
  let users := default [] (saas_users ls) in
  UserManager.updateUser id updates (mkWorld (Browser ls) tl n)
  = match findIndex (fun u => String.eqb (User.id u) id) users with
    | None => (false, mkWorld (Browser ls) tl n)
    | Some index =>
        (true,
         mkWorld
           (Browser
              (set_saas_users
                 (alter (UserManager.merge updates (tl n)) index users) ls))
           tl (S n))
    end.
Proof.
  cbn. unfold UserManager.updateUser, UserManager.getUsers. run_M.
  destruct (findIndex _ _); reflexivity.
Qed.

(** X8.  In the browser, for an id some stored user has, [updateUser id
    updates] returns [true], reads the clock once and rewrites one position
    of the stored users, the first one holding that id.  Each field of the
    user there, the id and [createdAt] included, is the one the updates
    give, or the old one when they give none; except [updatedAt], which is
    the clock's reading whatever the updates give.  The list keeps its
    length and every other position its user; the records, the passwords and
    the token are stored as before. *)
Theorem updateUser_merges :
  forall (ls : LocalStorage) (tl : nat -> Z) (n : nat)
         (id : string) (updates : PartialUser.t),
    let w := mkWorld (Browser ls) tl n in
    let users := default [] (saas_users ls) in
    (exists u, u ∈ users /\ User.id u = id) ->
    exists (index : nat) (old new : User.t) (users' : list User.t),
      UserManager.updateUser id updates w
      = (true, mkWorld (Browser (set_saas_users users' ls)) tl (S n))
      /\ users !! index = Some old
      /\ User.id old = id
      /\ (forall j u, (j < index)%nat -> users !! j = Some u -> User.id u <> id)
      /\ users' !! index = Some new
      /\ User.id new = default (User.id old) (PartialUser.id updates)
      /\ User.email new = default (User.email old) (PartialUser.email updates)
      /\ User.name new = default (User.name old) (PartialUser.name updates)
      /\ User.role new = default (User.role old) (PartialUser.role updates)
      /\ User.createdAt new
         = default (User.createdAt old) (PartialUser.createdAt updates)
      /\ User.updatedAt new = tl n
      /\ length users' = length users
      /\ (forall j, j <> index -> users' !! j = users !! j).
Proof.
  intros ls tl n id updates w users Hpresent.
  destruct (findIndex_present (fun u => String.eqb (User.id u) id) users)
    as [index Hindex].
  { destruct Hpresent as (u & Hu & E). exists u. split; [assumption|].
    now apply String.eqb_eq. }
  destruct (findIndex_Some _ _ _ Hindex) as (old & Hold & Hid & Hfirst).
  apply String.eqb_eq in Hid.
  exists index, old, (UserManager.merge updates (tl n) old),
    (alter (UserManager.merge updates (tl n)) index users).
  split; [|split; [|split; [|split; [|split]]]].
  - unfold w. rewrite updateUser_run. fold users. now rewrite Hindex.
  - exact Hold.
  - exact Hid.
  - intros j u Hj Hu E. apply String.eqb_eq in E.
    rewrite (Hfirst j u Hj Hu) in E. discriminate.
  - rewrite list_lookup_alter, Hold. now case_decide.
  - do 6 (split; [reflexivity|]). split.
    + apply length_alter.
    + intros j Hj. now apply list_lookup_alter_ne.
Qed.

Lemma updateUser_merges_witness :
  let w := mkWorld (Browser exampleStorage) advancing 0 in
  let updates :=
    PartialUser.mk None None (Some "Robert") (Some admin) None (Some 0) in
  exists (index : nat) (old new : User.t) (users' : list User.t),
    UserManager.updateUser "8" updates w
    = (true, mkWorld (Browser (set_saas_users users' exampleStorage)) advancing 1)
    /\ [alice; bob] !! index = Some old
    /\ User.id old = "8"
    /\ (forall j u, (j < index)%nat -> [alice; bob] !! j = Some u -> User.id u <> "8")
    /\ users' !! index = Some new
    /\ User.id new = default (User.id old) (PartialUser.id updates)
    /\ User.email new = default (User.email old) (PartialUser.email updates)
    /\ User.name new = default (User.name old) (PartialUser.name updates)
    /\ User.role new = default (User.role old) (PartialUser.role updates)
    /\ User.createdAt new
       = default (User.createdAt old) (PartialUser.createdAt updates)
    /\ User.updatedAt new = advancing 0
    /\ length users' = length [alice; bob]
    /\ (forall j, j <> index -> users' !! j = [alice; bob] !! j).
Proof.
  cbv zeta.
  apply (updateUser_merges exampleStorage advancing 0 "8"
           (PartialUser.mk None None (Some "Robert") (Some admin) None (Some 0))).
  exists bob. split; [|reflexivity]. cbn. right. left.
Defined.

(** X9.  An update of an id that is not there changes nothing.  When no
    stored user has the id, [updateUser] returns [false]; when no stored
    record has it, [updateRecord] returns [false]; in both cases the store
    is as it was and the clock has not been read.  This is so in every
    world, the server included. *)
Theorem update_of_missing_id :
  forall (id : string) (w : World),
    (forall updates,
        (forall u, u ∈ users_of w -> User.id u <> id) ->
        UserManager.updateUser id updates w = (false, w))
    /\ (forall updates,
          (forall r, r ∈ records_of w -> DataRecord.id r <> id) ->
          DataManager.updateRecord id updates w = (false, w)).
Proof.
  intros id w. split; intros updates Habsent.
  - assert (Hnone : findIndex (fun u => String.eqb (User.id u) id) (users_of w) = None).
    { apply findIndex_absent. intros u Hu. apply String.eqb_neq. now apply Habsent. }
    destruct w as [[|ls] tl n]; [reflexivity|].
    rewrite updateUser_run. rewrite users_of_browser in Hnone. now rewrite Hnone.
  - assert (Hnone :
              findIndex (fun r => String.eqb (DataRecord.id r) id) (records_of w) = None).
    { apply findIndex_absent. intros r Hr. apply String.eqb_neq. now apply Habsent. }
    destruct w as [[|ls] tl n]; [reflexivity|].
    rewrite updateRecord_run. rewrite records_of_browser in Hnone. now rewrite Hnone.
Qed.

(** ** Adding records and reading them back *)

Lemma getRecordById_records (id : string) (w : World) :
  (DataManager.getRecordById id w).1
  = List.find (fun r => String.eqb (DataRecord.id r) id) (records_of w).
Proof. now destruct w as [[|ls] tl n]. Qed.

Lemma getUserRecordCount_records (userId : string) (w : World) :
  (DataManager.getUserRecordCount userId w).1
  = length (List.filter (fun r => String.eqb (DataRecord.userId r) userId)
              (records_of w)).
Proof. now destruct w as [[|ls] tl n]. Qed.

Lemma find_app_first {A : Type} (p : A -> bool) (l1 l2 : list A) :
  List.find p (l1 ++ l2)
  = match List.find p l1 with Some x => Some x | None => List.find p l2 end.
Proof.
  induction l1 as [|a l1 IH]; cbn; [reflexivity|]. now destruct (p a).
Qed.

(** X10.  In the browser, for a form whose value the store keeps as it is (a
    finite number other than the negative zero:  JSON writes NaN and the
    infinities as [null] and the negative zero as [0]), [addRecord userId
    data] returns a record with the form's fields, that user id, the clock's
    reading as id, and puts it at the end of the stored records.  Afterwards
    [getRecordsByUserId userId] gives what it gave before followed by the
    new record, and for any other user what it gave before;
    [getUserRecordCount] is one more for that user and unchanged for the
    others; [getRecordById] with the new record's id finds the new record,
    unless an older record has that id (two records made within one
    millisecond share one), and then it finds the older one. *)
Theorem addRecord_then_read :
  forall (ls : LocalStorage) (tl : nat -> Z) (n : nat)
         (userId : string) (data : DataForm.t),
    let w := mkWorld (Browser ls) tl n in
    let new := (DataManager.addRecord userId data w).1 in
    let w' := (DataManager.addRecord userId data w).2 in
    JSON_keeps (DataForm.value data) = true ->
    new
    = DataRecord.mk (JS.toString (tl n)) userId
        (DataForm.title data) (DataForm.description data) (DataForm.category data)
        (DataForm.value data) (DataForm.status data) (tl (S n)) (tl (S (S n)))
    /\ records_of w' = records_of w ++ [new]
    /\ (DataManager.getRecordsByUserId userId w').1
       = (DataManager.getRecordsByUserId userId w).1 ++ [new]
    /\ (forall other, other <> userId ->
          (DataManager.getRecordsByUserId other w').1
          = (DataManager.getRecordsByUserId other w).1)
    /\ (DataManager.getUserRecordCount userId w').1
       = S (DataManager.getUserRecordCount userId w).1
    /\ (forall other, other <> userId ->
          (DataManager.getUserRecordCount other w').1
          = (DataManager.getUserRecordCount other w).1)
    /\ (DataManager.getRecordById (DataRecord.id new) w').1
       = match (DataManager.getRecordById (DataRecord.id new) w).1 with
         | Some older => Some older
         | None => Some new
         end
    /\ users_of w' = users_of w
    /\ passwords_of w' = passwords_of w.
Proof.
  intros ls tl n userId data w new w' _.
  unfold new, w', w. rewrite addRecord_run. cbn [fst snd].
  set (r := DataRecord.mk _ _ _ _ _ _ _ _ _).
  rewrite !getRecordsByUserId_records, !getUserRecordCount_records,
    !getRecordById_records, !records_of_browser.
  stored. set (records := default [] (saas_data_records ls)).
  split; [reflexivity|]. split; [reflexivity|].
  rewrite !List.filter_app, find_app_first. cbn [List.filter List.find].
  change (DataRecord.userId r) with userId. change (DataRecord.id r) with (JS.toString (tl n)).
  rewrite !String.eqb_refl.
  split; [reflexivity|]. split; [|split; [|split; [|split; [|split; reflexivity]]]].
  - intros other Hother. rewrite getRecordsByUserId_records, records_of_browser.
    stored. fold records. rewrite List.filter_app. cbn [List.filter].
    change (DataRecord.userId r) with userId.
    rewrite (proj2 (String.eqb_neq userId other)) by congruence.
    now rewrite app_nil_r.
  - rewrite length_app. cbn. lia.
  - intros other Hother.
    rewrite !getUserRecordCount_records, !records_of_browser.
    stored. fold records. rewrite List.filter_app. cbn [List.filter].
    change (DataRecord.userId r) with userId.
    rewrite (proj2 (String.eqb_neq userId other)) by congruence.
    now rewrite app_nil_r.
  - reflexivity.
Qed.

Lemma addRecord_then_read_witness :
  let w := mkWorld (Browser exampleStorage) advancing 0 in
  let new := (DataManager.addRecord "u2" formA w).1 in
  let w' := (DataManager.addRecord "u2" formA w).2 in
  new = DataRecord.mk "1000" "u2" "A" "first" "Finance" 10%float active 1001 1002
  /\ records_of w' = records_of w ++ [new]
  /\ (DataManager.getRecordsByUserId "u2" w').1
     = (DataManager.getRecordsByUserId "u2" w).1 ++ [new]
  /\ (forall other, other <> "u2" ->
        (DataManager.getRecordsByUserId other w').1
        = (DataManager.getRecordsByUserId other w).1)
  /\ (DataManager.getUserRecordCount "u2" w').1
     = S (DataManager.getUserRecordCount "u2" w).1
  /\ (forall other, other <> "u2" ->
        (DataManager.getUserRecordCount other w').1
        = (DataManager.getUserRecordCount other w).1)
  /\ (DataManager.getRecordById (DataRecord.id new) w').1
     = match (DataManager.getRecordById (DataRecord.id new) w).1 with
       | Some older => Some older
       | None => Some new
       end
  /\ users_of w' = users_of w
  /\ passwords_of w' = passwords_of w.
Proof.
  cbv zeta.
  apply (addRecord_then_read exampleStorage advancing 0 "u2" formA).
  reflexivity.
Defined.

(** ** The sample data *)

Lemma forEach_cons {A : Type} (f : A -> M unit) (x : A) (l : list A) (w : World) :
  forEach f (x :: l) w = forEach f l (f x w).2.
Proof. cbn [forEach]. unfold mbind, M_bind. now destruct (f x w). Qed.

Lemma addRecords_run (userId : string) (forms : list DataForm.t) :
  forall (ls : LocalStorage) (tl : nat -> Z) (n : nat),
    let new := imap (fun k => record_at tl userId (n + 3 * k)) forms in
    forEach (fun data => _ ← DataManager.addRecord userId data; mret tt) forms
      (mkWorld (Browser ls) tl n)
    = (tt,
       mkWorld
         (Browser
            match forms with
            | [] => ls
            | _ :: _ =>
                set_saas_data_records (default [] (saas_data_records ls) ++ new) ls
            end)
         tl (n + 3 * length forms)).
Proof.
  induction forms as [|data rest IH]; intros ls tl n; cbv zeta.
  - cbn. now replace (n + 0)%nat with n by lia.
  - rewrite forEach_cons.
    replace ((_ ← DataManager.addRecord userId data; mret tt)
               (mkWorld (Browser ls) tl n)).2
      with (DataManager.addRecord userId data (mkWorld (Browser ls) tl n)).2
      by (unfold mbind, M_bind; now destruct (DataManager.addRecord _ _ _)).
    rewrite addRecord_run. cbn [fst snd]. rewrite IH. f_equal.
    replace (S (S (S n)) + 3 * length rest)%nat
      with (n + 3 * length (data :: rest))%nat by (cbn [length]; lia).
    f_equal. f_equal.
    assert (Hnew :
              imap (fun k => record_at tl userId (n + 3 * k)) (data :: rest)
              = record_at tl userId n data
                :: imap (fun k => record_at tl userId (S (S (S n)) + 3 * k)) rest).
    { cbn [imap]. f_equal.
      - now replace (n + 3 * 0)%nat with n by lia.
      - apply imap_ext. intros k x _. cbn. f_equal. lia. }
    rewrite Hnew.
    assert (Hfirst :
              DataRecord.mk (JS.toString (tl n)) userId (DataForm.title data)
                (DataForm.description data) (DataForm.category data)
                (DataForm.value data) (DataForm.status data) (tl (S n))
                (tl (S (S n)))
              = record_at tl userId n data).
    { unfold record_at. now replace (n + 1)%nat with (S n) by lia;
        replace (n + 2)%nat with (S (S n)) by lia. }
    rewrite Hfirst. destruct rest as [|data' rest].
    + reflexivity.
    + stored. now rewrite <- app_assoc.
Qed.

(** X11.  In the browser, [generateSampleData userId] puts five records at
    the end of the stored records, made from the five sample forms in their
    order, all for [userId]; the record at position [k] of the five has the
    clock's readings [n + 3 k], [n + 3 k + 1] and [n + 3 k + 2] as id,
    [createdAt] and [updatedAt], so the clock is read fifteen times.
    [getUserRecordCount userId] is five more than before; the users are
    stored as before. *)
Theorem generateSampleData_adds_five :
  forall (ls : LocalStorage) (tl : nat -> Z) (n : nat) (userId : string),
    let w := mkWorld (Browser ls) tl n in
    let w' := (generateSampleData userId w).2 in
    exists new,
      records_of w' = records_of w ++ new
      /\ map form_of new = sampleRecords
      /\ (forall k r, new !! k = Some r ->
            DataRecord.userId r = userId
            /\ DataRecord.id r = JS.toString (tl (n + 3 * k)%nat)
            /\ DataRecord.createdAt r = tl (n + 3 * k + 1)%nat
            /\ DataRecord.updatedAt r = tl (n + 3 * k + 2)%nat)
      /\ (DataManager.getUserRecordCount userId w').1
         = ((DataManager.getUserRecordCount userId w).1 + 5)%nat
      /\ ticks w' = (n + 15)%nat
      /\ users_of w' = users_of w.
Proof.
  intros ls tl n userId w w'.
  exists (imap (fun k => record_at tl userId (n + 3 * k)) sampleRecords).
  assert (Hw' :
            w' = mkWorld
                   (Browser
                      (set_saas_data_records
                         (default [] (saas_data_records ls)
                          ++ imap (fun k => record_at tl userId (n + 3 * k))
                               sampleRecords) ls))
                   tl (n + 15)).
  { unfold w', w, generateSampleData. now rewrite addRecords_run. }
  rewrite Hw'. clear Hw'.
  split; [reflexivity|]. split; [reflexivity|]. split; [|split; [|split; reflexivity]].
  - intros k r Hr. apply list_lookup_imap_Some in Hr as (data & _ & ->).
    repeat split.
  - rewrite !getUserRecordCount_records, !records_of_browser. stored.
    rewrite List.filter_app, length_app. f_equal.
    cbn [imap sampleRecords List.filter record_at DataRecord.userId].
    now rewrite !String.eqb_refl.
Qed.

(** ** The administrator's dashboard: deleting a user and the user's records *)

Section not_in.
Context {A : Type} (key : A -> string).

Lemma filter_not_in (x : string) (ids : list string) (l : list A) :
  List.filter (fun r => bool_decide (key r ∉ ids))
    (List.filter (fun r => negb (String.eqb (key r) x)) l)
  = List.filter (fun r => bool_decide (key r ∉ x :: ids)) l.
Proof.
  induction l as [|a l IH]; [reflexivity|]. cbn.
  destruct (String.eqb_spec (key a) x) as [E|E]; cbn.
  - rewrite IH. rewrite (bool_decide_eq_false_2 (key a ∉ x :: ids)); [reflexivity|].
    intros H. apply H. rewrite E. left.
  - rewrite IH.
    destruct (decide (key a ∈ ids)) as [Hin|Hout].
    + rewrite (bool_decide_eq_false_2 (key a ∉ ids)) by tauto.
      rewrite (bool_decide_eq_false_2 (key a ∉ x :: ids)); [reflexivity|].
      intros H. apply H. now right.
    + rewrite (bool_decide_eq_true_2 (key a ∉ ids)) by assumption.
      rewrite (bool_decide_eq_true_2 (key a ∉ x :: ids)); [reflexivity|].
      intros H. apply elem_of_cons in H as [H|H]; [congruence|tauto].
Qed.

Lemma filter_not_in_nil (l : list A) :
  List.filter (fun r => bool_decide (key r ∉ [])) l = l.
Proof.
  induction l as [|a l IH]; [reflexivity|]. cbn.
  rewrite bool_decide_eq_true_2 by apply not_elem_of_nil. now rewrite IH.
Qed.

End not_in.

Lemma deleteRecord_browser (id : string) (ls : LocalStorage) (tl : nat -> Z) (n : nat) :
  exists ls',
    (DataManager.deleteRecord id (mkWorld (Browser ls) tl n)).2
    = mkWorld (Browser ls') tl n
    /\ default [] (saas_data_records ls')
       = List.filter (fun r => negb (String.eqb (DataRecord.id r) id))
           (default [] (saas_data_records ls))
    /\ saas_users ls' = saas_users ls
    /\ saas_passwords ls' = saas_passwords ls
    /\ auth_token ls' = auth_token ls.
Proof.
  rewrite deleteRecord_run. cbv zeta.
  destruct (Nat.eqb_spec
              (length (List.filter (fun r => negb (String.eqb (DataRecord.id r) id))
                         (default [] (saas_data_records ls))))
              (length (default [] (saas_data_records ls)))) as [E|E].
  - exists ls. split; [reflexivity|]. split; [|now repeat split].
    symmetry. apply (filter_absent DataRecord.id). intros x Hx Hid.
    pose proof (filter_present DataRecord.id id (default [] (saas_data_records ls))) as Hlt.
    cbv beta in Hlt. rewrite E in Hlt. apply Nat.lt_irrefl in Hlt; [exact Hlt|].
    now exists x.
  - eexists. split; [reflexivity|]. now repeat split.
Qed.

Lemma forEach_deleteRecord (l : list DataRecord.t) :
  forall (ls : LocalStorage) (tl : nat -> Z) (n : nat),
  exists ls',
    (forEach
       (fun record => _ ← DataManager.deleteRecord (DataRecord.id record); mret tt)
       l (mkWorld (Browser ls) tl n)).2
    = mkWorld (Browser ls') tl n
    /\ default [] (saas_data_records ls')
       = List.filter
           (fun r => bool_decide (DataRecord.id r ∉ map DataRecord.id l))
           (default [] (saas_data_records ls))
    /\ saas_users ls' = saas_users ls
    /\ saas_passwords ls' = saas_passwords ls
    /\ auth_token ls' = auth_token ls.
Proof.
  induction l as [|x l IH]; intros ls tl n.
  - exists ls. split; [reflexivity|]. split; [|now repeat split].
    cbn [map]. now rewrite (filter_not_in_nil DataRecord.id).
  - rewrite forEach_cons.
    replace ((_ ← DataManager.deleteRecord (DataRecord.id x); mret tt)
               (mkWorld (Browser ls) tl n)).2
      with (DataManager.deleteRecord (DataRecord.id x) (mkWorld (Browser ls) tl n)).2
      by (unfold mbind, M_bind; now destruct (DataManager.deleteRecord _ _)).
    destruct (deleteRecord_browser (DataRecord.id x) ls tl n)
      as (ls1 & -> & Hrecords1 & Husers1 & Hpasswords1 & Htoken1).
    destruct (IH ls1 tl n) as (ls2 & -> & Hrecords2 & Husers2 & Hpasswords2 & Htoken2).
    exists ls2. split; [reflexivity|].
    split; [|repeat split; congruence].
    rewrite Hrecords2, Hrecords1. cbn [map].
    apply (filter_not_in DataRecord.id).
Qed.

Lemma bind_run {A B : Type} (m : M A) (f : A -> M B) (w : World) :
  (m ≫= f) w = f (m w).1 (m w).2.
Proof. unfold mbind, M_bind. now destruct (m w). Qed.

Lemma getRecordsByUserId_world (userId : string) (w : World) :
  (DataManager.getRecordsByUserId userId w).2 = w.
Proof. now destruct w as [[|ls] tl n]. Qed.

Lemma loadData_run (w : World) :
  AdminDashboard.loadData w
  = (AdminDashboard.mkLoaded (records_of w) (users_of w)
       (AdminStats.mk (length (users_of w))
          (length (records_of w))
          (count_status active (records_of w))
          (count_status inactive (records_of w))),
     w).
Proof.
  destruct w as [[|ls] tl n]; cbn; [reflexivity|].
  unfold AdminDashboard.loadData, DataManager.getRecords, UserManager.getUsers. run_M.
  cbn [RecordStats.total RecordStats.active RecordStats.inactive DataUtils.getRecordStats].
  now rewrite !length_filter_status.
Qed.

Lemma handleDeleteUser_run (userId : string) (w : World) :
  let userRecords := (DataManager.getRecordsByUserId userId w).1 in
  let w1 :=
    (forEach
       (fun record => _ ← DataManager.deleteRecord (DataRecord.id record); mret tt)
       userRecords w).2 in
  let w2 := (UserManager.deleteUser userId w1).2 in
  AdminDashboard.handleDeleteUser true userId w = (Some (AdminDashboard.loadData w2).1, w2).
Proof.
  cbv zeta. unfold AdminDashboard.handleDeleteUser.
  rewrite !bind_run, getRecordsByUserId_world, loadData_run. reflexivity.
Qed.

(** X12.  What the delete-user handler of the dashboard does, once
    confirmed.  In the browser, the handler deletes by id each record the
    user has, then the user.  Afterwards the stored records are the old ones
    without those whose id is the id of one of the user's records, so none
    of that user's is left; a record of another user goes too when it shares
    its id with one of them, and when no id is shared between users exactly
    that user's records go.  The stored users are the old ones without those
    of that id.  The password map and the token are stored as before (the
    user's hash stays), and the clock is not read.  What the handler then
    loads is the store it left: the users, the records, and their counts.
    Not confirmed, the handler does nothing. *)
Theorem handleDeleteUser_cascades :
  forall (ls : LocalStorage) (tl : nat -> Z) (n : nat) (userId : string),
    let w := mkWorld (Browser ls) tl n in
    let records := default [] (saas_data_records ls) in
    let users := default [] (saas_users ls) in
    let ids :=
      map DataRecord.id
        (List.filter (fun r => String.eqb (DataRecord.userId r) userId) records) in
    let result := AdminDashboard.handleDeleteUser true userId w in
    let w' := result.2 in
    records_of w'
    = List.filter (fun r => bool_decide (DataRecord.id r ∉ ids)) records
    /\ (forall r, r ∈ records_of w' -> DataRecord.userId r <> userId)
    /\ ((forall r r', r ∈ records -> r' ∈ records ->
                      DataRecord.id r = DataRecord.id r' ->
                      DataRecord.userId r = DataRecord.userId r') ->
        records_of w'
        = List.filter (fun r => negb (String.eqb (DataRecord.userId r) userId))
            records)
    /\ users_of w' = List.filter (fun u => negb (String.eqb (User.id u) userId)) users
    /\ stored_passwords (env w') = saas_passwords ls
    /\ (authStorage.getToken w').1 = auth_token ls
    /\ timeline w' = tl
    /\ ticks w' = n
    /\ result.1
       = Some
           (AdminDashboard.mkLoaded (records_of w') (users_of w')
              (AdminStats.mk (length (users_of w')) (length (records_of w'))
                 (count_status active (records_of w'))
                 (count_status inactive (records_of w'))))
    /\ AdminDashboard.handleDeleteUser false userId w = (None, w).
Proof.
  intros ls tl n userId w records users ids result w'.
  assert (Hrun := handleDeleteUser_run userId w). cbv zeta in Hrun.
  rewrite getRecordsByUserId_records in Hrun.
  change (records_of w) with records in Hrun.
  destruct (forEach_deleteRecord
              (List.filter (fun r => String.eqb (DataRecord.userId r) userId) records)
              ls tl n)
    as (ls1 & Hw1 & Hrecords1 & Husers1 & Hpasswords1 & Htoken1).
  fold w in Hw1. rewrite Hw1 in Hrun. fold ids in Hrecords1.
  assert (Hw2 :
            exists ls2,
              (UserManager.deleteUser userId (mkWorld (Browser ls1) tl n)).2
              = mkWorld (Browser ls2) tl n
              /\ default [] (saas_users ls2)
                 = List.filter (fun u => negb (String.eqb (User.id u) userId)) users
              /\ saas_data_records ls2 = saas_data_records ls1
              /\ saas_passwords ls2 = saas_passwords ls1
              /\ auth_token ls2 = auth_token ls1).
  { rewrite deleteUser_run. cbv zeta. rewrite Husers1. fold users.
    destruct (Nat.eqb_spec
                (length (List.filter (fun u => negb (String.eqb (User.id u) userId)) users))
                (length users)) as [E|E].
    - exists ls1. split; [reflexivity|]. split; [|now repeat split].
      rewrite Husers1. fold users. symmetry.
      apply (filter_absent User.id). intros x Hx Hid.
      pose proof (filter_present User.id userId users) as Hlt.
      cbv beta in Hlt. rewrite E in Hlt. apply Nat.lt_irrefl in Hlt; [exact Hlt|].
      now exists x.
    - eexists. split; [reflexivity|]. now repeat split. }
  destruct Hw2 as (ls2 & Hw2 & Husers2 & Hrecords2 & Hpasswords2 & Htoken2).
  rewrite Hw2 in Hrun.
  assert (Hrecords : records_of w'
                     = List.filter (fun r => bool_decide (DataRecord.id r ∉ ids)) records).
  { unfold w', result. rewrite Hrun. cbn [snd]. rewrite records_of_browser.
    now rewrite Hrecords2. }
  assert (Hgone : forall r, r ∈ records_of w' -> DataRecord.userId r <> userId).
  { intros r Hr Huser. rewrite Hrecords in Hr.
    apply list_elem_of_In, filter_In in Hr as [Hr Hid].
    apply bool_decide_eq_true in Hid. apply Hid. unfold ids.
    apply list_elem_of_fmap. exists r. split; [reflexivity|].
    apply list_elem_of_In, filter_In. split; [exact Hr|]. now apply String.eqb_eq. }
  split; [exact Hrecords|]. split; [exact Hgone|].
  split.
  { intros Hshared. rewrite Hrecords. apply filter_ext_in. intros r Hr.
    apply list_elem_of_In in Hr.
    destruct (String.eqb_spec (DataRecord.userId r) userId) as [E|E]; cbn.
    - apply bool_decide_eq_false_2. intros Hout. apply Hout. unfold ids.
      apply list_elem_of_fmap. exists r. split; [reflexivity|].
      apply list_elem_of_In, filter_In. split; [now apply list_elem_of_In|].
      now apply String.eqb_eq.
    - apply bool_decide_eq_true_2. intros Hin. unfold ids in Hin.
      apply list_elem_of_fmap in Hin as (r' & Hid & Hr').
      apply list_elem_of_In, filter_In in Hr' as [Hr' Huser].
      apply String.eqb_eq in Huser. apply list_elem_of_In in Hr'.
      apply E. rewrite (Hshared r r' Hr Hr' Hid). exact Huser. }
  unfold w', result. rewrite Hrun. cbn [fst snd env timeline ticks stored_passwords].
  split; [rewrite users_of_browser; exact Husers2|].
  split; [congruence|].
  split; [change (auth_token ls2 = auth_token ls); congruence|].
  split; [reflexivity|]. split; [reflexivity|].
  split; [|reflexivity].
  now rewrite loadData_run.
Qed.

(** Two users whose records share an id: deleting the first user deletes
    the record of the second as well. *)
Lemma handleDeleteUser_shared_id :
  let mine := DataRecord.mk "1000" "u1" "A" "first" "Finance" 10%float active 1 2 in
  let theirs := DataRecord.mk "1000" "u2" "B" "second" "Sales" 20%float active 1 2 in
  let ls := mkLocalStorage (Some [alice; bob]) None (Some [mine; theirs]) None in
  records_of
    (AdminDashboard.handleDeleteUser true "u1" (mkWorld (Browser ls) advancing 0)).2
  = [].
Proof. reflexivity. Qed.


(** ** The two record filters *)

Lemma append_split (a b p q : string) (c : ascii) :
  a +:+ String c b = p +:+ q ->
  (exists m, p = a +:+ String c m /\ b = m +:+ q)
  \/ (exists m, a = p +:+ m /\ q = m +:+ String c b).
Proof.
  revert p. induction a as [|y a IH]; intros [|x p] E.
  - right. exists "". now rewrite !append_nil in *.
  - left. rewrite append_nil, append_cons in E. injection E as -> ->.
    exists p. now rewrite append_nil.
  - right. exists (String y a). now rewrite append_nil in *.
  - rewrite !append_cons in E. injection E as -> E.
    destruct (IH p E) as [(m & -> & ->)|(m & -> & ->)].
    + left. exists m. now rewrite append_cons.
    + right. exists m. now rewrite append_cons.
Qed.

Lemma includes_left (a b t : string) :
  JS.includes a t = true -> JS.includes (a +:+ b) t = true.
Proof.
  rewrite !includes_iff. intros (before & after & ->).
  exists before, (after +:+ b). now rewrite !append_assoc.
Qed.

Lemma includes_right (a b t : string) :
  JS.includes b t = true -> JS.includes (a +:+ b) t = true.
Proof.
  rewrite !includes_iff. intros (before & after & ->).
  exists (a +:+ before), after. now rewrite !append_assoc.
Qed.

(** A term without the character [c] that occurs in two texts joined by
    [c] occurs in one of them. *)
Lemma includes_joined (a b t : string) (c : ascii) :
  JS.includes t (String c "") = false ->
  JS.includes (a +:+ String c b) t = true ->
  JS.includes a t = true \/ JS.includes b t = true.
Proof.
  intros Hc. rewrite !includes_iff. intros (before & after & E).
  apply append_split in E as [(m & _ & ->)|(m & -> & E)].
  - right. now exists m, after.
  - symmetry in E. apply append_split in E as [(m' & -> & _)|(m' & -> & _)].
    + exfalso. apply not_true_iff_false in Hc. apply Hc.
      apply includes_iff. exists m, m'. now rewrite append_cons, append_nil.
    + left. now exists before, m'.
Qed.

Lemma lower_char_space (c : ascii) : JS.lower_char c = " "%char -> c = " "%char.
Proof. destruct c as [[] [] [] [] [] [] [] []]; cbv; congruence. Qed.

Lemma toLowerCase_no_space (t : string) :
  JS.includes t " " = false -> JS.includes (JS.toLowerCase t) " " = false.
Proof.
  intros Hnone. apply not_true_iff_false. intros Hsome.
  apply not_true_iff_false in Hnone. apply Hnone.
  apply includes_iff in Hsome as (before & after & E).
  apply toLowerCase_split in E as (before' & rest & -> & _ & E).
  apply toLowerCase_split in E as (space & after' & -> & Hspace & _).
  destruct space as [|c [|d space]]; try discriminate.
  cbn in Hspace. injection Hspace as Hc. apply lower_char_space in Hc as ->.
  apply includes_iff. now exists before', after'.
Qed.

Lemma searchableText_joined (record : DataRecord.t) :
  DataUtils.searchableText record
  = JS.toLowerCase (DataRecord.title record)
    +:+ String " "
          (JS.toLowerCase (DataRecord.description record)
           +:+ String " " (JS.toLowerCase (DataRecord.category record))).
Proof.
  unfold DataUtils.searchableText.
  rewrite toLowerCase_append, (append_cons " " ""), append_nil.
  cbn [JS.toLowerCase]. f_equal. f_equal.
  rewrite toLowerCase_append, (append_cons " " ""), append_nil.
  reflexivity.
Qed.

(** What the dashboard's filter asks of a record, against what
    [filterRecords] asks with the same status and search term. *)
Lemma dashboard_keeps (searchTerm : string)
    (statusFilter : AdminDashboard.StatusFilter) (record : DataRecord.t) :
  DataUtils.keeps (dashboard_filter searchTerm statusFilter) record
  = (String.eqb searchTerm ""
     || JS.includes (DataUtils.searchableText record) (JS.toLowerCase searchTerm))
    && match statusFilter with
       | AdminDashboard.all => true
       | AdminDashboard.only status =>
           RecordStatus_eqb (DataRecord.status record) status
       end.
Proof.
  cbv zeta. unfold DataUtils.keeps, dashboard_filter.
  cbn [FilterConfig.category FilterConfig.status FilterConfig.dateRange
         FilterConfig.search].
  destruct statusFilter as [|status]; [|destruct (RecordStatus_eqb _ _)];
    cbn [negb andb]; rewrite ?andb_true_r, ?andb_false_r; try reflexivity;
    destruct searchTerm as [|c t]; cbn [JS.truthy String.eqb andb orb];
    try reflexivity;
    now destruct (JS.includes _ _).
Qed.

Lemma filter_sublist_impl {A : Type} (p q : A -> bool) (l : list A) :
  (forall x, p x = true -> q x = true) ->
  sublist (List.filter p l) (List.filter q l).
Proof.
  intros Himpl. induction l as [|a l IH]; cbn; [constructor|].
  destruct (p a) eqn:Hp.
  - rewrite (Himpl a Hp). now constructor.
  - destruct (q a); [now constructor|exact IH].
Qed.

Lemma includes_cons (c : ascii) (b t : string) :
  JS.includes b t = true -> JS.includes (String c b) t = true.
Proof. intros H. cbn -[JS.startsWith]. rewrite H. apply orb_true_r. Qed.

(** X13.  The record filter of the administrator's dashboard looks for the
    search term in the title, in the description and in the category, one by
    one; [filterRecords] looks for it in the three joined by spaces.  So
    every record the dashboard shows for a search term and a status is one
    that [filterRecords] returns for the same term and status, in the same
    order; the dashboard shows no other. *)
Theorem filteredRecords_within_filterRecords :
  forall (records : list DataRecord.t) (searchTerm : string)
         (statusFilter : AdminDashboard.StatusFilter),
    sublist (AdminDashboard.filteredRecords records searchTerm statusFilter)
      (DataUtils.filterRecords records (dashboard_filter searchTerm statusFilter))
    /\ sublist (AdminDashboard.filteredRecords records searchTerm statusFilter)
         records.
Proof.
  intros records searchTerm statusFilter. split; [|apply filter_sublist].
  apply filter_sublist_impl. intros r Hr. rewrite dashboard_keeps.
  apply andb_true_iff in Hr as [Hsearch Hstatus]. rewrite Hstatus, andb_true_r.
  rewrite !orb_true_iff in Hsearch. apply orb_true_iff.
  destruct Hsearch as [[[Hempty|Htitle]|Hdescription]|Hcategory].
  - now left.
  - right. rewrite searchableText_joined. now apply includes_left.
  - right. rewrite searchableText_joined.
    apply includes_right, includes_cons. now apply includes_left.
  - right. rewrite searchableText_joined.
    now apply includes_right, includes_cons, includes_right, includes_cons.
Qed.

(** X14.  For a search term without a space the two filters agree: the
    dashboard shows exactly what [filterRecords] returns for the same term
    and status. *)
Theorem filteredRecords_agrees_without_space :
  forall (records : list DataRecord.t) (searchTerm : string)
         (statusFilter : AdminDashboard.StatusFilter),
    JS.includes searchTerm " " = false ->
    AdminDashboard.filteredRecords records searchTerm statusFilter
    = DataUtils.filterRecords records (dashboard_filter searchTerm statusFilter).
Proof.
  intros records searchTerm statusFilter Hspace.
  apply filter_ext. intros r. rewrite dashboard_keeps. f_equal.
  apply toLowerCase_no_space in Hspace.
  destruct (String.eqb searchTerm ""); [reflexivity|]. cbn [orb].
  rewrite searchableText_joined.
  destruct (JS.includes (_ +:+ _) _) eqn:Hjoined.
  - apply (includes_joined _ _ _ _ Hspace) in Hjoined as [->|Hrest];
      [reflexivity|].
    apply (includes_joined _ _ _ _ Hspace) in Hrest as [->| ->];
      now rewrite ?orb_true_r.
  - apply not_true_iff_false in Hjoined.
    destruct (JS.includes (JS.toLowerCase (DataRecord.title r)) _) eqn:Htitle.
    { exfalso. apply Hjoined. now apply includes_left. }
    destruct (JS.includes (JS.toLowerCase (DataRecord.description r)) _) eqn:Hd.
    { exfalso. apply Hjoined. apply includes_right, includes_cons.
      now apply includes_left. }
    destruct (JS.includes (JS.toLowerCase (DataRecord.category r)) _) eqn:Hc.
    { exfalso. apply Hjoined.
      now apply includes_right, includes_cons, includes_right, includes_cons. }
    reflexivity.
Qed.

Lemma filteredRecords_agrees_without_space_witness :
  AdminDashboard.filteredRecords [recordA; recordB; recordABCD] "FIN"
    (AdminDashboard.only active)
  = DataUtils.filterRecords [recordA; recordB; recordABCD]
      (dashboard_filter "FIN" (AdminDashboard.only active)).
Proof. apply filteredRecords_agrees_without_space. reflexivity. Defined.

(** A term with a space that [filterRecords] finds across two fields and
    the dashboard does not find in any one. *)
Lemma filteredRecords_space_example :
  DataUtils.filterRecords [recordABCD] (dashboard_filter "ab cd" AdminDashboard.all)
  = [recordABCD]
  /\ AdminDashboard.filteredRecords [recordABCD] "ab cd" AdminDashboard.all = [].
Proof. split; reflexivity. Qed.

(** ** The categories in use *)

Lemma existsb_eqb (x : string) (set : list string) :
  existsb (String.eqb x) set = true <-> x ∈ set.
Proof.
  rewrite existsb_exists. split.
  - intros (y & Hy & E). apply String.eqb_eq in E as ->. now apply list_elem_of_In.
  - intros Hx. exists x. split; [now apply list_elem_of_In|apply String.eqb_refl].
Qed.

Lemma Set_of_from (l set : list string) :
  NoDup set ->
  NoDup (fold_left Array.add l set)
  /\ (forall x, x ∈ fold_left Array.add l set <-> x ∈ set \/ x ∈ l).
Proof.
  revert set. induction l as [|a l IH]; intros set Hset; cbn [fold_left].
  - split; [exact Hset|]. intros x. rewrite elem_of_nil. tauto.
  - unfold Array.add at 2 4. destruct (existsb (String.eqb a) set) eqn:Ha.
    + apply existsb_eqb in Ha. destruct (IH set Hset) as [Hnodup Hin].
      split; [exact Hnodup|]. intros x. rewrite Hin, elem_of_cons.
      split; [tauto|]. intros [H|[->|H]]; tauto.
    + assert (Hout : a ∉ set).
      { intros Hin. apply existsb_eqb in Hin. congruence. }
      destruct (IH (set ++ [a])) as [Hnodup Hin].
      { apply NoDup_app. split; [exact Hset|]. split; [|apply NoDup_singleton].
        intros x Hx Hxa. apply list_elem_of_singleton in Hxa as ->. tauto. }
      split; [exact Hnodup|]. intros x.
      rewrite Hin, elem_of_app, list_elem_of_singleton, elem_of_cons. tauto.
Qed.

Lemma defaultCompare_le (x y : string) :
  Array.defaultCompare x y <= 0 <-> JS.string_lt y x = false.
Proof.
  unfold Array.defaultCompare.
  pose proof (lt_asym _ _ string_order x y) as Hasym.
  destruct (JS.string_lt x y), (JS.string_lt y x); split; try lia; try congruence.
Qed.

(** Two lists in strictly increasing order with the same members are the
    same list. *)
Lemma increasing_unique (l1 l2 : list string) :
  StronglySorted (fun a b => JS.string_lt a b = true) l1 ->
  StronglySorted (fun a b => JS.string_lt a b = true) l2 ->
  (forall x, x ∈ l1 <-> x ∈ l2) ->
  l1 = l2.
Proof.
  intros H1. revert l2. induction H1 as [|a l1 H1 IH Ha]; intros l2 H2 Hsame.
  - destruct l2 as [|b l2]; [reflexivity|].
    exfalso. apply (not_elem_of_nil b), Hsame. left.
  - destruct H2 as [|b l2 H2 Hb].
    { exfalso. apply (not_elem_of_nil a), Hsame. left. }
    rewrite Forall_forall in Ha, Hb.
    assert (Hirrefl : forall x, JS.string_lt x x = true -> False).
    { intros x Hx. rewrite string_lt_irrefl in Hx. discriminate. }
    assert (E : a = b).
    { assert (Hab : a ∈ b :: l2) by (apply Hsame; left).
      assert (Hba : b ∈ a :: l1) by (apply Hsame; left).
      apply elem_of_cons in Hab as [E|Hab]; [exact E|].
      apply elem_of_cons in Hba as [E|Hba]; [now symmetry|].
      exfalso. apply (Hirrefl a).
      apply (string_lt_trans a b a).
      - now apply Ha.
      - now apply Hb. }
    subst b. f_equal. apply IH; [exact H2|].
    intros x. split; intros Hx.
    + assert (Hx' : x ∈ a :: l2) by (apply Hsame; now right).
      apply elem_of_cons in Hx' as [->|Hx']; [|exact Hx'].
      exfalso. now apply (Hirrefl a), Ha.
    + assert (Hx' : x ∈ a :: l1) by (apply Hsame; now right).
      apply elem_of_cons in Hx' as [->|Hx']; [|exact Hx'].
      exfalso. now apply (Hirrefl a), Hb.
Qed.

Lemma increasing_of_sorted (l : list string) :
  NoDup l ->
  StronglySorted (fun a b => JS.string_lt b a = false) l ->
  StronglySorted (fun a b => JS.string_lt a b = true) l.
Proof.
  intros Hnodup Hsorted. induction Hsorted as [|a l Hsorted IH Ha].
  - constructor.
  - apply NoDup_cons in Hnodup as [Hout Hnodup]. constructor; [now apply IH|].
    rewrite Forall_forall in *. intros x Hx.
    destruct (JS.string_lt a x) eqn:Hax; [reflexivity|].
    exfalso. apply Hout.
    now rewrite (string_lt_trichotomy a x Hax (Ha x Hx)).
Qed.

Lemma getUniqueCategories_members (records : list DataRecord.t) (c : string) :
  c ∈ DataUtils.getUniqueCategories records
  <-> exists r, r ∈ records /\ DataRecord.category r = c.
Proof.
  unfold DataUtils.getUniqueCategories.
  rewrite <- (sort_perm Array.defaultCompare).
  unfold Array.Set_of.
  rewrite (proj2 (Set_of_from (map DataRecord.category records) [] (NoDup_nil_2)) c).
  rewrite elem_of_nil, list_elem_of_fmap. split.
  - intros [[]|(r & -> & Hr)]. now exists r.
  - intros (r & Hr & <-). right. now exists r.
Qed.

Lemma getUniqueCategories_increasing (records : list DataRecord.t) :
  StronglySorted (fun a b => JS.string_lt a b = true)
    (DataUtils.getUniqueCategories records).
Proof.
  apply increasing_of_sorted.
  - unfold DataUtils.getUniqueCategories.
    rewrite <- (sort_perm Array.defaultCompare).
    apply Set_of_from, NoDup_nil_2.
  - apply (sort_sorted JS.string_lt String.eqb);
      [apply string_order|apply defaultCompare_le|].
    apply Forall_forall. intros x _. apply String.eqb_refl.
Qed.

(** X15.  [getUniqueCategories] returns the categories of the records, each
    once, in strictly increasing order of their code units: a string is in
    the result exactly when it is the category of some record.  So the
    result depends only on which categories occur, not on how often or in
    which order, and it is empty for no records. *)
Theorem getUniqueCategories_sorted_distinct :
  forall (records : list DataRecord.t),
    let categories := DataUtils.getUniqueCategories records in
    StronglySorted (fun a b => JS.string_lt a b = true) categories
    /\ NoDup categories
    /\ (forall c, c ∈ categories
                  <-> exists r, r ∈ records /\ DataRecord.category r = c)
    /\ (forall records',
          (forall c, (exists r, r ∈ records /\ DataRecord.category r = c)
                     <-> (exists r, r ∈ records' /\ DataRecord.category r = c)) ->
          DataUtils.getUniqueCategories records' = categories)
    /\ DataUtils.getUniqueCategories [] = [].
Proof.
  intros records categories.
  split; [apply getUniqueCategories_increasing|].
  split.
  { unfold categories, DataUtils.getUniqueCategories.
    rewrite <- (sort_perm Array.defaultCompare). apply Set_of_from, NoDup_nil_2. }
  split; [apply getUniqueCategories_members|].
  split; [|reflexivity].
  intros records' Hsame. apply increasing_unique.
  - apply getUniqueCategories_increasing.
  - apply getUniqueCategories_increasing.
  - intros c. unfold categories. rewrite !getUniqueCategories_members.
    symmetry. apply Hsame.
Qed.

Lemma getUniqueCategories_example :
  DataUtils.getUniqueCategories [recordB; recordA; recordABCD; recordB]
  = ["E"; "Finance"; "Sales"].
Proof. reflexivity. Qed.

(** ** Sorting and filtering together *)





Section sorted_again.
Context {A : Type} (lt eq : A -> A -> bool) (cmp : A -> A -> Z).
Hypothesis order : strict_weak_on lt eq.
Hypothesis cmp_le : forall x y, cmp x y <= 0 <-> lt y x = false.



End sorted_again.





(** ** Importing rows *)

Lemma append_cancel_l (a b c : string) : a +:+ b = a +:+ c -> b = c.
Proof.
  induction a as [|x a IH]; [now rewrite !append_nil|].
  rewrite !append_cons. intros [= E]. now apply IH.
Qed.

Lemma import_message_inj (i j : nat) : import_message i = import_message j -> i = j.
Proof.
  unfold import_message, JS.toString. intros E.
  apply append_cancel_l, append_cancel_r in E.
  apply (inj pretty) in E. lia.
Qed.

Section import.
Context {Row : Type} (parseRow : Row -> option DataForm.t).

(** The message for a row that is refused, nothing for one that is
    accepted. *)
Let refused (index : nat) (row : Row) : option string :=
  match parseRow row with
  | Some _ => None
  | None => Some (import_message index)
  end.

Lemma importRow_fold (data : list Row) :
  forall (valid : list DataForm.t) (errors : list string) (index : nat),
    fold_left (importRow Row parseRow) data (valid, errors, index)
    = (valid ++ omap parseRow data,
       errors ++ omap id (imap (fun i row => refused (index + i) row) data),
       (index + length data)%nat).
Proof.
  induction data as [|row data IH]; intros valid errors index.
  - cbn. now rewrite !app_nil_r, Nat.add_0_r.
  - assert (Hshift :
              imap (fun i row => refused (S index + i) row) data
              = imap ((fun i row => refused (index + i) row) ∘ S) data).
    { apply imap_ext. intros i x _. cbn. f_equal. lia. }
    cbn [fold_left]. unfold importRow at 2. cbn [omap list_omap imap length].
    rewrite Nat.add_0_r.
    assert (Hrow :
              refused index row
              = match parseRow row with
                | Some _ => None
                | None => Some (import_message index)
                end) by reflexivity.
    rewrite Hrow.
    destruct (parseRow row) as [record|]; rewrite IH, Hshift; cbn [id];
      rewrite <- ?app_assoc; cbn [app]; f_equal; lia.
Qed.

End import.

(** X18.  [validateImportData] sorts the rows into two lists.  Whatever the
    rows are and whatever [dataSchema] makes of each:  [valid] holds the
    forms of the accepted rows, in the order of the rows; [errors] holds one
    message for each refused row, in the order of the rows, and the message
    names the row's position counted from 1; so the two lengths add up to
    the number of rows, and a row is refused exactly when its message is
    among the errors. *)
Theorem validateImportData_partitions :
  forall (Row : Type) (parseRow : Row -> option DataForm.t) (data : list Row),
    let valid := (validateImportData Row parseRow data).1 in
    let errors := (validateImportData Row parseRow data).2 in
    valid = omap parseRow data
    /\ errors
       = omap id
           (imap (fun index row =>
                    match parseRow row with
                    | Some _ => None
                    | None => Some (import_message index)
                    end)
              data)
    /\ (length valid + length errors = length data)%nat
    /\ (forall index row, data !! index = Some row ->
          (parseRow row = None <-> import_message index ∈ errors)).
Proof.
  intros Row parseRow data valid errors.
  assert (Hvalid : valid = omap parseRow data).
  { unfold valid, validateImportData. now rewrite importRow_fold. }
  assert (Herrors :
            errors
            = omap id
                (imap (fun index row =>
                         match parseRow row with
                         | Some _ => None
                         | None => Some (import_message index)
                         end)
                   data)).
  { unfold errors, validateImportData. now rewrite importRow_fold. }
  split; [exact Hvalid|]. split; [exact Herrors|]. split.
  - rewrite Hvalid, Herrors. clear. generalize import_message as message.
    induction data as [|row data IH]; intros message; [reflexivity|].
    cbn [omap list_omap imap length]. specialize (IH (message ∘ S)).
    unfold compose in *. destruct (parseRow row); cbn [id length] in *; lia.
  - intros index row Hrow. rewrite Herrors. rewrite list_elem_of_omap. split.
    + intros Hnone. exists (Some (import_message index)). split; [|reflexivity].
      apply list_elem_of_lookup. exists index.
      rewrite list_lookup_imap, Hrow. cbn. now rewrite Hnone.
    + intros (message & Hin & Hmessage). cbn in Hmessage. subst message.
      apply list_elem_of_lookup in Hin as [j Hj].
      rewrite list_lookup_imap in Hj.
      destruct (data !! j) as [row'|] eqn:Hrow'; [|discriminate].
      cbn in Hj. destruct (parseRow row') eqn:Hparse; [discriminate|].
      assert (Hsame : import_message j = import_message index) by congruence.
      apply import_message_inj in Hsame. congruence.
Qed.

(** ** Each manager and its key *)

Lemma updateUser_env (id : string) (updates : PartialUser.t) (w : World) :
  let e' := env (UserManager.updateUser id updates w).2 in
  stored_records e' = stored_records (env w)
  /\ stored_passwords e' = stored_passwords (env w)
  /\ stored_token e' = stored_token (env w).
Proof.
  destruct w as [[|ls] tl n]; [now repeat split|].
  cbv zeta. rewrite updateUser_run. cbv zeta.
  destruct (findIndex _ _); now repeat split.
Qed.

Lemma updateRecord_env (id : string) (updates : PartialDataForm.t) (w : World) :
  let e' := env (DataManager.updateRecord id updates w).2 in
  stored_users e' = stored_users (env w)
  /\ stored_passwords e' = stored_passwords (env w)
  /\ stored_token e' = stored_token (env w).
Proof.
  destruct w as [[|ls] tl n]; [now repeat split|].
  cbv zeta. rewrite updateRecord_run. cbv zeta.
  destruct (findIndex _ _); now repeat split.
Qed.

Lemma deleteRecord_env (id : string) (w : World) :
  let e' := env (DataManager.deleteRecord id w).2 in
  stored_users e' = stored_users (env w)
  /\ stored_passwords e' = stored_passwords (env w)
  /\ stored_token e' = stored_token (env w).
Proof.
  destruct w as [[|ls] tl n]; [now repeat split|].
  cbv zeta. rewrite deleteRecord_run. cbv zeta.
  destruct (_ =? _)%nat; now repeat split.
Qed.

Lemma deleteUser_frame (id : string) (w : World) :
  let e' := env (UserManager.deleteUser id w).2 in
  stored_records e' = stored_records (env w)
  /\ stored_passwords e' = stored_passwords (env w)
  /\ stored_token e' = stored_token (env w).
Proof.
  destruct w as [[|ls] tl n]; [now repeat split|].
  cbv zeta. rewrite deleteUser_run. cbv zeta.
  destruct (_ =? _)%nat; now repeat split.
Qed.

Lemma login_env (isEmail : string -> bool) (email password : string) (w : World) :
  let e' := env (login isEmail email password w).2 in
  stored_users e' = stored_users (env w)
  /\ stored_records e' = stored_records (env w)
  /\ stored_passwords e' = stored_passwords (env w).
Proof.
  destruct w as [[|ls] tl n].
  - cbv zeta. unfold login. destruct (loginSchema _ _ _); now repeat split.
  - cbv zeta. rewrite login_run. cbv zeta.
    destruct (loginSchema _ _ _); [|now repeat split].
    destruct (List.find _ _) as [u|]; [|now repeat split].
    destruct (PasswordManager.verifyUserPassword _ _ _).1; now repeat split.
Qed.

(** X19.  Each operation writes its own key of the store and no other, in
    every world.  The operations on records ([addRecord], [updateRecord],
    [deleteRecord]) leave the users, the password map and the token as they
    are stored; the operations on users ([addUser], [updateUser],
    [deleteUser]) leave the records, the password map and the token; the
    operations on passwords leave the users, the records and the token;
    [setToken], [removeToken] and [login] leave the users, the records and
    the password map.  So deleting a record never touches a user, and
    deleting a user deletes neither the user's records nor the user's hash. *)
Theorem operations_keep_to_their_key :
  forall (w : World),
    (forall userId data,
        let e' := env (DataManager.addRecord userId data w).2 in
        stored_users e' = stored_users (env w)
        /\ stored_passwords e' = stored_passwords (env w)
        /\ stored_token e' = stored_token (env w))
    /\ (forall id updates,
          let e' := env (DataManager.updateRecord id updates w).2 in
          stored_users e' = stored_users (env w)
          /\ stored_passwords e' = stored_passwords (env w)
          /\ stored_token e' = stored_token (env w))
    /\ (forall id,
          let e' := env (DataManager.deleteRecord id w).2 in
          stored_users e' = stored_users (env w)
          /\ stored_passwords e' = stored_passwords (env w)
          /\ stored_token e' = stored_token (env w))
    /\ (forall userData,
          let e' := env (UserManager.addUser userData w).2 in
          stored_records e' = stored_records (env w)
          /\ stored_passwords e' = stored_passwords (env w)
          /\ stored_token e' = stored_token (env w))
    /\ (forall id updates,
          let e' := env (UserManager.updateUser id updates w).2 in
          stored_records e' = stored_records (env w)
          /\ stored_passwords e' = stored_passwords (env w)
          /\ stored_token e' = stored_token (env w))
    /\ (forall id,
          let e' := env (UserManager.deleteUser id w).2 in
          stored_records e' = stored_records (env w)
          /\ stored_passwords e' = stored_passwords (env w)
          /\ stored_token e' = stored_token (env w))
    /\ (forall userId password,
          let e' := env (PasswordManager.savePassword userId password w).2 in
          stored_users e' = stored_users (env w)
          /\ stored_records e' = stored_records (env w)
          /\ stored_token e' = stored_token (env w))
    /\ (forall userId,
          let e' := env (PasswordManager.deletePassword userId w).2 in
          stored_users e' = stored_users (env w)
          /\ stored_records e' = stored_records (env w)
          /\ stored_token e' = stored_token (env w))
    /\ (forall token,
          let e' := env (authStorage.setToken token w).2 in
          stored_users e' = stored_users (env w)
          /\ stored_records e' = stored_records (env w)
          /\ stored_passwords e' = stored_passwords (env w))
    /\ (let e' := env (authStorage.removeToken w).2 in
        stored_users e' = stored_users (env w)
        /\ stored_records e' = stored_records (env w)
        /\ stored_passwords e' = stored_passwords (env w))
    /\ (forall isEmail email password,
          let e' := env (login isEmail email password w).2 in
          stored_users e' = stored_users (env w)
          /\ stored_records e' = stored_records (env w)
          /\ stored_passwords e' = stored_passwords (env w)).
Proof.
  intros w.
  split; [intros; destruct w as [[|ls] tl n]; now repeat split|].
  split; [intros; apply updateRecord_env|].
  split; [intros; apply deleteRecord_env|].
  split; [intros; destruct w as [[|ls] tl n]; now repeat split|].
  split; [intros; apply updateUser_env|].
  split; [intros; apply deleteUser_frame|].
  split; [intros; destruct w as [[|ls] tl n]; now repeat split|].
  split; [intros; destruct w as [[|ls] tl n]; now repeat split|].
  split; [intros; destruct w as [[|ls] tl n]; now repeat split|].
  split; [destruct w as [[|ls] tl n]; now repeat split|].
  intros. apply login_env.
Qed.

(** ** On the server *)

(** X20.  Where there is no [window], nothing is read and nothing is kept.
    The users, the records and the password map read as empty and there is
    no token and no session, whatever was done before.  [addUser] and
    [addRecord] still return the object they made, but it is not stored; and
    since the users always read as empty, every user [addUser] makes on the
    server has the role [admin].  Updates and deletes return [false];
    [savePassword], [setToken] and [removeToken] do nothing;
    [verifyUserPassword] and [login] refuse everything; [initializeApp]
    makes its administrator each time it is called, and keeps none.
    [deletePassword], the one operation that does not test for the window,
    throws. *)
Theorem server_keeps_nothing :
  forall (tl : nat -> Z) (n : nat),
    let w := mkWorld Server tl n in
    (users_of w = [] /\ records_of w = [] /\ passwords_of w = ∅
     /\ (authStorage.getToken w).1 = None
     /\ (authStorage.getUser w).1 = NoSession)
    /\ (forall userData,
          User.role (UserManager.addUser userData w).1 = admin
          /\ (UserManager.addUser userData w).2 = mkWorld Server tl (n + 3)
          /\ (UserManager.findByEmail (SignupForm.email userData)
                (UserManager.addUser userData w).2).1 = None)
    /\ (forall userId data,
          (DataManager.addRecord userId data w).2 = mkWorld Server tl (n + 3)
          /\ (DataManager.getRecordById
                (DataRecord.id (DataManager.addRecord userId data w).1)
                (DataManager.addRecord userId data w).2).1 = None)
    /\ (forall id updates, UserManager.updateUser id updates w = (false, w))
    /\ (forall id updates, DataManager.updateRecord id updates w = (false, w))
    /\ (forall id, UserManager.deleteUser id w = (false, w))
    /\ (forall id, DataManager.deleteRecord id w = (false, w))
    /\ (forall userId password,
          PasswordManager.savePassword userId password w = (tt, w)
          /\ PasswordManager.verifyUserPassword userId password w = (false, w))
    /\ (forall token, authStorage.setToken token w = (tt, w))
    /\ authStorage.removeToken w = (tt, w)
    /\ (forall isEmail email password, login isEmail email password w = (false, w))
    /\ initializeApp w = (tt, mkWorld Server tl (n + 3))
    /\ (forall userId, PasswordManager.deletePassword userId w = (None, w)).
Proof.
  intros tl n w.
  assert (Hn : S (S (S n)) = (n + 3)%nat) by lia.
  split; [now repeat split|].
  split; [intros userData; rewrite <- Hn; now repeat split|].
  split; [intros userId data; rewrite <- Hn; now repeat split|].
  do 4 (split; [reflexivity|]).
  split; [now split|].
  do 2 (split; [reflexivity|]).
  split.
  { intros isEmail email password. unfold login.
    now destruct (loginSchema isEmail email password). }
  split; [rewrite <- Hn; reflexivity|reflexivity].
Qed.

(** ** Access *)

(** X21.  The three access tests are nested.  Whoever has administrator
    access has user access to every resource, and whoever has user access to
    anything is authenticated; nobody ([null]) passes any of them.  A user
    who is not an administrator has access to a resource with a non-empty
    owner id exactly when that id is the user's own; when the owner id is
    absent or the empty string, every authenticated user has access. *)
Theorem access_is_nested :
  (forall u resourceUserId,
      hasAdminAccess u = true -> hasUserAccess u resourceUserId = true)
  /\ (forall u resourceUserId,
        hasUserAccess u resourceUserId = true -> requireAuth u = true)
  /\ (forall resourceUserId,
        hasAdminAccess None = false
        /\ hasUserAccess None resourceUserId = false
        /\ requireAuth None = false)
  /\ (forall a, hasAdminAccess (Some a) = true <-> AuthUser.role a = admin)
  /\ (forall a owner,
        AuthUser.role a = user -> owner <> "" ->
        (hasUserAccess (Some a) (Some owner) = true <-> AuthUser.id a = owner))
  /\ (forall a,
        hasUserAccess (Some a) None = true
        /\ hasUserAccess (Some a) (Some "") = true).
Proof.
  split; [|split; [|split; [|split; [|split]]]].
  - intros [a|] r; [|discriminate]. cbn. now intros ->.
  - now intros [a|] r.
  - now repeat split.
  - intros a. cbn. now destruct (AuthUser.role a).
  - intros a owner Hrole Howner. cbn. rewrite Hrole. cbn.
    apply truthy_iff in Howner. rewrite Howner. apply String.eqb_eq.
  - intros a. cbn. now destruct (UserRole_eqb (AuthUser.role a) admin).
Qed.

(** ** Starting the application more than once *)

(** X22.  [initializeApp] may run any number of times.  In the browser,
    after one run some user is stored, so a second run does nothing: it
    returns the world the first run left, store and clock.  The
    administrator it makes is therefore made once, and a store that already
    has users, with or without that administrator, is never touched. *)
Theorem initializeApp_idempotent :
  forall (ls : LocalStorage) (tl : nat -> Z) (n : nat),
    let w := mkWorld (Browser ls) tl n in
    let once := (initializeApp w).2 in
    users_of once <> []
    /\ initializeApp once = (tt, once)
    /\ (users_of w <> [] -> once = w)
    /\ (users_of w = [] -> length (users_of once) = 1%nat /\ ticks once = (n + 3)%nat).
Proof.
  intros ls tl n w once. unfold once, w. rewrite initializeApp_run. cbv zeta.
  rewrite users_of_browser.
  destruct (default [] (saas_users ls)) as [|u us] eqn:Husers; cbn [snd].
  - split; [discriminate|]. split; [|split; [congruence|]].
    + rewrite initializeApp_run. reflexivity.
    + intros _. split; [reflexivity|cbn; lia].
  - split; [rewrite users_of_browser, Husers; discriminate|].
    split; [|split; [reflexivity|discriminate]].
    rewrite initializeApp_run. cbv zeta. now rewrite Husers.
Qed.

(** ** Ids that stay distinct *)

Lemma NoDup_filter_map {A : Type} (key : A -> string) (p : A -> bool) (l : list A) :
  NoDup (map key l) -> NoDup (map key (List.filter p l)).
Proof.
  induction l as [|a l IH]; cbn; [constructor|]. intros Hnodup.
  apply NoDup_cons in Hnodup as [Hout Hnodup]. destruct (p a); [|now apply IH].
  cbn. apply NoDup_cons. split; [|now apply IH].
  intros Hin. apply Hout.
  apply list_elem_of_fmap in Hin as (x & E & Hx).
  apply list_elem_of_fmap. exists x. split; [exact E|].
  apply list_elem_of_In. apply list_elem_of_In, filter_In in Hx. tauto.
Qed.

Lemma map_id_alter_merge (updates : PartialDataForm.t) (updatedAt : JS.Date)
    (index : nat) (records : list DataRecord.t) :
  map DataRecord.id (alter (DataManager.merge updates updatedAt) index records)
  = map DataRecord.id records.
Proof.
  revert index. induction records as [|r records IH]; intros [|index];
    cbn; try reflexivity.
  f_equal. apply IH.
Qed.

(** X23.  The ids of the stored records stay pairwise distinct unless a
    record is added in a millisecond that is already the id of one.  In the
    browser, when the ids are pairwise distinct: after [addRecord] they
    still are exactly when the clock's reading, which becomes the new id, is
    the id of no stored record; after [updateRecord] and after
    [deleteRecord] they always are, and the ids are then the same, or fewer. *)
Theorem record_ids_stay_distinct :
  forall (ls : LocalStorage) (tl : nat -> Z) (n : nat),
    let w := mkWorld (Browser ls) tl n in
    let ids (v : World) := map DataRecord.id (records_of v) in
    NoDup (ids w) ->
    (forall userId data,
        NoDup (ids (DataManager.addRecord userId data w).2)
        <-> JS.toString (tl n) ∉ ids w)
    /\ (forall id updates,
          ids (DataManager.updateRecord id updates w).2 = ids w)
    /\ (forall id,
          NoDup (ids (DataManager.deleteRecord id w).2)
          /\ (forall x, x ∈ ids (DataManager.deleteRecord id w).2
                        <-> x ∈ ids w /\ x <> id)).
Proof.
  intros ls tl n w ids Hnodup. unfold ids in *. unfold w in *.
  rewrite records_of_browser in Hnodup.
  split; [|split].
  - intros userId data. rewrite addRecord_run. cbn [snd].
    rewrite !records_of_browser. stored. rewrite map_app. cbn [map DataRecord.id].
    rewrite NoDup_app. split.
    + intros (_ & Hdisjoint & _) Hin. apply (Hdisjoint _ Hin). left.
    + intros Hout. split; [exact Hnodup|]. split; [|apply NoDup_singleton].
      intros x Hx Hnew. apply list_elem_of_singleton in Hnew as ->. tauto.
  - intros id updates. rewrite updateRecord_run. cbv zeta.
    destruct (findIndex _ _); cbn [snd]; rewrite !records_of_browser; [|reflexivity].
    stored. apply map_id_alter_merge.
  - intros id. destruct (deleteRecord_browser id ls tl n)
      as (ls' & -> & Hrecords & _).
    rewrite !records_of_browser, Hrecords. split.
    + now apply NoDup_filter_map.
    + intros x. rewrite !list_elem_of_fmap. split.
      * intros (r & -> & Hr). apply (elem_of_filter_id DataRecord.id) in Hr as [Hr Hid].
        split; [now exists r|exact Hid].
      * intros [(r & -> & Hr) Hid]. exists r. split; [reflexivity|].
        now apply (elem_of_filter_id DataRecord.id).
Qed.

Lemma record_ids_stay_distinct_witness :
  let w := mkWorld (Browser exampleStorage) advancing 0 in
  let ids (v : World) := map DataRecord.id (records_of v) in
  (forall userId data,
      NoDup (ids (DataManager.addRecord userId data w).2)
      <-> JS.toString (advancing 0) ∉ ids w)
  /\ (forall id updates,
        ids (DataManager.updateRecord id updates w).2 = ids w)
  /\ (forall id,
        NoDup (ids (DataManager.deleteRecord id w).2)
        /\ (forall x, x ∈ ids (DataManager.deleteRecord id w).2
                      <-> x ∈ ids w /\ x <> id)).
Proof.
  cbv zeta. apply (record_ids_stay_distinct exampleStorage advancing 0).
  cbn. apply NoDup_cons_2.
  - intros H. apply list_elem_of_singleton in H. discriminate H.
  - apply NoDup_singleton.
Defined.

(** ** Reading a record back after an update or a delete *)

Lemma find_alter_first {A : Type} (p : A -> bool) (f : A -> A) (l : list A) (i : nat) :
  (forall x, p (f x) = p x) ->
  findIndex p l = Some i ->
  List.find p (alter f i l) = f <$> List.find p l.
Proof.
  intros Hkeep. revert i. induction l as [|a l IH]; intros i; cbn; [discriminate|].
  destruct (p a) eqn:Ha.
  - intros [= <-]. cbn. now rewrite Hkeep, Ha.
  - destruct (findIndex p l) as [j|] eqn:Hj; [|discriminate].
    cbn. intros [= <-]. cbn. rewrite Ha. now apply IH.
Qed.

Lemma find_findIndex {A : Type} (p : A -> bool) (l : list A) (i : nat) :
  findIndex p l = Some i -> List.find p l = l !! i.
Proof.
  revert i. induction l as [|a l IH]; intros i; cbn; [discriminate|].
  destruct (p a).
  - now intros [= <-].
  - destruct (findIndex p l) as [j|]; [|discriminate]. cbn. intros [= <-].
    now apply IH.
Qed.

Lemma find_alter_miss {A : Type} (q : A -> bool) (f : A -> A) (l : list A) (i : nat) :
  (forall x, q (f x) = q x) ->
  (forall y, l !! i = Some y -> q y = false) ->
  List.find q (alter f i l) = List.find q l.
Proof.
  intros Hkeep. revert i. induction l as [|a l IH]; intros i Hmiss; [reflexivity|].
  destruct i as [|i]; cbn.
  - rewrite Hkeep, (Hmiss a eq_refl). reflexivity.
  - destruct (q a); [reflexivity|]. apply IH. intros y Hy. now apply Hmiss.
Qed.

Lemma find_filter_other {A : Type} (key : A -> string) (id other : string)
    (l : list A) :
  other <> id ->
  List.find (fun x => String.eqb (key x) other)
    (List.filter (fun x => negb (String.eqb (key x) id)) l)
  = List.find (fun x => String.eqb (key x) other) l.
Proof.
  intros Hother. induction l as [|a l IH]; [reflexivity|]. cbn.
  destruct (String.eqb_spec (key a) id) as [E|E]; cbn.
  - rewrite E, (proj2 (String.eqb_neq id other)) by congruence. exact IH.
  - destruct (String.eqb (key a) other); [reflexivity|exact IH].
Qed.

Lemma find_filter_same {A : Type} (key : A -> string) (id : string) (l : list A) :
  List.find (fun x => String.eqb (key x) id)
    (List.filter (fun x => negb (String.eqb (key x) id)) l)
  = None.
Proof.
  induction l as [|a l IH]; [reflexivity|]. cbn.
  destruct (String.eqb (key a) id) eqn:E; cbn; [exact IH|]. now rewrite E.
Qed.

(** X24.  In the browser, after a successful [updateRecord id updates] (some
    stored record has the id) whose value, if it gives one, is a number the
    store keeps as it is (finite and not the negative zero), [getRecordById
    id] gives the record it gave before with the update applied: each of
    title, description, category, value and status is the one the updates
    give, or the old one when they give none; [updatedAt] is the clock's
    reading; id, user id and [createdAt] are the old ones.  For every other
    id [getRecordById] gives what it gave before. *)
Theorem updateRecord_then_read :
  forall (ls : LocalStorage) (tl : nat -> Z) (n : nat)
         (id : string) (updates : PartialDataForm.t),
    let w := mkWorld (Browser ls) tl n in
    let w' := (DataManager.updateRecord id updates w).2 in
    (exists r, r ∈ records_of w /\ DataRecord.id r = id) ->
    (forall v, PartialDataForm.value updates = Some v -> JSON_keeps v = true) ->
    exists old,
      (DataManager.getRecordById id w).1 = Some old
      /\ (DataManager.updateRecord id updates w).1 = true
      /\ (DataManager.getRecordById id w').1
         = Some
             (DataRecord.mk (DataRecord.id old) (DataRecord.userId old)
                (default (DataRecord.title old) (PartialDataForm.title updates))
                (default (DataRecord.description old)
                   (PartialDataForm.description updates))
                (default (DataRecord.category old)
                   (PartialDataForm.category updates))
                (default (DataRecord.value old) (PartialDataForm.value updates))
                (default (DataRecord.status old) (PartialDataForm.status updates))
                (DataRecord.createdAt old) (tl n))
      /\ (forall other, other <> id ->
            (DataManager.getRecordById other w').1
            = (DataManager.getRecordById other w).1).
Proof.
  intros ls tl n id updates w w' Hpresent _.
  unfold w', w in *. rewrite updateRecord_run. cbv zeta.
  rewrite records_of_browser in Hpresent.
  set (records := default [] (saas_data_records ls)) in *.
  destruct (findIndex_present (fun r => String.eqb (DataRecord.id r) id) records)
    as [index Hindex].
  { destruct Hpresent as (r & Hr & E). exists r. split; [assumption|].
    now apply String.eqb_eq. }
  destruct (findIndex_Some _ _ _ Hindex) as (old & Hold & Hid & Hfirst).
  rewrite Hindex. cbn [fst snd].
  assert (Hfind : List.find (fun r => String.eqb (DataRecord.id r) id) records
                  = Some old).
  { now rewrite (find_findIndex _ _ _ Hindex). }
  exists old. rewrite !getRecordById_records, !records_of_browser. stored.
  fold records. split; [exact Hfind|]. split; [reflexivity|]. split.
  - rewrite (find_alter_first _ _ _ index); [|reflexivity|exact Hindex].
    now rewrite Hfind.
  - intros other Hother. rewrite !getRecordById_records, !records_of_browser.
    stored. fold records. apply find_alter_miss; [reflexivity|].
    intros y Hy. rewrite Hold in Hy. injection Hy as <-.
    apply String.eqb_eq in Hid. rewrite Hid. apply String.eqb_neq. congruence.
Qed.

Lemma updateRecord_then_read_witness :
  let w := mkWorld (Browser exampleStorage) advancing 0 in
  let updates :=
    PartialDataForm.mk (Some "B2") None None (Some 25%float) (Some active) in
  let w' := (DataManager.updateRecord "2" updates w).2 in
  exists old,
    (DataManager.getRecordById "2" w).1 = Some old
    /\ (DataManager.updateRecord "2" updates w).1 = true
    /\ (DataManager.getRecordById "2" w').1
       = Some
           (DataRecord.mk (DataRecord.id old) (DataRecord.userId old)
              (default (DataRecord.title old) (PartialDataForm.title updates))
              (default (DataRecord.description old)
                 (PartialDataForm.description updates))
              (default (DataRecord.category old)
                 (PartialDataForm.category updates))
              (default (DataRecord.value old) (PartialDataForm.value updates))
              (default (DataRecord.status old) (PartialDataForm.status updates))
              (DataRecord.createdAt old) (advancing 0))
    /\ (forall other, other <> "2" ->
          (DataManager.getRecordById other w').1
          = (DataManager.getRecordById other w).1).
Proof.
  cbv zeta.
  apply (updateRecord_then_read exampleStorage advancing 0 "2"
           (PartialDataForm.mk (Some "B2") None None (Some 25%float) (Some active))).
  - exists recordB. split; [|reflexivity]. cbn. right. left.
  - intros v [= <-]. reflexivity.
Defined.

(** X25.  After [deleteRecord id], in every world, [getRecordById id] finds
    nothing, whether or not a record was deleted, and for every other id it
    finds what it found before. *)
Theorem deleteRecord_then_read :
  forall (id : string) (w : World),
    let w' := (DataManager.deleteRecord id w).2 in
    (DataManager.getRecordById id w').1 = None
    /\ (forall other, other <> id ->
          (DataManager.getRecordById other w').1
          = (DataManager.getRecordById other w).1).
Proof.
  intros id [[|ls] tl n]; [now split|]. cbv zeta.
  destruct (deleteRecord_browser id ls tl n) as (ls' & -> & Hrecords & _).
  split.
  - rewrite getRecordById_records, records_of_browser, Hrecords.
    apply (find_filter_same DataRecord.id).
  - intros other Hother.
    rewrite !getRecordById_records, !records_of_browser, Hrecords.
    now apply (find_filter_other DataRecord.id).
Qed.
